(** * A limit order book with price-time priority matching

    Shallow embedding of [order_book.h] / [order_book.cpp].

    Modelling conventions.
    - [uint64_t] values (quantities, counters, identifiers) are integers in
      [Z]; every arithmetic operation the source performs on them is followed
      by an explicit reduction modulo [2^64].
    - Prices are [double]s in the source.  The engine only compares them
      ([<], [!=]) and uses them as ordered-map keys, so a price is modelled
      as an integer number of ticks: any totally ordered set of keys behaves
      the same way (this leaves NaN out of the model).
    - An [Order*] is the address of a slot of the memory pool.  The pool
      [order_pool_] is modelled with its free list and with the contents of
      the slots that currently hold an order, so that the queue of a price
      level and the locator entry of an order alias the same record.
    - [std::map] with a comparator is an association list kept in the
      iteration order of the map ([begin()] is the head of the list).
    - The lines written to [std::cout] by [execute_trade] are returned by
      each operation as a list of trade events, oldest first. *)

From stdpp Require Import gmap list.
From Stdlib Require Import ZArith Lia.

Open Scope Z_scope.

(** ** Machine integers *)

Definition wrap64 (z : Z) : Z := z mod 2 ^ 64.

(** ** Data model (order_book.h) *)

Record Order := mkOrder {
  order_id : Z;
  is_buy : bool;
  price : Z;
  quantity : Z;
  timestamp_ns : Z
}.

(** [Order() = default], value-initialised by [new (element) T()]. *)
Definition Order_default : Order := mkOrder 0 false 0 0 0.

#[global] Instance Order_inhabited : Inhabited Order := populate Order_default.

#[global] Instance Order_eq_dec : EqDecision Order.
Proof. solve_decision. Defined.

Definition set_quantity (q : Z) (o : Order) : Order :=
  mkOrder (order_id o) (is_buy o) (price o) q (timestamp_ns o).

(** The row type of a snapshot. *)
Record PriceLevel := mkPriceLevel {
  level_price : Z;
  level_total_quantity : Z
}.

#[global] Instance PriceLevel_eq_dec : EqDecision PriceLevel.
Proof. solve_decision. Defined.

(** One resting queue: the FIFO list of [Order*] and its aggregate. *)
Record PriceLevelData := mkPriceLevelData {
  pld_price : Z;
  orders : list nat;
  total_quantity : Z
}.

#[global] Instance PriceLevelData_eq_dec : EqDecision PriceLevelData.
Proof. solve_decision. Defined.

(** [PriceLevelData(double p) : price(p), total_quantity(0)]. *)
Definition PriceLevelData_new (p : Z) : PriceLevelData := mkPriceLevelData p [] 0.

(** Locator entry.  The [list_iter] member designates the list node that
    holds [loc_order]; it carries no information beyond that pointer. *)
Record OrderLocation := mkOrderLocation {
  loc_order : nat;
  is_bid : bool;
  loc_price : Z
}.

#[global] Instance OrderLocation_eq_dec : EqDecision OrderLocation.
Proof. solve_decision. Defined.

(** A line printed by [execute_trade]. *)
Record TradeEvent := mkTradeEvent {
  buy_order_id : Z;
  sell_order_id : Z;
  trade_quantity : Z;
  trade_price : Z
}.

#[global] Instance TradeEvent_eq_dec : EqDecision TradeEvent.
Proof. solve_decision. Defined.

(** ** MemoryPool<Order, 4096> *)

Module MemoryPool.

Definition BlockSize : nat := 4096.

Record t := mk {
  cells : gmap nat Order;      (* contents of the slots holding an order *)
  free_list_ : list nat;       (* intrusive free list, head first *)
  block_count_ : nat
}.

(** The slots of block number [k] have addresses
    [k * BlockSize .. k * BlockSize + BlockSize - 1]; the loop pushes them
    on the free list one after the other. *)
Definition allocate_block (mp : t) : t :=
  let block_start := (block_count_ mp * BlockSize)%nat in
  mk (cells mp)
     (fold_left (fun fl i => (block_start + i)%nat :: fl)
                (seq 0 BlockSize) (free_list_ mp))
     (S (block_count_ mp)).

(** [MemoryPool()] allocates the first block. *)
Definition init : t := allocate_block (mk ∅ [] 0).

Definition allocate (mp : t) : nat * t :=
  let mp1 := match free_list_ mp with
             | [] => allocate_block mp
             | _ :: _ => mp
             end in
  match free_list_ mp1 with
  | element :: rest =>
      (element, mk (<[element := Order_default]> (cells mp1)) rest (block_count_ mp1))
  | [] => (0%nat, mp1)
  end.

(** Pool addresses are never null, so the null test of the source is
    not represented. *)
Definition deallocate (element : nat) (mp : t) : t :=
  mk (delete element (cells mp)) (element :: free_list_ mp) (block_count_ mp).

(** The addresses pushed by [allocate_block], as they come out on top of
    the free list. *)
Definition new_block (mp : t) : list nat :=
  reverse ((fun i => (block_count_ mp * BlockSize + i)%nat) <$> seq 0 BlockSize).

(** Reading through an [Order*]. *)
Definition deref (mp : t) (p : nat) : Order := cells mp !!! p.

(** Writing through an [Order*]. *)
Definition store (p : nat) (o : Order) (mp : t) : t :=
  mk (<[p := o]> (cells mp)) (free_list_ mp) (block_count_ mp).

End MemoryPool.

(** ** Side index: std::map<double, PriceLevelData, Compare> *)

Module SideMap.

Definition t := list (Z * PriceLevelData).

(** [before true] is [std::greater] (bids), [before false] is [std::less]
    (asks). *)
Definition before (bid_side : bool) (a b : Z) : bool :=
  if bid_side then b <? a else a <? b.

Definition keys (m : t) : list Z := map fst m.

Fixpoint find (p : Z) (m : t) : option PriceLevelData :=
  match m with
  | [] => None
  | (k, v) :: rest => if k =? p then Some v else find p rest
  end.

(** [emplace]: inserts at the position given by the comparator, and does
    nothing when the key is present. *)
Fixpoint emplace (bid_side : bool) (p : Z) (v : PriceLevelData) (m : t) : t :=
  match m with
  | [] => [(p, v)]
  | (k, w) :: rest =>
      if before bid_side p k then (p, v) :: m
      else if before bid_side k p then (k, w) :: emplace bid_side p v rest
      else m
  end.

(** Assignment through an iterator obtained for key [p]. *)
Fixpoint modify (p : Z) (f : PriceLevelData -> PriceLevelData) (m : t) : t :=
  match m with
  | [] => []
  | (k, v) :: rest => if k =? p then (k, f v) :: rest else (k, v) :: modify p f rest
  end.

(** [erase(it)] for an iterator obtained for key [p]. *)
Fixpoint erase (p : Z) (m : t) : t :=
  match m with
  | [] => []
  | (k, v) :: rest => if k =? p then rest else (k, v) :: erase p rest
  end.

(** [it = m.find(p); if (it == m.end()) it = m.emplace(p, p).first;] *)
Definition find_or_emplace (bid_side : bool) (p : Z) (m : t) : t :=
  match find p m with
  | None => emplace bid_side p (PriceLevelData_new p) m
  | Some _ => m
  end.

(** [if (it->second.orders.empty()) m.erase(it);] *)
Definition erase_if_empty (p : Z) (m : t) : t :=
  match find p m with
  | Some l => match orders l with
              | [] => erase p m
              | _ :: _ => m
              end
  | None => m
  end.

End SideMap.

(** ** The order book *)

Record OrderBook := mkOrderBook {
  bids_ : SideMap.t;
  asks_ : SideMap.t;
  order_lookup_ : gmap Z OrderLocation;
  order_pool_ : MemoryPool.t;
  total_orders_added_ : Z;
  total_orders_cancelled_ : Z;
  total_orders_matched_ : Z
}.

Definition side (bid_side : bool) (b : OrderBook) : SideMap.t :=
  if bid_side then bids_ b else asks_ b.

Definition set_side (bid_side : bool) (m : SideMap.t) (b : OrderBook) : OrderBook :=
  if bid_side
  then mkOrderBook m (asks_ b) (order_lookup_ b) (order_pool_ b)
         (total_orders_added_ b) (total_orders_cancelled_ b) (total_orders_matched_ b)
  else mkOrderBook (bids_ b) m (order_lookup_ b) (order_pool_ b)
         (total_orders_added_ b) (total_orders_cancelled_ b) (total_orders_matched_ b).

Definition set_lookup (l : gmap Z OrderLocation) (b : OrderBook) : OrderBook :=
  mkOrderBook (bids_ b) (asks_ b) l (order_pool_ b)
    (total_orders_added_ b) (total_orders_cancelled_ b) (total_orders_matched_ b).

Definition set_pool (mp : MemoryPool.t) (b : OrderBook) : OrderBook :=
  mkOrderBook (bids_ b) (asks_ b) (order_lookup_ b) mp
    (total_orders_added_ b) (total_orders_cancelled_ b) (total_orders_matched_ b).

Definition set_added (n : Z) (b : OrderBook) : OrderBook :=
  mkOrderBook (bids_ b) (asks_ b) (order_lookup_ b) (order_pool_ b)
    n (total_orders_cancelled_ b) (total_orders_matched_ b).

Definition set_cancelled (n : Z) (b : OrderBook) : OrderBook :=
  mkOrderBook (bids_ b) (asks_ b) (order_lookup_ b) (order_pool_ b)
    (total_orders_added_ b) n (total_orders_matched_ b).

Definition set_matched (n : Z) (b : OrderBook) : OrderBook :=
  mkOrderBook (bids_ b) (asks_ b) (order_lookup_ b) (order_pool_ b)
    (total_orders_added_ b) (total_orders_cancelled_ b) n.

(** [order->field] and [order->quantity = q]. *)
Definition deref (b : OrderBook) (p : nat) : Order :=
  MemoryPool.deref (order_pool_ b) p.

Definition store_quantity (p : nat) (q : Z) (b : OrderBook) : OrderBook :=
  set_pool (MemoryPool.store p (set_quantity q (deref b p)) (order_pool_ b)) b.

(** [OrderBook::OrderBook()]. *)
Definition OrderBook_new : OrderBook :=
  mkOrderBook [] [] ∅ MemoryPool.init 0 0 0.

(** [orders.erase(list_iter)] for the node holding pointer [p]. *)
Fixpoint list_erase (p : nat) (l : list nat) : list nat :=
  match l with
  | [] => []
  | q :: rest => if (q =? p)%nat then rest else q :: list_erase p rest
  end.

(** *** execute_trade *)

Definition execute_trade (buy_order sell_order : nat) (trade_qty : Z) (b : OrderBook)
  : OrderBook * TradeEvent :=
  (set_matched (wrap64 (total_orders_matched_ b + 1)) b,
   mkTradeEvent (order_id (deref b buy_order)) (order_id (deref b sell_order))
                trade_qty (price (deref b sell_order))).

(** *** match_orders *)

(** [it->second.orders.pop_front()]. *)
Definition pop_front (l : PriceLevelData) : PriceLevelData :=
  mkPriceLevelData (pld_price l) (tail (orders l)) (total_quantity l).

(** The block executed when the head order [p] of the best level of a
    side is completely filled. *)
Definition remove_filled (bid_side : bool) (best_price : Z) (p : nat) (b : OrderBook)
  : OrderBook :=
  let b1 := set_lookup (delete (order_id (deref b p)) (order_lookup_ b)) b in
  let b2 := set_side bid_side
              (SideMap.modify best_price pop_front (side bid_side b1)) b1 in
  let b3 := set_pool (MemoryPool.deallocate p (order_pool_ b2)) b2 in
  set_side bid_side (SideMap.erase_if_empty best_price (side bid_side b3)) b3.

(** [it->second.total_quantity -= trade_qty]. *)
Definition sub_total (trade_qty : Z) (l : PriceLevelData) : PriceLevelData :=
  mkPriceLevelData (pld_price l) (orders l) (wrap64 (total_quantity l - trade_qty)).

(** One iteration of the [while] loop; [None] when the loop exits. *)
Definition match_step (b : OrderBook) : option (OrderBook * TradeEvent) :=
  match bids_ b, asks_ b with
  | (best_bid_price, best_bid) :: _, (best_ask_price, best_ask) :: _ =>
      if best_bid_price <? best_ask_price then None
      else
        match orders best_bid, orders best_ask with
        | buy_order :: _, sell_order :: _ =>
            let trade_qty :=
              Z.min (quantity (deref b buy_order)) (quantity (deref b sell_order)) in
            let '(b1, t) := execute_trade buy_order sell_order trade_qty b in
            let b2 := store_quantity buy_order
                        (wrap64 (quantity (deref b1 buy_order) - trade_qty)) b1 in
            let b3 := store_quantity sell_order
                        (wrap64 (quantity (deref b2 sell_order) - trade_qty)) b2 in
            let b4 := set_side true
                        (SideMap.modify best_bid_price (sub_total trade_qty) (bids_ b3)) b3 in
            let b5 := set_side false
                        (SideMap.modify best_ask_price (sub_total trade_qty) (asks_ b4)) b4 in
            let b6 := if quantity (deref b5 buy_order) =? 0
                      then remove_filled true best_bid_price buy_order b5 else b5 in
            let b7 := if quantity (deref b6 sell_order) =? 0
                      then remove_filled false best_ask_price sell_order b6 else b6 in
            Some (b7, t)
        | _, _ => None
        end
  | _, _ => None
  end.

(** The [while] loop, run for at most [fuel] iterations. *)
Fixpoint match_loop (fuel : nat) (b : OrderBook) : OrderBook * list TradeEvent :=
  match fuel with
  | O => (b, [])
  | S fuel' =>
      match match_step b with
      | None => (b, [])
      | Some (b', t) =>
          let '(b'', ts) := match_loop fuel' b' in (b'', t :: ts)
      end
  end.

(** Number of orders queued on a side / in the book. *)
Definition side_orders (m : SideMap.t) : list nat :=
  flat_map (fun kv => orders (snd kv)) m.

Definition live_orders (b : OrderBook) : nat :=
  (length (side_orders (bids_ b)) + length (side_orders (asks_ b)))%nat.

(** Every iteration removes an order from the book, so the number of
    queued orders bounds the number of iterations: with this fuel the
    loop always runs to its exit condition. *)
Definition match_orders (b : OrderBook) : OrderBook * list TradeEvent :=
  match_loop (live_orders b) b.

(** *** add_order *)

(** [orders.push_back(new_order); total_quantity += order.quantity]. *)
Definition push_order (p : nat) (q : Z) (l : PriceLevelData) : PriceLevelData :=
  mkPriceLevelData (pld_price l) (orders l ++ [p]) (wrap64 (total_quantity l + q)).

Definition add_order (order : Order) (b : OrderBook) : OrderBook * list TradeEvent :=
  let '(new_order, pool1) := MemoryPool.allocate (order_pool_ b) in
  let b1 := set_pool (MemoryPool.store new_order order pool1) b in
  let b2 := set_added (wrap64 (total_orders_added_ b1 + 1)) b1 in
  let sd := is_buy order in
  let m1 := SideMap.find_or_emplace sd (price order) (side sd b2) in
  let m2 := SideMap.modify (price order) (push_order new_order (quantity order)) m1 in
  let b3 := set_side sd m2 b2 in
  let loc := mkOrderLocation new_order sd (price order) in
  let b4 := set_lookup (<[order_id order := loc]> (order_lookup_ b3)) b3 in
  match_orders b4.

(** *** remove_order_from_book *)

(** [total_quantity -= loc.order->quantity; orders.erase(loc.list_iter)]. *)
Definition unlink_order (p : nat) (q : Z) (l : PriceLevelData) : PriceLevelData :=
  mkPriceLevelData (pld_price l) (list_erase p (orders l)) (wrap64 (total_quantity l - q)).

Definition remove_order_from_book (loc : OrderLocation) (b : OrderBook) : OrderBook :=
  let sd := is_bid loc in
  match SideMap.find (loc_price loc) (side sd b) with
  | None => b
  | Some _ =>
      let q := quantity (deref b (loc_order loc)) in
      let m1 := SideMap.modify (loc_price loc) (unlink_order (loc_order loc) q)
                  (side sd b) in
      let b1 := set_side sd m1 b in
      let b2 := set_pool (MemoryPool.deallocate (loc_order loc) (order_pool_ b1)) b1 in
      set_side sd (SideMap.erase_if_empty (loc_price loc) (side sd b2)) b2
  end.

(** *** cancel_order *)

Definition cancel_order (id : Z) (b : OrderBook) : bool * OrderBook :=
  match order_lookup_ b !! id with
  | None => (false, b)
  | Some loc =>
      let b1 := remove_order_from_book loc b in
      let b2 := set_lookup (delete id (order_lookup_ b1)) b1 in
      let b3 := set_cancelled (wrap64 (total_orders_cancelled_ b2 + 1)) b2 in
      (true, b3)
  end.

(** *** amend_order *)

(** [total_quantity = total_quantity - old_quantity + new_quantity]. *)
Definition amend_total (old_quantity new_quantity : Z) (l : PriceLevelData)
  : PriceLevelData :=
  mkPriceLevelData (pld_price l) (orders l)
    (wrap64 (total_quantity l - old_quantity + new_quantity)).

Definition amend_order (id new_price new_quantity : Z) (b : OrderBook)
  : bool * OrderBook * list TradeEvent :=
  match order_lookup_ b !! id with
  | None => (false, b, [])
  | Some loc =>
      let order := loc_order loc in
      let old_price := price (deref b order) in
      let old_quantity := quantity (deref b order) in
      if negb (new_price =? old_price) then
        let new_order :=
          mkOrder (order_id (deref b order)) (is_buy (deref b order))
                  new_price new_quantity (timestamp_ns (deref b order)) in
        let '(_, b1) := cancel_order id b in
        let '(b2, ts) := add_order new_order b1 in
        (true, b2, ts)
      else if negb (new_quantity =? old_quantity) then
        let b1 := store_quantity order new_quantity b in
        let b2 := set_side (is_bid loc)
                    (SideMap.modify (loc_price loc)
                       (amend_total old_quantity new_quantity) (side (is_bid loc) b1)) b1 in
        let '(b3, ts) := match_orders b2 in
        (true, b3, ts)
      else (true, b, [])
  end.

(** *** Queries *)

Definition snapshot_side (depth : nat) (m : SideMap.t) : list PriceLevel :=
  take depth (map (fun kv => mkPriceLevel (fst kv) (total_quantity (snd kv))) m).

Definition get_snapshot (depth : nat) (b : OrderBook) : list PriceLevel * list PriceLevel :=
  (snapshot_side depth (bids_ b), snapshot_side depth (asks_ b)).

Definition get_best (m : SideMap.t) : option (Z * Z) :=
  match m with
  | [] => None
  | (k, v) :: _ => Some (k, total_quantity v)
  end.

Definition get_best_bid (b : OrderBook) : option (Z * Z) := get_best (bids_ b).
Definition get_best_ask (b : OrderBook) : option (Z * Z) := get_best (asks_ b).

(** *** clear *)

Definition clear (b : OrderBook) : OrderBook :=
  let pool1 := fold_left (fun mp p => MemoryPool.deallocate p mp)
                 (side_orders (bids_ b)) (order_pool_ b) in
  let pool2 := fold_left (fun mp p => MemoryPool.deallocate p mp)
                 (side_orders (asks_ b)) pool1 in
  mkOrderBook [] [] ∅ pool2 0 0 0.

(** ** Sequences of public operations *)

Inductive Op :=
| OpAdd (order : Order)
| OpCancel (id : Z)
| OpAmend (id new_price new_quantity : Z)
| OpClear.

Definition step (op : Op) (b : OrderBook) : OrderBook * list TradeEvent :=
  match op with
  | OpAdd order => add_order order b
  | OpCancel id => ((cancel_order id b).2, [])
  | OpAmend id new_price new_quantity =>
      let '(_, b', ts) := amend_order id new_price new_quantity b in (b', ts)
  | OpClear => (clear b, [])
  end.

(** Runs the operations in call order and collects the trade events. *)
Fixpoint run (ops : list Op) (b : OrderBook) : OrderBook * list TradeEvent :=
  match ops with
  | [] => (b, [])
  | op :: ops' =>
      let '(b1, ts1) := step op b in
      let '(b2, ts2) := run ops' b1 in
      (b2, ts1 ++ ts2)
  end.

(** The books a client can observe: those obtained from a freshly
    constructed book by public operations. *)
Inductive reachable : OrderBook -> Prop :=
| reachable_new : reachable OrderBook_new
| reachable_step op b : reachable b -> reachable (step op b).1.

(** ** Invariants *)

Module Inv.

(** The keys of a side index follow the comparator of the side. *)
Fixpoint sorted (bid_side : bool) (m : SideMap.t) : Prop :=
  match m with
  | [] => True
  | (k, _) :: rest =>
      Forall (fun kv => SideMap.before bid_side k kv.1 = true) rest
      /\ sorted bid_side rest
  end.

(** Sum of the remaining quantities of the orders of a queue. *)
Definition sum_quantity (cells : gmap nat Order) (ps : list nat) : Z :=
  foldr (fun p acc => quantity (cells !!! p) + acc) 0 ps.

(** A price level of side [bid_side] stored under key [k]. *)
Record level_ok (cells : gmap nat Order) (bid_side : bool)
       (k : Z) (l : PriceLevelData) : Prop := mk_level_ok {
  level_nonempty : orders l <> [];
  level_nodup : NoDup (orders l);
  level_total : total_quantity l = wrap64 (sum_quantity cells (orders l));
  level_cells : forall p, p ∈ orders l ->
      exists o, cells !! p = Some o /\ price o = k /\ is_buy o = bid_side
}.

Definition levels_ok (cells : gmap nat Order) (bid_side : bool) (m : SideMap.t) : Prop :=
  sorted bid_side m /\
  forall k l, SideMap.find k m = Some l -> level_ok cells bid_side k l.

Record pool_ok (mp : MemoryPool.t) : Prop := mk_pool_ok {
  pool_free_nodup : NoDup (MemoryPool.free_list_ mp);
  pool_free_unused : forall p, p ∈ MemoryPool.free_list_ mp ->
      MemoryPool.cells mp !! p = None;
  pool_free_bound : forall p, p ∈ MemoryPool.free_list_ mp ->
      (p < MemoryPool.block_count_ mp * MemoryPool.BlockSize)%nat;
  pool_cells_bound : forall p, is_Some (MemoryPool.cells mp !! p) ->
      (p < MemoryPool.block_count_ mp * MemoryPool.BlockSize)%nat
}.

(** Every locator entry designates a queued order carrying its key. *)
Definition lookup_ok (bids asks : SideMap.t) (cells : gmap nat Order)
           (lk : gmap Z OrderLocation) : Prop :=
  forall id loc, lk !! id = Some loc ->
    exists l o,
      SideMap.find (loc_price loc) (if is_bid loc then bids else asks) = Some l
      /\ loc_order loc ∈ orders l
      /\ cells !! loc_order loc = Some o
      /\ order_id o = id.

Definition counter_ok (n : Z) : Prop := 0 <= n < 2 ^ 64.

Record book_inv (b : OrderBook) : Prop := mk_book_inv {
  inv_bids : levels_ok (MemoryPool.cells (order_pool_ b)) true (bids_ b);
  inv_asks : levels_ok (MemoryPool.cells (order_pool_ b)) false (asks_ b);
  inv_pool : pool_ok (order_pool_ b);
  inv_lookup : lookup_ok (bids_ b) (asks_ b)
                 (MemoryPool.cells (order_pool_ b)) (order_lookup_ b);
  inv_added : counter_ok (total_orders_added_ b);
  inv_cancelled : counter_ok (total_orders_cancelled_ b);
  inv_matched : counter_ok (total_orders_matched_ b)
}.

(** The best bid is strictly below the best ask. *)
Definition uncrossed (b : OrderBook) : Prop :=
  forall pb qb pa qa,
    get_best_bid b = Some (pb, qb) -> get_best_ask b = Some (pa, qa) -> pb < pa.

(** No bid level is priced at or above an ask level. *)
Definition all_uncrossed (bids asks : SideMap.t) : Prop :=
  forall kb ka, kb ∈ SideMap.keys bids -> ka ∈ SideMap.keys asks -> kb < ka.

End Inv.

(** Identifiers of the queued orders of a side, best level first and in
    arrival order inside a level. *)
Definition resting_ids (b : OrderBook) (bid_side : bool) : list Z :=
  map (fun p => order_id (deref b p)) (side_orders (side bid_side b)).

(** ** Auxiliary definitions used in the proofs *)

(** A fill of [trade_qty] on the order [p] queued at price [k]: the two
    assignments the loop makes for one side. *)
Definition fill (sd : bool) (k : Z) (p : nat) (trade_qty : Z) (b : OrderBook) : OrderBook :=
  set_side sd (SideMap.modify k (sub_total trade_qty) (side sd b))
    (store_quantity p (wrap64 (quantity (deref b p) - trade_qty)) b).

(** The state after one iteration on the head orders [pb] (record [ob],
    best bid price [kb]) and [pa] (record [oa], best ask price [ka]), in
    terms of fills and removals. *)
Definition after_match (b : OrderBook) (kb : Z) (pb : nat) (ob : Order)
           (ka : Z) (pa : nat) (oa : Order) : OrderBook :=
  let trade_qty := Z.min (quantity ob) (quantity oa) in
  let b1 := set_matched (wrap64 (total_orders_matched_ b + 1)) b in
  let b5 := fill false ka pa trade_qty (fill true kb pb trade_qty b1) in
  let b6 := if wrap64 (quantity ob - trade_qty) =? 0
            then remove_filled true kb pb b5 else b5 in
  if wrap64 (quantity oa - trade_qty) =? 0
  then remove_filled false ka pa b6 else b6.

(** What a fill leaves of the best level [(k, l)] of a side whose other
    levels are [rest]: the level is dropped with its last order. *)
Definition after_fill (k : Z) (l : PriceLevelData) (rest : SideMap.t)
           (trade_qty remaining : Z) : SideMap.t :=
  if remaining =? 0 then
    match tail (orders l) with
    | [] => rest
    | _ :: _ =>
        (k, mkPriceLevelData (pld_price l) (tail (orders l))
              (wrap64 (total_quantity l - trade_qty))) :: rest
    end
  else (k, sub_total trade_qty l) :: rest.

(** The book after the insertion made by [add_order], before matching. *)
Definition inserted (order : Order) (b : OrderBook) : OrderBook :=
  let '(new_order, pool1) := MemoryPool.allocate (order_pool_ b) in
  let b1 := set_pool (MemoryPool.store new_order order pool1) b in
  let b2 := set_added (wrap64 (total_orders_added_ b1 + 1)) b1 in
  let sd := is_buy order in
  let m1 := SideMap.find_or_emplace sd (price order) (side sd b2) in
  let m2 := SideMap.modify (price order) (push_order new_order (quantity order)) m1 in
  let b3 := set_side sd m2 b2 in
  set_lookup (<[order_id order := mkOrderLocation new_order sd (price order)]>
                (order_lookup_ b3)) b3.

(** The in-place branch of [amend_order], before matching. *)
Definition amended (loc : OrderLocation) (new_quantity : Z) (b : OrderBook) : OrderBook :=
  let old_quantity := quantity (deref b (loc_order loc)) in
  let b1 := store_quantity (loc_order loc) new_quantity b in
  set_side (is_bid loc)
    (SideMap.modify (loc_price loc) (amend_total old_quantity new_quantity)
       (side (is_bid loc) b1)) b1.

(** The two parties of a trade, seen from the side [sd] of the aggressor. *)
Definition aggressor_id (sd : bool) (t : TradeEvent) : Z :=
  if sd then buy_order_id t else sell_order_id t.

Definition counterparty_id (sd : bool) (t : TradeEvent) : Z :=
  if sd then sell_order_id t else buy_order_id t.

(** [all_uncrossed] with the sides given from the point of view of [sd]. *)
Definition uncrossed_with (sd : bool) (own opposite : SideMap.t) : Prop :=
  if sd then Inv.all_uncrossed own opposite else Inv.all_uncrossed opposite own.

(** The aggressor [p] is alone at the head of its side, and nothing else
    on that side crosses the opposite side. *)
Definition agg_state (sd : bool) (p : nat) (b : OrderBook) : Prop :=
  exists k l rest,
    side sd b = (k, l) :: rest /\ orders l = [p]
    /\ uncrossed_with sd rest (side (negb sd) b).

(** How a trade pairs the aggressor [p] with a resting order [q]. *)
Definition pairs_with (b : OrderBook) (sd : bool) (p : nat) (t : TradeEvent) (q : nat)
  : Prop :=
  counterparty_id sd t = order_id (deref b q)
  /\ aggressor_id sd t = order_id (deref b p)
  /\ trade_price t = price (deref b (if sd then q else p)).

(** The rule "a trade is priced at the price of the order that was resting
    before the aggressor [order] arrived", for the trades [ts] emitted
    when [order] is added to [b]. *)
Definition trades_at_resting_price (b : OrderBook) (order : Order)
           (ts : list TradeEvent) : Prop :=
  forall t, t ∈ ts ->
    exists q, q ∈ side_orders (side (negb (is_buy order)) b)
              /\ order_id (deref b q) = counterparty_id (is_buy order) t
              /\ trade_price t = price (deref b q).

Definition is_clear (op : Op) : bool :=
  match op with OpClear => true | _ => false end.

(** Runs the operations and keeps the trade events emitted since the
    construction of the book or the last [clear]. *)
Fixpoint run_since_clear (ops : list Op) (b : OrderBook) (since : list TradeEvent)
  : OrderBook * list TradeEvent :=
  match ops with
  | [] => (b, since)
  | op :: ops' =>
      let '(b1, ts1) := step op b in
      run_since_clear ops' b1 (if is_clear op then [] else since ++ ts1)
  end.

(** ** Example books *)

(** Two bids at 1000 and one at 995, asks at 1010 and 1015. *)
Definition ex_two_sided : OrderBook :=
  (run [OpAdd (mkOrder 1 true 1000 50 0); OpAdd (mkOrder 2 true 1000 75 0);
        OpAdd (mkOrder 3 true 995 100 0); OpAdd (mkOrder 4 false 1010 60 0);
        OpAdd (mkOrder 5 false 1015 80 0)] OrderBook_new).1.

(** A crossed book: [ex_two_sided] after the insertion of a sell order at
    990, before the crossing loop has run. *)
Definition ex_crossed : OrderBook := inserted (mkOrder 7 false 990 60 0) ex_two_sided.

(** A book with one resting bid at 1000. *)
Definition ex_one_bid : OrderBook :=
  (run [OpAdd (mkOrder 1 true 1000 50 0)] OrderBook_new).1.

(** ** Scenarios of the test driver (prices in tenths) *)

(** The orders of the first scenario of [main.cpp]. *)
Definition scenario_basic : list Op :=
  [OpAdd (mkOrder 1 true 1000 50 0); OpAdd (mkOrder 2 true 995 100 0);
   OpAdd (mkOrder 3 true 990 75 0); OpAdd (mkOrder 4 false 1010 60 0);
   OpAdd (mkOrder 5 false 1015 80 0); OpAdd (mkOrder 6 false 1020 90 0)].

(** The book of the matching scenario of [main.cpp], before the two
    aggressive orders. *)
Definition scenario_matching : list Op :=
  [OpAdd (mkOrder 101 true 1000 100 0); OpAdd (mkOrder 102 true 995 150 0);
   OpAdd (mkOrder 103 false 1010 80 0); OpAdd (mkOrder 104 false 1015 120 0)].

(** Three bids at the same price, in arrival order. *)
Definition scenario_fifo : list Op :=
  [OpAdd (mkOrder 201 true 1000 50 0); OpAdd (mkOrder 202 true 1000 75 0);
   OpAdd (mkOrder 203 true 1000 100 0)].

(** ** Accessors and notions used by the further properties *)

(** [bid_levels()] and [ask_levels()]: the sizes of the side indexes. *)
Definition bid_levels (b : OrderBook) : nat := length (bids_ b).
Definition ask_levels (b : OrderBook) : nat := length (asks_ b).

(** [MemoryPool::block_count()], as printed by [print_book]. *)
Definition block_count (b : OrderBook) : nat := MemoryPool.block_count_ (order_pool_ b).

(** The rows of a snapshot follow the comparator of their side. *)
Fixpoint rows_sorted (bid_side : bool) (rows : list PriceLevel) : Prop :=
  match rows with
  | [] => True
  | r :: rest =>
      Forall (fun r' => SideMap.before bid_side (level_price r) (level_price r') = true) rest
      /\ rows_sorted bid_side rest
  end.

(** The crossing test of the loop, for an order about to be added: the
    opposite side is non-empty and its best price is not strictly beyond
    the price of the order. *)
Definition crosses (order : Order) (b : OrderBook) : bool :=
  match side (negb (is_buy order)) b with
  | [] => false
  | (k, _) :: _ =>
      negb (if is_buy order then price order <? k else k <? price order)
  end.

(** The pools a client obtains by using the pool as intended: slots are
    written and released only while they are in use. *)
Inductive pool_reachable : MemoryPool.t -> Prop :=
| pool_reachable_init : pool_reachable MemoryPool.init
| pool_reachable_allocate mp :
    pool_reachable mp -> pool_reachable (MemoryPool.allocate mp).2
| pool_reachable_store mp p o :
    pool_reachable mp -> is_Some (MemoryPool.cells mp !! p) ->
    pool_reachable (MemoryPool.store p o mp)
| pool_reachable_deallocate mp p :
    pool_reachable mp -> is_Some (MemoryPool.cells mp !! p) ->
    pool_reachable (MemoryPool.deallocate p mp).

(** Every slot of every block is on the free list or in use. *)
Definition pool_full (mp : MemoryPool.t) : Prop :=
  (length (MemoryPool.free_list_ mp) + size (MemoryPool.cells mp)
   = MemoryPool.block_count_ mp * MemoryPool.BlockSize)%nat.

(** Every address obtained so far is on the free list or in use. *)
Definition pool_covered (mp : MemoryPool.t) : Prop :=
  forall p, (p < MemoryPool.block_count_ mp * MemoryPool.BlockSize)%nat ->
            p ∈ MemoryPool.free_list_ mp \/ is_Some (MemoryPool.cells mp !! p).

(** The orders queued in the book, bids first. *)
Definition queued (b : OrderBook) : list nat :=
  side_orders (bids_ b) ++ side_orders (asks_ b).

(** The slots in use are those of the queued orders, and the pool has
    lost none. *)
Definition accounted (b : OrderBook) : Prop :=
  (forall p, is_Some (MemoryPool.cells (order_pool_ b) !! p) -> p ∈ queued b)
  /\ pool_full (order_pool_ b).

(** The locator entry of order 1 in [ex_two_sided]. *)
Definition ex_loc_1 : OrderLocation := mkOrderLocation 4095 true 1000.

(** The discipline of a client that never reuses the identifier of an
    order it still has in the book: the test on one operation, along a
    sequence of operations, and the books obtained under it. *)
Definition fresh_id (op : Op) (b : OrderBook) : bool :=
  match op with
  | OpAdd order => bool_decide (order_lookup_ b !! order_id order = None)
  | _ => true
  end.

Fixpoint fresh_run (ops : list Op) (b : OrderBook) : bool :=
  match ops with
  | [] => true
  | op :: ops' => fresh_id op b && fresh_run ops' (step op b).1
  end.

Inductive reachable_fresh : OrderBook -> Prop :=
| reachable_fresh_new : reachable_fresh OrderBook_new
| reachable_fresh_step op b :
    reachable_fresh b -> fresh_id op b = true -> reachable_fresh (step op b).1.

(** Every queued order is designated by the locator entry of its own
    identifier. *)
Definition indexed (b : OrderBook) : Prop :=
  forall sd k l p,
    SideMap.find k (side sd b) = Some l -> p ∈ orders l ->
    order_lookup_ b !! order_id (deref b p) = Some (mkOrderLocation p sd k).

(** Quantities are [uint64_t] values: every order in the pool has its
    quantity in range. *)
Definition quantities_ok (b : OrderBook) : Prop :=
  forall p o, MemoryPool.cells (order_pool_ b) !! p = Some o -> 0 <= quantity o < 2 ^ 64.

(** The same for the arguments of an operation. *)
Definition quantity_ok_op (op : Op) : bool :=
  match op with
  | OpAdd order => (0 <=? quantity order) && (quantity order <? 2 ^ 64)
  | OpAmend _ _ new_quantity => (0 <=? new_quantity) && (new_quantity <? 2 ^ 64)
  | _ => true
  end.

(** The quantity resting in the book, and the quantity of a list of
    trades. *)
Definition resting_volume (b : OrderBook) : Z :=
  Inv.sum_quantity (MemoryPool.cells (order_pool_ b)) (queued b).

Definition traded_volume (ts : list TradeEvent) : Z :=
  foldr (fun t acc => trade_quantity t + acc) 0 ts.

(** ** The level invariant as the specification words it *)

(** Valid use of the book: every added quantity is a strictly positive
    [uint64_t] value, no order is added under an identifier that is still
    in the locator, and no order is amended to quantity zero. *)
Definition valid_op (op : Op) (b : OrderBook) : bool :=
  match op with
  | OpAdd order =>
      (0 <? quantity order) && (quantity order <? 2 ^ 64)
      && bool_decide (order_lookup_ b !! order_id order = None)
  | OpAmend _ _ new_quantity => (0 <? new_quantity) && (new_quantity <? 2 ^ 64)
  | _ => true
  end.

Fixpoint valid_use (ops : list Op) (b : OrderBook) : bool :=
  match ops with
  | [] => true
  | op :: ops' => valid_op op b && valid_use ops' (step op b).1
  end.

(** Every level present has a non-empty queue, and its total is the sum
    of the remaining quantities of its queue, as an integer. *)
Definition level_totals_exact (b : OrderBook) : Prop :=
  forall sd k l,
    (k, l) ∈ side sd b ->
    orders l <> []
    /\ total_quantity l = Inv.sum_quantity (MemoryPool.cells (order_pool_ b)) (orders l).

(** Two bids at one price whose quantities add up to [2^64 + 1]. *)
Definition ex_overflow_ops : list Op :=
  [OpAdd (mkOrder 1 true 1000 (2 ^ 64 - 1) 0); OpAdd (mkOrder 2 true 1000 2 0)].

(** * Facts about the model *)

(** The side that is not [y]. *)
Ltac opposite_side x y := assert (x = negb y) as -> by (destruct y, x; done).

(** ** Arithmetic modulo [2^64] *)

Lemma wrap64_range z : 0 <= wrap64 z < 2 ^ 64.
Proof. unfold wrap64. apply Z.mod_pos_bound. lia. Qed.

Lemma wrap64_small z : 0 <= z < 2 ^ 64 -> wrap64 z = z.
Proof. intros H. unfold wrap64. apply Z.mod_small. exact H. Qed.

Lemma wrap64_idemp z : wrap64 (wrap64 z) = wrap64 z.
Proof. unfold wrap64. apply Z.mod_mod. lia. Qed.

Lemma wrap64_add_l a b : wrap64 (wrap64 a + b) = wrap64 (a + b).
Proof. unfold wrap64. apply Zplus_mod_idemp_l. Qed.

Lemma wrap64_add_r a b : wrap64 (a + wrap64 b) = wrap64 (a + b).
Proof. unfold wrap64. apply Zplus_mod_idemp_r. Qed.

Lemma wrap64_sub_l a b : wrap64 (wrap64 a - b) = wrap64 (a - b).
Proof. unfold wrap64. apply Zminus_mod_idemp_l. Qed.

Lemma wrap64_sub_r a b : wrap64 (a - wrap64 b) = wrap64 (a - b).
Proof. unfold wrap64. apply Zminus_mod_idemp_r. Qed.

Lemma wrap64_0 : wrap64 0 = 0.
Proof. reflexivity. Qed.

(** Adding then subtracting a quantity gives back a 64-bit total. *)
Lemma wrap64_add_sub t q : 0 <= t < 2 ^ 64 -> wrap64 (wrap64 (t + q) - q) = t.
Proof.
intros H. rewrite wrap64_sub_l. replace (t + q - q) with t by lia.
by apply wrap64_small.
Qed.

(** ** The side index as a finite map *)

Section side_map.
Import SideMap Inv.
Context (sd : bool).
Implicit Types (m : SideMap.t) (p q k : Z) (l v : PriceLevelData).

Lemma before_irrefl k : before sd k k = false.
Proof. unfold before. destruct sd; lia. Qed.

Lemma before_asym a b : before sd a b = true -> before sd b a = false.
Proof. unfold before. destruct sd; lia. Qed.

Lemma before_trans a b c :
  before sd a b = true -> before sd b c = true -> before sd a c = true.
Proof. unfold before. destruct sd; lia. Qed.

Lemma before_total a b :
  before sd a b = false -> before sd b a = false -> a = b.
Proof. unfold before. destruct sd; lia. Qed.

Lemma find_Some_elem p m l : find p m = Some l -> (p, l) ∈ m.
Proof.
  induction m as [|[k v] m IH]; simpl; [done|].
  destruct (Z.eqb_spec k p) as [->|Hne].
  - intros [= ->]. left.
  - intros H. right. by apply IH.
Qed.

Lemma find_None_keys p m : find p m = None <-> p ∉ keys m.
Proof.
  induction m as [|[k v] m IH]; simpl.
  - split; [intros _; apply not_elem_of_nil | done].
  - rewrite not_elem_of_cons. destruct (Z.eqb_spec k p) as [->|Hne].
    + split; [done | intros [? _]; done].
    + rewrite IH. split; [intros ?; split; congruence | intros [_ ?]; done].
Qed.

Lemma sorted_head_notin k v m : sorted sd ((k, v) :: m) -> k ∉ keys m.
Proof.
  intros [Hall _] Hin. apply list_elem_of_fmap in Hin as [[k' v'] [-> Hin]].
  rewrite Forall_forall in Hall. apply Hall in Hin. simpl in Hin.
  by rewrite before_irrefl in Hin.
Qed.

Lemma elem_find p l m : sorted sd m -> (p, l) ∈ m -> find p m = Some l.
Proof.
  induction m as [|[k v] m IH]; simpl; intros Hs Hin.
  - by apply elem_of_nil in Hin.
  - apply elem_of_cons in Hin as [[= -> ->]|Hin].
    + by rewrite Z.eqb_refl.
    + destruct (Z.eqb_spec k p) as [->|Hne].
      * exfalso. apply (sorted_head_notin p v m Hs).
        apply list_elem_of_fmap. by exists (p, l).
      * apply IH; [apply Hs | done].
Qed.

(** *** modify *)

Lemma keys_modify p f m : keys (modify p f m) = keys m.
Proof.
  induction m as [|[k v] m IH]; simpl; [done|].
  destruct (k =? p); simpl; [done | by rewrite IH].
Qed.

Lemma sorted_keys m m' : keys m = keys m' -> sorted sd m -> sorted sd m'.
Proof.
  revert m'. induction m as [|[k v] m IH]; intros [|[k' v'] m']; simpl; try done.
  intros [= -> Hk] [Hall Hs]. split; [|by apply IH].
  rewrite Forall_forall in *. intros [k1 v1] Hin. simpl.
  assert (k1 ∈ keys m) as Hin'.
  { rewrite Hk. apply list_elem_of_fmap. by exists (k1, v1). }
  apply list_elem_of_fmap in Hin' as [[k2 v2] [-> Hin']]. by apply (Hall _ Hin').
Qed.

Lemma sorted_modify p f m : sorted sd m -> sorted sd (modify p f m).
Proof. apply sorted_keys. by rewrite keys_modify. Qed.

Lemma find_modify p q f m :
  find q (modify p f m) = if decide (q = p) then f <$> find p m else find q m.
Proof.
  induction m as [|[k v] m IH]; simpl; [by case_decide|].
  destruct (Z.eqb_spec k p) as [->|Hne]; simpl.
  - case_decide as Hq; [subst; by rewrite Z.eqb_refl|].
    destruct (Z.eqb_spec p q); [congruence | done].
  - rewrite IH. case_decide as Hq; [subst|done].
    destruct (Z.eqb_spec k p); [done | done].
Qed.

(** *** erase *)

Lemma elem_erase x p m : x ∈ erase p m -> x ∈ m.
Proof.
  induction m as [|[k v] m IH]; simpl; [done|].
  destruct (k =? p); [by right|].
  intros [->|Hin]%elem_of_cons; [left | right; by apply IH].
Qed.

Lemma sorted_erase p m : sorted sd m -> sorted sd (erase p m).
Proof.
  induction m as [|[k v] m IH]; simpl; [done|]. intros [Hall Hs].
  destruct (k =? p); [done|]. simpl. split; [|by apply IH].
  rewrite Forall_forall in *. intros x Hx. apply Hall. by eapply elem_erase.
Qed.

Lemma find_erase p q m :
  sorted sd m ->
  find q (erase p m) = if decide (q = p) then None else find q m.
Proof.
  induction m as [|[k v] m IH]; simpl; intros Hs; [by case_decide|].
  destruct (Z.eqb_spec k p) as [->|Hne]; simpl.
  - case_decide as Hq; [subst|].
    + apply find_None_keys. by apply (sorted_head_notin p v m).
    + destruct (Z.eqb_spec p q); [congruence | done].
  - rewrite IH by apply Hs. case_decide as Hq; [subst|done].
    destruct (Z.eqb_spec k p); done.
Qed.

Lemma find_erase_if_empty p q m :
  sorted sd m ->
  find q (erase_if_empty p m) =
    if decide (q = p)
    then l ← find p m; if orders l is [] then None else Some l
    else find q m.
Proof.
  intros Hs. unfold erase_if_empty.
  destruct (find p m) as [l|] eqn:Hf; simpl.
  - destruct (orders l) eqn:Ho.
    + rewrite find_erase by done. by case_decide.
    + case_decide; by subst.
  - case_decide; by subst.
Qed.

Lemma sorted_erase_if_empty p m : sorted sd m -> sorted sd (erase_if_empty p m).
Proof.
  intros Hs. unfold erase_if_empty. destruct (find p m) as [l|]; [|done].
  destruct (orders l); [by apply sorted_erase | done].
Qed.

(** *** emplace *)

Lemma elem_emplace x p v m : x ∈ emplace sd p v m -> x = (p, v) \/ x ∈ m.
Proof.
  induction m as [|[k w] m IH]; simpl.
  - intros ->%list_elem_of_singleton. by left.
  - destruct (before sd p k).
    + intros [->|Hin]%elem_of_cons; [by left | by right].
    + destruct (before sd k p); [|by right].
      intros [->|Hin]%elem_of_cons; [right; left|].
      destruct (IH Hin) as [->|?]; [by left | right; by right].
Qed.

Lemma sorted_emplace p v m : sorted sd m -> sorted sd (emplace sd p v m).
Proof.
  induction m as [|[k w] m IH]; simpl; [by split|]. intros [Hall Hs].
  destruct (before sd p k) eqn:Hpk; simpl.
  - split; [|done]. constructor; [done|].
    rewrite Forall_forall in *. intros x Hx. eapply before_trans; [done|].
    by apply Hall.
  - destruct (before sd k p) eqn:Hkp; simpl; [|done].
    split; [|by apply IH].
    rewrite Forall_forall in *. intros x [->|Hx]%elem_emplace; [done|].
    by apply Hall.
Qed.

Lemma find_emplace p q v m :
  find p m = None ->
  find q (emplace sd p v m) = if decide (q = p) then Some v else find q m.
Proof.
  induction m as [|[k w] m IH]; simpl.
  - intros _. destruct (Z.eqb_spec p q); case_decide; congruence.
  - destruct (Z.eqb_spec k p) as [->|Hne]; [done|]. intros Hf.
    destruct (before sd p k) eqn:Hpk; simpl.
    + destruct (Z.eqb_spec p q); case_decide; congruence.
    + destruct (before sd k p) eqn:Hkp; simpl.
      * rewrite IH by done. destruct (Z.eqb_spec k q); [|done].
        case_decide; [congruence | done].
      * exfalso. apply Hne. by apply before_total.
Qed.

(** The head of a sorted side comes before every other key. *)
Lemma sorted_head_before k v m k' l' :
  sorted sd ((k, v) :: m) -> find k' m = Some l' -> before sd k k' = true.
Proof.
  intros [Hall _] Hf%find_Some_elem. rewrite Forall_forall in Hall.
  by apply (Hall _ Hf).
Qed.

End side_map.

(** ** Queues *)

Section queues.
Implicit Types (p q : nat) (l : list nat).

Lemma list_erase_head p l : list_erase p (p :: l) = l.
Proof. simpl. by rewrite Nat.eqb_refl. Qed.

Lemma elem_list_erase q p l : q ∈ list_erase p l -> q ∈ l.
Proof.
  induction l as [|x l IH]; simpl; [done|].
  destruct (x =? p)%nat; [by right|].
  intros [->|Hin]%elem_of_cons; [left | right; by apply IH].
Qed.

Lemma elem_list_erase_ne q p l : q <> p -> q ∈ l -> q ∈ list_erase p l.
Proof.
  intros Hne. induction l as [|x l IH]; simpl; [done|].
  destruct (Nat.eqb_spec x p) as [->|Hx].
  - by intros [->|Hin]%elem_of_cons.
  - intros [->|Hin]%elem_of_cons; [left | right; by apply IH].
Qed.

Lemma NoDup_list_erase p l : NoDup l -> NoDup (list_erase p l).
Proof.
  induction 1 as [|x l Hx Hnd IH]; simpl; [constructor|].
  destruct (x =? p)%nat; [done|].
  constructor; [|done]. intros Hin. apply Hx. by eapply elem_list_erase.
Qed.

Lemma notin_list_erase p l : NoDup l -> p ∉ list_erase p l.
Proof.
  induction 1 as [|x l Hx Hnd IH]; simpl; [apply not_elem_of_nil|].
  destruct (Nat.eqb_spec x p) as [->|Hne]; [done|].
  rewrite not_elem_of_cons. split; [congruence | done].
Qed.

Lemma list_erase_notin p l : p ∉ l -> list_erase p l = l.
Proof.
  induction l as [|x l IH]; simpl; [done|].
  rewrite not_elem_of_cons. intros [Hne Hnin].
  destruct (Nat.eqb_spec x p); [congruence|]. by rewrite IH.
Qed.

Lemma list_erase_snoc p l : p ∉ l -> list_erase p (l ++ [p]) = l.
Proof.
  induction l as [|x l IH]; simpl; [by rewrite Nat.eqb_refl|].
  rewrite not_elem_of_cons. intros [Hne Hnin].
  destruct (Nat.eqb_spec x p); [congruence|]. by rewrite IH.
Qed.

Lemma length_list_erase p l :
  p ∈ l -> S (length (list_erase p l)) = length l.
Proof.
  induction l as [|x l IH]; simpl.
  - by intros ?%elem_of_nil.
  - destruct (Nat.eqb_spec x p) as [->|Hne]; [done|].
    intros [->|Hin]%elem_of_cons; [done|]. simpl. by rewrite IH.
Qed.

End queues.

(** ** Sums of remaining quantities *)

Section sums.
Import Inv.
Implicit Types (cells : gmap nat Order) (p q : nat) (l : list nat).

Lemma sum_quantity_agree cells cells' l :
  (forall q, q ∈ l -> cells' !! q = cells !! q) ->
  sum_quantity cells' l = sum_quantity cells l.
Proof.
  induction l as [|x l IH]; simpl; [done|]. intros H.
  rewrite IH by (intros q Hq; apply H; by right).
  rewrite !lookup_total_alt, (H x) by left. done.
Qed.

Lemma sum_quantity_app cells l1 l2 :
  sum_quantity cells (l1 ++ l2) = sum_quantity cells l1 + sum_quantity cells l2.
Proof. induction l1 as [|x l1 IH]; simpl; [done|]. rewrite IH. lia. Qed.

Lemma sum_quantity_erase cells p l :
  p ∈ l ->
  sum_quantity cells l = quantity (cells !!! p) + sum_quantity cells (list_erase p l).
Proof.
  induction l as [|x l IH]; simpl.
  - by intros ?%elem_of_nil.
  - destruct (Nat.eqb_spec x p) as [->|Hne]; [done|].
    intros [->|Hin]%elem_of_cons; [done|]. simpl. rewrite IH by done. lia.
Qed.

(** Rewriting the record of one queued order. *)
Lemma sum_quantity_insert cells p o' l :
  NoDup l -> p ∈ l ->
  sum_quantity (<[p := o']> cells) l
  = sum_quantity cells l - quantity (cells !!! p) + quantity o'.
Proof.
  intros Hnd Hin.
  rewrite (sum_quantity_erase (<[p:=o']> cells) p l Hin).
  rewrite (sum_quantity_erase cells p l Hin).
  rewrite lookup_total_insert_eq.
  rewrite (sum_quantity_agree cells (<[p:=o']> cells) (list_erase p l)); [lia|].
  intros q Hq. apply lookup_insert_ne. intros ->.
  by apply (notin_list_erase q l).
Qed.

End sums.

(** ** Price levels under updates of the pool and of the side index *)

Section levels.
Import SideMap Inv.
Context (sd : bool).
Implicit Types (cells : gmap nat Order) (m : SideMap.t) (k : Z)
         (l : PriceLevelData) (p q : nat) (o : Order).

Lemma level_ok_agree cells cells' k l :
  level_ok cells sd k l ->
  (forall q, q ∈ orders l -> cells' !! q = cells !! q) ->
  level_ok cells' sd k l.
Proof.
  intros [Hne Hnd Htot Hc] Hag. split; [done | done | |].
  - by rewrite (sum_quantity_agree cells cells').
  - intros q Hq. rewrite Hag by done. by apply Hc.
Qed.

Lemma levels_ok_agree cells cells' m :
  levels_ok cells sd m ->
  (forall k l q, find k m = Some l -> q ∈ orders l -> cells' !! q = cells !! q) ->
  levels_ok cells' sd m.
Proof.
  intros [Hs Hl] Hag. split; [done|]. intros k l Hf.
  apply (level_ok_agree cells); [by apply Hl|].
  intros q Hq. by apply (Hag k l).
Qed.

(** A queued order is recorded under its own price, on its own side. *)
Lemma levels_ok_owner cells m k l q :
  levels_ok cells sd m -> find k m = Some l -> q ∈ orders l ->
  exists o, cells !! q = Some o /\ price o = k /\ is_buy o = sd.
Proof. intros [_ Hl] Hf Hq. by apply (level_cells _ _ _ _ (Hl k l Hf)). Qed.

(** An order of the opposite side is queued nowhere on this side. *)
Lemma levels_ok_other cells cells' m p o :
  levels_ok cells sd m ->
  cells !! p = Some o -> is_buy o <> sd ->
  (forall q, q <> p -> cells' !! q = cells !! q) ->
  levels_ok cells' sd m.
Proof.
  intros Hok Hp Hside Hag. apply (levels_ok_agree cells); [done|].
  intros k l q Hf Hq. apply Hag. intros ->.
  destruct (levels_ok_owner cells m k l p Hok Hf Hq) as (o' & Ho' & _ & Hb).
  congruence.
Qed.

(** A free slot is queued nowhere. *)
Lemma levels_ok_fresh cells cells' m p :
  levels_ok cells sd m ->
  cells !! p = None ->
  (forall q, q <> p -> cells' !! q = cells !! q) ->
  levels_ok cells' sd m.
Proof.
  intros Hok Hp Hag. apply (levels_ok_agree cells); [done|].
  intros k l q Hf Hq. apply Hag. intros ->.
  destruct (levels_ok_owner cells m k l p Hok Hf Hq) as (o' & Ho' & _).
  congruence.
Qed.

(** The quantity of a queued order changes and the total of its level
    is adjusted by the difference. *)
Lemma levels_ok_requantify cells m k l0 p o o' f :
  levels_ok cells sd m ->
  find k m = Some l0 -> p ∈ orders l0 ->
  cells !! p = Some o ->
  price o' = price o -> is_buy o' = is_buy o ->
  orders (f l0) = orders l0 ->
  total_quantity (f l0) = wrap64 (total_quantity l0 + quantity o' - quantity o) ->
  levels_ok (<[p := o']> cells) sd (modify k f m).
Proof.
  intros Hok Hf Hp Hc Hpr Hbuy Hord Htot.
  destruct (levels_ok_owner cells m k l0 p Hok Hf Hp) as (o1 & Ho1 & Hk & Hsd).
  assert (o1 = o) as -> by congruence.
  destruct Hok as [Hs Hl]. split; [by apply sorted_modify|].
  intros k' l'. rewrite find_modify. case_decide as Hk'; [subst k'|].
  - rewrite Hf. intros [= <-]. destruct (Hl _ _ Hf) as [Hne Hnd Ht Hcs].
    split; rewrite ?Hord; [done | done | |].
    + rewrite Htot, Ht, sum_quantity_insert by done.
      rewrite (lookup_total_correct _ _ _ Hc).
      rewrite <- Z.add_sub_assoc, wrap64_add_l. f_equal. lia.
    + intros q Hq. destruct (decide (q = p)) as [->|Hqp].
      * rewrite lookup_insert_eq. exists o'. split; [done|]. split; congruence.
      * rewrite lookup_insert_ne by done. by apply Hcs.
  - intros Hf'. apply (level_ok_agree cells); [by apply Hl|].
    intros q Hq. apply lookup_insert_ne. intros ->.
    destruct (level_cells _ _ _ _ (Hl _ _ Hf') _ Hq) as (o2 & Ho2 & Hk2 & _).
    congruence.
Qed.

(** A queued order is unlinked from its level and its slot is released. *)
Lemma levels_ok_remove cells m k l0 p f :
  levels_ok cells sd m ->
  find k m = Some l0 -> p ∈ orders l0 ->
  orders (f l0) = list_erase p (orders l0) ->
  total_quantity (f l0) = wrap64 (total_quantity l0 - quantity (cells !!! p)) ->
  levels_ok (delete p cells) sd (erase_if_empty k (modify k f m)).
Proof.
  intros Hok Hf Hp Hord Htot.
  destruct (levels_ok_owner cells m k l0 p Hok Hf Hp) as (o & Ho & Hk & Hsd).
  destruct Hok as [Hs Hl].
  assert (sorted sd (modify k f m)) as Hs' by by apply sorted_modify.
  split; [by apply sorted_erase_if_empty|].
  intros k' l'. rewrite (find_erase_if_empty sd) by done.
  destruct (decide (k' = k)) as [->|Hk'];
    [rewrite find_modify, decide_True by done
    |rewrite find_modify, decide_False by done].
  - rewrite Hf. simpl. destruct (orders (f l0)) eqn:Hfl; [done|].
    intros [= <-]. destruct (Hl _ _ Hf) as [Hne Hnd Ht Hcs].
    split; rewrite Hfl; [done|rewrite Hord..].
    + by apply NoDup_list_erase.
    + rewrite Htot, Ht, wrap64_sub_l.
      rewrite (sum_quantity_erase cells p (orders l0)) by done.
      rewrite (sum_quantity_agree cells (delete p cells)); [f_equal; lia|].
      intros q Hq. apply lookup_delete_ne. intros ->.
      by apply (notin_list_erase q (orders l0)).
    + intros q Hq. rewrite lookup_delete_ne.
      * apply Hcs. by eapply elem_list_erase.
      * intros ->. by apply (notin_list_erase q (orders l0)).
  - intros Hf'. apply (level_ok_agree cells); [by apply Hl|].
    intros q Hq. apply lookup_delete_ne. intros ->.
    destruct (level_cells _ _ _ _ (Hl _ _ Hf') _ Hq) as (o2 & Ho2 & Hk2 & _).
    congruence.
Qed.

Lemma sorted_find_or_emplace k m : sorted sd m -> sorted sd (find_or_emplace sd k m).
Proof.
  unfold find_or_emplace. destruct (find k m); [done|]. apply sorted_emplace.
Qed.

Lemma find_find_or_emplace k k' m :
  find k' (find_or_emplace sd k m) =
    if decide (k' = k)
    then Some (default (PriceLevelData_new k) (find k m))
    else find k' m.
Proof.
  unfold find_or_emplace. destruct (find k m) as [l|] eqn:Hf.
  - case_decide; by subst.
  - by rewrite find_emplace.
Qed.

(** A new order is appended to the queue of its price. *)
Lemma levels_ok_push cells m p o :
  levels_ok cells sd m ->
  cells !! p = None -> is_buy o = sd ->
  levels_ok (<[p := o]> cells) sd
    (modify (price o) (push_order p (quantity o)) (find_or_emplace sd (price o) m)).
Proof.
  intros [Hs Hl] Hp Hsd. split.
  { by apply sorted_modify, sorted_find_or_emplace. }
  intros k' l'. rewrite find_modify.
  destruct (decide (k' = price o)) as [->|Hk'];
    [rewrite find_find_or_emplace, decide_True by done
    |rewrite find_find_or_emplace, decide_False by done].
  - simpl. intros [= <-].
    set (l1 := default (PriceLevelData_new (price o)) (find (price o) m)).
    assert (NoDup (orders l1) /\
            total_quantity l1 = wrap64 (sum_quantity cells (orders l1)) /\
            forall q, q ∈ orders l1 ->
              exists o', cells !! q = Some o' /\ price o' = price o /\ is_buy o' = sd)
      as (Hnd & Ht & Hcs).
    { subst l1. destruct (find (price o) m) as [l|] eqn:Hf; simpl.
      - destruct (Hl _ _ Hf). done.
      - split; [constructor|]. split; [done|]. by intros q ?%elem_of_nil. }
    assert (p ∉ orders l1) as Hfresh.
    { intros Hin. destruct (Hcs _ Hin) as (o' & Ho' & _). congruence. }
    split; simpl.
    + by destruct (orders l1).
    + apply NoDup_app. split; [done|]. split; [|apply NoDup_singleton].
      intros q Hq ->%list_elem_of_singleton. done.
    + rewrite Ht, wrap64_add_l, sum_quantity_app. simpl.
      rewrite lookup_total_insert_eq.
      rewrite (sum_quantity_agree cells (<[p:=o]> cells)); [f_equal; lia|].
      intros q Hq. apply lookup_insert_ne. congruence.
    + intros q [Hq|Hq]%elem_of_app; [|apply list_elem_of_singleton in Hq as ->].
      * rewrite lookup_insert_ne by congruence. by apply Hcs.
      * rewrite lookup_insert_eq. by exists o.
  - intros Hf. apply (level_ok_agree cells); [by apply Hl|].
    intros q Hq. apply lookup_insert_ne. intros ->.
    destruct (level_cells _ _ _ _ (Hl _ _ Hf) _ Hq) as (o' & Ho' & _).
    congruence.
Qed.

End levels.

(** ** The memory pool *)

Section pool.
Import MemoryPool Inv.
Implicit Types (mp : MemoryPool.t) (p q : nat) (o : Order).

Lemma fold_left_push {A} (g : A -> nat) (xs : list A) (acc : list nat) :
  fold_left (fun fl i => g i :: fl) xs acc = reverse (g <$> xs) ++ acc.
Proof.
  revert acc. induction xs as [|x xs IH]; intros acc; simpl; [done|].
  rewrite IH, reverse_cons. by rewrite <- app_assoc.
Qed.

Lemma free_list_allocate_block mp :
  free_list_ (allocate_block mp) = new_block mp ++ free_list_ mp.
Proof. unfold allocate_block, new_block. cbv beta zeta. by rewrite <- fold_left_push. Qed.

Lemma elem_new_block mp p :
  p ∈ new_block mp
  <-> (block_count_ mp * BlockSize <= p < S (block_count_ mp) * BlockSize)%nat.
Proof.
  unfold new_block. rewrite elem_of_reverse, list_elem_of_fmap. split.
  - intros (i & -> & Hi%elem_of_seq). lia.
  - intros H. exists (p - block_count_ mp * BlockSize)%nat.
    split; [lia|]. apply elem_of_seq. lia.
Qed.

Lemma NoDup_new_block mp : NoDup (new_block mp).
Proof.
  unfold new_block. rewrite reverse_Permutation.
  apply NoDup_fmap_2; [|apply NoDup_seq]. intros x y. lia.
Qed.

Lemma pool_ok_allocate_block mp : pool_ok mp -> pool_ok (allocate_block mp).
Proof.
  intros [Hnd Hun Hfb Hcb].
  split; rewrite ?free_list_allocate_block;
    change (block_count_ (allocate_block mp)) with (S (block_count_ mp));
    change (cells (allocate_block mp)) with (cells mp).
  - apply NoDup_app. split; [apply NoDup_new_block|split; [|done]].
    intros p Hp%elem_new_block Hp'%Hfb. lia.
  - intros p [Hp%elem_new_block|Hp]%elem_of_app; [|by apply Hun].
    destruct (cells mp !! p) eqn:Hc; [|done].
    assert (p < block_count_ mp * BlockSize)%nat by (apply Hcb; eauto). lia.
  - intros p [Hp%elem_new_block|Hp%Hfb]%elem_of_app; lia.
  - intros p Hp%Hcb. lia.
Qed.

Lemma pool_ok_init : pool_ok init.
Proof.
  apply pool_ok_allocate_block. split; simpl.
  - constructor.
  - by intros p ?%elem_of_nil.
  - by intros p ?%elem_of_nil.
  - intros p [o Ho]. by rewrite lookup_empty in Ho.
Qed.

Lemma free_list_allocate_block_nonempty mp : free_list_ (allocate_block mp) <> [].
Proof.
  intros H.
  assert (length (free_list_ (allocate_block mp)) = 0%nat) as Hlen by by rewrite H.
  rewrite free_list_allocate_block in Hlen. unfold new_block in Hlen.
  rewrite length_app, length_reverse, length_fmap, length_seq in Hlen.
  assert (0 < BlockSize)%nat by (unfold BlockSize; lia). lia.
Qed.

(** [allocate] hands out a slot that holds no order. *)
Lemma allocate_spec mp p mp' :
  pool_ok mp -> allocate mp = (p, mp') ->
  cells mp !! p = None
  /\ cells mp' = <[p := Order_default]> (cells mp)
  /\ pool_ok mp'.
Proof.
  intros Hok. unfold allocate.
  set (mp1 := match free_list_ mp with [] => allocate_block mp | _ :: _ => mp end).
  assert (pool_ok mp1 /\ cells mp1 = cells mp /\ free_list_ mp1 <> []) as (Hok1 & Hc1 & Hne).
  { subst mp1. destruct (free_list_ mp) eqn:Hfl.
    - split; [by apply pool_ok_allocate_block|]. split; [done|].
      apply free_list_allocate_block_nonempty.
    - split; [done|]. split; [done|]. by rewrite Hfl. }
  clearbody mp1. destruct (free_list_ mp1) as [|e rest] eqn:Hfl; [done|].
  intros [= <- <-]. simpl. rewrite Hc1.
  destruct Hok1 as [Hnd Hun Hfb Hcb]. rewrite Hfl in *.
  apply NoDup_cons in Hnd as [He Hnd].
  assert (cells mp !! e = None) as Hnone.
  { rewrite <- Hc1. apply Hun. left. }
  split; [done|]. split; [done|]. split; simpl.
  - done.
  - intros q Hq. rewrite lookup_insert_ne by (intros ->; done).
    rewrite <- Hc1. apply Hun. by right.
  - intros q Hq. apply Hfb. by right.
  - intros q. rewrite lookup_insert. case_decide as Hq; [subst q|].
    + intros _. apply Hfb. left.
    + rewrite <- Hc1. apply Hcb.
Qed.

Lemma pool_ok_store mp p o :
  pool_ok mp -> is_Some (cells mp !! p) -> pool_ok (store p o mp).
Proof.
  intros [Hnd Hun Hfb Hcb] Hp. split; simpl; [done | | done |].
  - intros q Hq. rewrite lookup_insert_ne; [by apply Hun|].
    intros ->. rewrite (Hun _ Hq) in Hp. by destruct Hp.
  - intros q. rewrite lookup_insert. case_decide; [subst; intros _; by apply Hcb|apply Hcb].
Qed.

Lemma pool_ok_deallocate mp p :
  pool_ok mp -> is_Some (cells mp !! p) -> pool_ok (deallocate p mp).
Proof.
  intros [Hnd Hun Hfb Hcb] Hp. split; simpl.
  - constructor; [|done]. intros Hin. rewrite (Hun _ Hin) in Hp. by destruct Hp.
  - intros q [->|Hq]%elem_of_cons; [apply lookup_delete_eq|].
    rewrite lookup_delete_ne; [by apply Hun|].
    intros ->. rewrite (Hun _ Hq) in Hp. by destruct Hp.
  - intros q [->|Hq]%elem_of_cons; [by apply Hcb | by apply Hfb].
  - intros q. rewrite lookup_delete. case_decide; [by intros [? ?]|apply Hcb].
Qed.

End pool.

(** ** The locator *)

Section locator.
Import SideMap Inv.
Implicit Types (cells : gmap nat Order) (lk : gmap Z OrderLocation)
         (bids asks : SideMap.t).

(** Entries survive as long as the order they designate stays queued at
    its price and keeps its identifier. *)
Lemma lookup_ok_transfer (keep : nat -> Prop)
      bids asks cells lk bids' asks' cells' lk' :
  lookup_ok bids asks cells lk ->
  (forall (sd : bool) k l q,
      find k (if sd then bids else asks) = Some l -> q ∈ orders l -> keep q ->
      exists l', find k (if sd then bids' else asks') = Some l' /\ q ∈ orders l') ->
  (forall q o, cells !! q = Some o -> keep q ->
      exists o', cells' !! q = Some o' /\ order_id o' = order_id o) ->
  (forall id loc, lk' !! id = Some loc ->
      lk !! id = Some loc /\ keep (loc_order loc)) ->
  lookup_ok bids' asks' cells' lk'.
Proof.
  intros Hok Hside Hcells Hlk id loc Hl.
  destruct (Hlk _ _ Hl) as [Hl0 Hkeep].
  destruct (Hok _ _ Hl0) as (l & o & Hf & Hin & Hc & Hid).
  destruct (Hside _ _ _ _ Hf Hin Hkeep) as (l' & Hf' & Hin').
  destruct (Hcells _ _ Hc Hkeep) as (o' & Hc' & Hid').
  exists l', o'. split; [done|]. split; [done|]. split; [done|]. congruence.
Qed.

Lemma lookup_ok_insert bids asks cells lk id loc l o :
  lookup_ok bids asks cells lk ->
  find (loc_price loc) (if is_bid loc then bids else asks) = Some l ->
  loc_order loc ∈ orders l ->
  cells !! loc_order loc = Some o -> order_id o = id ->
  lookup_ok bids asks cells (<[id := loc]> lk).
Proof.
  intros Hok Hf Hin Hc Hid id' loc'. rewrite lookup_insert.
  case_decide as Heq; [|by apply Hok].
  intros [= <-]. subst id'. by exists l, o.
Qed.

End locator.

(** ** Building blocks of the public operations *)

Section book.
Import SideMap Inv.
Implicit Types (b : OrderBook) (sd : bool) (k : Z) (l : PriceLevelData)
         (p q : nat) (o : Order).

Local Abbreviation cells b := (MemoryPool.cells (order_pool_ b)).

Lemma side_true b : side true b = bids_ b.
Proof. done. Qed.

Lemma side_false b : side false b = asks_ b.
Proof. done. Qed.

Lemma inv_side sd b : book_inv b -> levels_ok (cells b) sd (side sd b).
Proof. intros Hb. destruct sd; apply Hb. Qed.

Lemma inv_lookup_side b id loc :
  book_inv b -> order_lookup_ b !! id = Some loc ->
  exists l o,
    find (loc_price loc) (side (is_bid loc) b) = Some l
    /\ loc_order loc ∈ orders l
    /\ cells b !! loc_order loc = Some o
    /\ order_id o = id /\ price o = loc_price loc /\ is_buy o = is_bid loc.
Proof.
  intros Hb Hl. destruct (inv_lookup b Hb _ _ Hl) as (l & o & Hf & Hin & Hc & Hid).
  exists l, o. repeat (split; [done|]).
  destruct (levels_ok_owner _ _ _ _ _ _ (inv_side (is_bid loc) b Hb) Hf Hin)
    as (o' & Ho' & Hp & Hs).
  split; congruence.
Qed.

Lemma book_inv_intro b :
  (forall sd, levels_ok (cells b) sd (side sd b)) ->
  pool_ok (order_pool_ b) ->
  lookup_ok (side true b) (side false b) (cells b) (order_lookup_ b) ->
  counter_ok (total_orders_added_ b) ->
  counter_ok (total_orders_cancelled_ b) ->
  counter_ok (total_orders_matched_ b) ->
  book_inv b.
Proof.
  intros Hs ? Hl ? ? ?.
  split; [apply (Hs true) | apply (Hs false) | done | exact Hl | done..].
Qed.

(** The quantity of a queued order is rewritten in place. *)
Lemma book_inv_requantify b b' sd k l0 p o (qn : Z) f :
  book_inv b ->
  find k (side sd b) = Some l0 -> p ∈ orders l0 -> cells b !! p = Some o ->
  orders (f l0) = orders l0 ->
  total_quantity (f l0) = wrap64 (total_quantity l0 + qn - quantity o) ->
  order_pool_ b' = MemoryPool.store p (set_quantity qn o) (order_pool_ b) ->
  side sd b' = modify k f (side sd b) ->
  side (negb sd) b' = side (negb sd) b ->
  order_lookup_ b' = order_lookup_ b ->
  counter_ok (total_orders_added_ b') ->
  counter_ok (total_orders_cancelled_ b') ->
  counter_ok (total_orders_matched_ b') ->
  book_inv b'.
Proof.
  intros Hb Hf Hp Hc Hord Htot Hpool Hsd Hnsd Hlk ? ? ?.
  destruct (levels_ok_owner _ _ _ _ _ _ (inv_side sd b Hb) Hf Hp)
    as (o1 & Ho1 & Hk & Hbuy).
  assert (o1 = o) as -> by congruence.
  apply book_inv_intro; try done; rewrite Hpool; simpl.
  - intros sd'. destruct (decide (sd' = sd)) as [->|Hne].
    + rewrite Hsd.
      apply (levels_ok_requantify sd _ _ _ l0 p o); simpl; [by apply inv_side|done..].
    + opposite_side sd' sd.
      rewrite Hnsd. apply (levels_ok_other _ (cells b) _ _ p o); try done.
      * by apply inv_side.
      * rewrite Hbuy. by destruct sd.
      * intros q Hq. by apply lookup_insert_ne.
  - by apply pool_ok_store; [apply Hb|].
  - rewrite Hlk. apply (lookup_ok_transfer (fun _ => True)
                          (bids_ b) (asks_ b) (cells b) (order_lookup_ b));
      [apply Hb | | | done].
    + intros sd' k' l q Hf' Hq _.
      change (if sd' then bids_ b' else asks_ b') with (side sd' b').
      change (if sd' then bids_ b else asks_ b) with (side sd' b) in Hf'.
      destruct (decide (sd' = sd)) as [->|Hne].
      * rewrite Hsd, find_modify. case_decide as Hk'; [subst k'|by eauto].
        rewrite Hf in *. simplify_eq. exists (f l). by rewrite Hord.
      * opposite_side sd' sd.
        rewrite Hnsd. eauto.
    + intros q o2 Hq _. rewrite lookup_insert. case_decide; [|by eauto].
      subst q. exists (set_quantity qn o). split; [done|]. simpl. congruence.
Qed.

(** A queued order leaves the book and its slot returns to the pool. *)
Lemma book_inv_remove b b' sd k l0 p o f :
  book_inv b ->
  find k (side sd b) = Some l0 -> p ∈ orders l0 -> cells b !! p = Some o ->
  orders (f l0) = list_erase p (orders l0) ->
  total_quantity (f l0) = wrap64 (total_quantity l0 - quantity o) ->
  order_pool_ b' = MemoryPool.deallocate p (order_pool_ b) ->
  side sd b' = erase_if_empty k (modify k f (side sd b)) ->
  side (negb sd) b' = side (negb sd) b ->
  order_lookup_ b' = delete (order_id o) (order_lookup_ b) ->
  counter_ok (total_orders_added_ b') ->
  counter_ok (total_orders_cancelled_ b') ->
  counter_ok (total_orders_matched_ b') ->
  book_inv b'.
Proof.
  intros Hb Hf Hp Hc Hord Htot Hpool Hsd Hnsd Hlk ? ? ?.
  destruct (levels_ok_owner _ _ _ _ _ _ (inv_side sd b Hb) Hf Hp)
    as (o1 & Ho1 & Hk & Hbuy).
  assert (o1 = o) as -> by congruence.
  assert (levels_ok (cells b) sd (side sd b)) as Hside by by apply inv_side.
  apply book_inv_intro; try done; rewrite Hpool; simpl.
  - intros sd'. destruct (decide (sd' = sd)) as [->|Hne].
    + rewrite Hsd. apply (levels_ok_remove sd _ _ _ l0 p); try done.
      by rewrite (lookup_total_correct _ _ _ Hc).
    + opposite_side sd' sd.
      rewrite Hnsd. apply (levels_ok_other _ (cells b) _ _ p o); try done.
      * by apply inv_side.
      * rewrite Hbuy. by destruct sd.
      * intros q Hq. by apply lookup_delete_ne.
  - apply pool_ok_deallocate; [apply Hb | by eauto].
  - rewrite Hlk. apply (lookup_ok_transfer (fun q => q <> p)
                          (bids_ b) (asks_ b) (cells b) (order_lookup_ b));
      [apply Hb | | | ].
    + intros sd' k' l q Hf' Hq Hqp.
      change (if sd' then bids_ b' else asks_ b') with (side sd' b').
      change (if sd' then bids_ b else asks_ b) with (side sd' b) in Hf'.
      destruct (decide (sd' = sd)) as [->|Hne].
      * rewrite Hsd, (find_erase_if_empty sd) by (apply sorted_modify, Hside).
        rewrite !find_modify.
        destruct (decide (k' = k)) as [->|Hk'];
          [rewrite decide_True by done|by eauto].
        rewrite Hf in *. simplify_eq. simpl.
        assert (q ∈ orders (f l)) as Hqf.
        { rewrite Hord. by apply elem_list_erase_ne. }
        destruct (orders (f l)) eqn:Hfl; [by apply elem_of_nil in Hqf|].
        exists (f l). by rewrite Hfl.
      * opposite_side sd' sd.
        rewrite Hnsd. eauto.
    + intros q o2 Hq Hqp. rewrite lookup_delete_ne by done. eauto.
    + intros id loc. rewrite lookup_delete. case_decide as Hid; [done|].
      intros Hl. split; [done|]. intros Heq.
      destruct (inv_lookup b Hb _ _ Hl) as (l & o2 & _ & _ & Hc2 & Hid2).
      rewrite Heq in Hc2. congruence.
Qed.

(** A new order is written to a fresh slot, appended to the queue of its
    price and registered in the locator. *)
Lemma book_inv_insert b b' p o pool1 :
  book_inv b ->
  cells b !! p = None ->
  MemoryPool.cells pool1 = <[p := Order_default]> (cells b) ->
  pool_ok pool1 ->
  order_pool_ b' = MemoryPool.store p o pool1 ->
  side (is_buy o) b' =
    modify (price o) (push_order p (quantity o))
      (find_or_emplace (is_buy o) (price o) (side (is_buy o) b)) ->
  side (negb (is_buy o)) b' = side (negb (is_buy o)) b ->
  order_lookup_ b' =
    <[order_id o := mkOrderLocation p (is_buy o) (price o)]> (order_lookup_ b) ->
  counter_ok (total_orders_added_ b') ->
  counter_ok (total_orders_cancelled_ b') ->
  counter_ok (total_orders_matched_ b') ->
  book_inv b'.
Proof.
  intros Hb Hfresh Hc1 Hpool1 Hpool Hsd Hnsd Hlk ? ? ?.
  assert (cells b' = <[p := o]> (cells b)) as Hcells.
  { rewrite Hpool. simpl. rewrite Hc1. apply insert_insert_eq. }
  assert (forall sd, levels_ok (cells b') sd (side sd b')) as Hlev.
  { intros sd'. rewrite Hcells. destruct (decide (sd' = is_buy o)) as [->|Hne].
    - rewrite Hsd. apply levels_ok_push; [by apply inv_side | done | done].
    - opposite_side sd' (is_buy o).
      rewrite Hnsd. apply (levels_ok_fresh _ (cells b) _ _ p); try done.
      + by apply inv_side.
      + intros q Hq. by apply lookup_insert_ne. }
  apply book_inv_intro; try done.
  - rewrite Hpool. apply pool_ok_store; [done|].
    rewrite Hc1, lookup_insert_eq. eauto.
  - rewrite Hlk.
    assert (exists l, find (price o) (side (is_buy o) b') = Some l /\ p ∈ orders l)
      as (l & Hfl & Hpl).
    { rewrite Hsd, find_modify, decide_True by done.
      rewrite find_find_or_emplace, decide_True by done. simpl.
      eexists. split; [done|]. simpl. apply elem_of_app. right. left. }
    apply (lookup_ok_insert _ _ _ _ _ _ l o); simpl; try done.
    + apply (lookup_ok_transfer (fun _ => True)
               (bids_ b) (asks_ b) (cells b) (order_lookup_ b));
        [apply Hb | | | done].
      * intros sd' k' l' q Hf' Hq _.
        change (if sd' then bids_ b' else asks_ b') with (side sd' b').
        change (if sd' then bids_ b else asks_ b) with (side sd' b) in Hf'.
        destruct (decide (sd' = is_buy o)) as [->|Hne].
        -- rewrite Hsd, find_modify.
           destruct (decide (k' = price o)) as [->|Hk'].
           2:{ rewrite find_find_or_emplace, decide_False by done. eauto. }
           rewrite find_find_or_emplace, decide_True by done.
           rewrite Hf'. simpl. eexists. split; [done|]. simpl.
           apply elem_of_app. by left.
        -- opposite_side sd' (is_buy o).
           rewrite Hnsd. eauto.
      * intros q o2 Hq _. rewrite Hcells, lookup_insert_ne by congruence. eauto.
    + by rewrite Hcells, lookup_insert_eq.
Qed.

End book.

(** ** remove_order_from_book and cancel_order *)

Section cancel.
Import SideMap Inv.
Implicit Types (b : OrderBook) (sd : bool) (k : Z) (l : PriceLevelData)
         (p q : nat) (o : Order).

Local Abbreviation cells b := (MemoryPool.cells (order_pool_ b)).

Lemma side_set_side sd sd' m b :
  side sd' (set_side sd m b) = if decide (sd' = sd) then m else side sd' b.
Proof. by destruct sd, sd'. Qed.

Lemma deref_cells b p o : cells b !! p = Some o -> deref b p = o.
Proof. intros H. by apply lookup_total_correct. Qed.

Lemma counter_ok_wrap64 z : counter_ok (wrap64 z).
Proof. apply wrap64_range. Qed.

Lemma remove_order_from_book_fields loc b l :
  find (loc_price loc) (side (is_bid loc) b) = Some l ->
  let b' := remove_order_from_book loc b in
  side (is_bid loc) b' =
    erase_if_empty (loc_price loc)
      (modify (loc_price loc)
         (unlink_order (loc_order loc) (quantity (deref b (loc_order loc))))
         (side (is_bid loc) b))
  /\ side (negb (is_bid loc)) b' = side (negb (is_bid loc)) b
  /\ order_pool_ b' = MemoryPool.deallocate (loc_order loc) (order_pool_ b)
  /\ order_lookup_ b' = order_lookup_ b
  /\ total_orders_added_ b' = total_orders_added_ b
  /\ total_orders_cancelled_ b' = total_orders_cancelled_ b
  /\ total_orders_matched_ b' = total_orders_matched_ b.
Proof.
  intros Hf. unfold remove_order_from_book. rewrite Hf.
  by destruct (is_bid loc).
Qed.

Lemma cancel_order_fields id loc b l :
  order_lookup_ b !! id = Some loc ->
  find (loc_price loc) (side (is_bid loc) b) = Some l ->
  exists b', cancel_order id b = (true, b')
  /\ side (is_bid loc) b' =
    erase_if_empty (loc_price loc)
      (modify (loc_price loc)
         (unlink_order (loc_order loc) (quantity (deref b (loc_order loc))))
         (side (is_bid loc) b))
  /\ side (negb (is_bid loc)) b' = side (negb (is_bid loc)) b
  /\ order_pool_ b' = MemoryPool.deallocate (loc_order loc) (order_pool_ b)
  /\ order_lookup_ b' = delete id (order_lookup_ b)
  /\ total_orders_added_ b' = total_orders_added_ b
  /\ total_orders_cancelled_ b' = wrap64 (total_orders_cancelled_ b + 1)
  /\ total_orders_matched_ b' = total_orders_matched_ b.
Proof.
  intros Hl Hf. unfold cancel_order. rewrite Hl.
  destruct (remove_order_from_book_fields loc b l Hf)
    as (H1 & H2 & H3 & H4 & H5 & H6 & H7).
  eexists. split; [done|]. simpl.
  rewrite H4, H5, H6, H7. repeat split; done.
Qed.

Lemma cancel_order_inv id b : book_inv b -> book_inv (cancel_order id b).2.
Proof.
  intros Hb. destruct (order_lookup_ b !! id) as [loc|] eqn:Hl.
  2:{ unfold cancel_order. by rewrite Hl. }
  destruct (inv_lookup_side b id loc Hb Hl) as (l & o & Hf & Hin & Hc & Hid & Hp & Hs).
  destruct (cancel_order_fields id loc b l Hl Hf)
    as (b' & -> & H1 & H2 & H3 & H4 & H5 & H6 & H7). simpl.
  apply (book_inv_remove b b' (is_bid loc) (loc_price loc) l (loc_order loc) o
           (unlink_order (loc_order loc) (quantity (deref b (loc_order loc)))));
    try done.
  - simpl. by rewrite (deref_cells b _ o).
  - by rewrite Hid.
  - rewrite H5. apply Hb.
  - rewrite H6. apply counter_ok_wrap64.
  - rewrite H7. apply Hb.
Qed.

End cancel.

(** ** The crossing loop, one iteration *)

Section crossing.
Import SideMap Inv.
Implicit Types (b : OrderBook) (sd : bool) (k : Z) (l : PriceLevelData)
         (p q : nat) (o : Order).

Local Abbreviation cells b := (MemoryPool.cells (order_pool_ b)).

Lemma fill_inv sd k l p o t b :
  book_inv b ->
  find k (side sd b) = Some l -> p ∈ orders l -> cells b !! p = Some o ->
  book_inv (fill sd k p t b).
Proof.
  intros Hb Hf Hp Hc.
  apply (book_inv_requantify b _ sd k l p o (wrap64 (quantity o - t)) (sub_total t));
    try done.
  - simpl. rewrite (level_total _ _ _ _ (proj2 (inv_side sd b Hb) _ _ Hf)).
    rewrite wrap64_sub_l, <- Z.add_sub_assoc, wrap64_add_l.
    set (s := sum_quantity _ _).
    replace (s + (wrap64 (quantity o - t) - quantity o))
      with (s - quantity o + wrap64 (quantity o - t)) by lia.
    rewrite wrap64_add_r. f_equal. lia.
  - unfold fill, store_quantity. rewrite (deref_cells b p o Hc). by destruct sd.
  - unfold fill. by destruct sd.
  - unfold fill. by destruct sd.
  - unfold fill. by destruct sd.
  - unfold fill. destruct sd; apply Hb.
  - unfold fill. destruct sd; apply Hb.
  - unfold fill. destruct sd; apply Hb.
Qed.

Lemma remove_filled_fields sd k p b :
  let b' := remove_filled sd k p b in
  side sd b' = erase_if_empty k (modify k pop_front (side sd b))
  /\ side (negb sd) b' = side (negb sd) b
  /\ order_pool_ b' = MemoryPool.deallocate p (order_pool_ b)
  /\ order_lookup_ b' = delete (order_id (deref b p)) (order_lookup_ b)
  /\ total_orders_added_ b' = total_orders_added_ b
  /\ total_orders_cancelled_ b' = total_orders_cancelled_ b
  /\ total_orders_matched_ b' = total_orders_matched_ b.
Proof. by destruct sd. Qed.

Lemma remove_filled_inv sd k l p rest o b :
  book_inv b ->
  find k (side sd b) = Some l -> orders l = p :: rest ->
  cells b !! p = Some o -> quantity o = 0 ->
  book_inv (remove_filled sd k p b).
Proof.
  intros Hb Hf Hl Hc Hq.
  destruct (remove_filled_fields sd k p b) as (H1 & H2 & H3 & H4 & H5 & H6 & H7).
  apply (book_inv_remove b _ sd k l p o pop_front); try done.
  - rewrite Hl. left.
  - simpl. by rewrite Hl, list_erase_head.
  - simpl. rewrite Hq, Z.sub_0_r.
    rewrite (level_total _ _ _ _ (proj2 (inv_side sd b Hb) _ _ Hf)).
    by rewrite wrap64_idemp.
  - by rewrite H4, (deref_cells b p o Hc).
  - rewrite H5. apply Hb.
  - rewrite H6. apply Hb.
  - rewrite H7. apply Hb.
Qed.

Lemma set_matched_inv n b : book_inv b -> counter_ok n -> book_inv (set_matched n b).
Proof. intros [] ?. by split. Qed.

End crossing.

Section crossing_step.
Import SideMap Inv.
Implicit Types (b : OrderBook) (sd : bool) (k : Z) (l : PriceLevelData)
         (p q : nat) (o : Order).

Local Abbreviation cells b := (MemoryPool.cells (order_pool_ b)).

(** The head of a side is the level found under its key. *)
Lemma side_head_find sd b k l rest :
  side sd b = (k, l) :: rest -> find k (side sd b) = Some l.
Proof. intros ->. simpl. by rewrite Z.eqb_refl. Qed.

(** The head order of the best level of a side. *)
Lemma side_head_order sd b k l rest :
  book_inv b -> side sd b = (k, l) :: rest ->
  exists p ps o,
    orders l = p :: ps /\ cells b !! p = Some o
    /\ price o = k /\ is_buy o = sd.
Proof.
  intros Hb Hs. pose proof (side_head_find sd b k l rest Hs) as Hf.
  destruct (proj2 (inv_side sd b Hb) _ _ Hf) as [Hne _ _ Hc].
  destruct (orders l) as [|p ps] eqn:Ho; [done|].
  destruct (Hc p) as (o & Hco & Hp & Hsd); [left|]. by exists p, ps, o.
Qed.

Lemma match_step_unfold b kb lb bt ka la at' pb qb pa qa ob oa :
  bids_ b = (kb, lb) :: bt -> asks_ b = (ka, la) :: at' ->
  orders lb = pb :: qb -> orders la = pa :: qa ->
  cells b !! pb = Some ob -> cells b !! pa = Some oa -> pb <> pa ->
  match_step b =
    if kb <? ka then None
    else Some (after_match b kb pb ob ka pa oa,
               mkTradeEvent (order_id ob) (order_id oa)
                 (Z.min (quantity ob) (quantity oa)) (price oa)).
Proof.
  intros Hbids Hasks Hlb Hla Hcb Hca Hne.
  unfold match_step. rewrite Hbids, Hasks, Hlb, Hla.
  destruct (kb <? ka); [done|].
  unfold execute_trade. cbv zeta.
  assert (deref b pb = ob) as Hdb by by apply deref_cells.
  assert (deref b pa = oa) as Hda by by apply deref_cells.
  rewrite Hdb, Hda.
  set (t := Z.min (quantity ob) (quantity oa)).
  set (b1 := set_matched (wrap64 (total_orders_matched_ b + 1)) b).
  assert (deref b1 pb = ob) as -> by done.
  set (b2 := store_quantity pb (wrap64 (quantity ob - t)) b1).
  assert (deref b2 pa = oa) as Hd2.
  { unfold deref, MemoryPool.deref, b2. simpl.
    rewrite lookup_total_insert_ne by done. apply Hda. }
  rewrite Hd2.
  set (b3 := store_quantity pa (wrap64 (quantity oa - t)) b2).
  set (b5 := set_side false _ (set_side true _ b3)).
  assert (b5 = fill false ka pa t (fill true kb pb t b1)) as Hb5.
  { unfold b5, b3, b2, fill, store_quantity. simpl.
    unfold deref, MemoryPool.deref. simpl.
    rewrite !lookup_total_insert_ne by done.
    by rewrite !(lookup_total_correct _ _ _ Hca), !(lookup_total_correct _ _ _ Hcb). }
  assert (quantity (deref b5 pb) = wrap64 (quantity ob - t)) as Hq5.
  { unfold deref, MemoryPool.deref, b5, b3, b2. simpl.
    rewrite lookup_total_insert_ne by done.
    by rewrite lookup_total_insert_eq. }
  rewrite Hq5.
  set (b6 := if wrap64 (quantity ob - t) =? 0 then _ else b5).
  assert (quantity (deref b6 pa) = wrap64 (quantity oa - t)) as Hq6.
  { unfold b6. destruct (wrap64 (quantity ob - t) =? 0).
    - unfold deref, MemoryPool.deref, remove_filled, b5, b3, b2. simpl.
      rewrite lookup_total_delete_ne by done.
      by rewrite lookup_total_insert_eq.
    - unfold deref, MemoryPool.deref, b5, b3, b2. simpl.
      by rewrite lookup_total_insert_eq. }
  rewrite Hq6. unfold after_match. fold t. fold b1. rewrite <- Hb5. done.
Qed.

Lemma match_step_inv b b' t : book_inv b -> match_step b = Some (b', t) -> book_inv b'.
Proof.
  intros Hb. destruct (bids_ b) as [|[kb lb] bt] eqn:Hbids.
  { unfold match_step. by rewrite Hbids. }
  destruct (asks_ b) as [|[ka la] at'] eqn:Hasks.
  { unfold match_step. by rewrite Hbids, Hasks. }
  destruct (side_head_order true b kb lb bt Hb Hbids)
    as (pb & qb & ob & Hlb & Hcb & Hpb & Hsb).
  destruct (side_head_order false b ka la at' Hb Hasks)
    as (pa & qa & oa & Hla & Hca & Hpa & Hsa).
  assert (pb <> pa) as Hne by (intros ->; congruence).
  rewrite (match_step_unfold b kb lb bt ka la at' pb qb pa qa ob oa) by done.
  destruct (kb <? ka); [done|]. intros [= <- _]. unfold after_match.
  set (tq := Z.min (quantity ob) (quantity oa)).
  set (b1 := set_matched _ b).
  assert (book_inv b1) as Hb1 by (apply set_matched_inv, counter_ok_wrap64; done).
  set (b2 := fill true kb pb tq b1).
  assert (book_inv b2) as Hb2.
  { apply (fill_inv true kb lb pb ob); try done.
    - by apply (side_head_find true b kb lb bt).
    - rewrite Hlb. left. }
  assert (cells b2 !! pa = Some oa) as Hca2.
  { unfold b2, fill, store_quantity. simpl. by rewrite lookup_insert_ne. }
  assert (cells b2 !! pb = Some (set_quantity (wrap64 (quantity ob - tq)) ob)) as Hcb2.
  { unfold b2, fill, store_quantity, deref, MemoryPool.deref. simpl.
    by rewrite lookup_insert_eq, (lookup_total_correct _ _ _ Hcb). }
  set (b5 := fill false ka pa tq b2).
  assert (book_inv b5) as Hb5.
  { apply (fill_inv false ka la pa oa); try done.
    - apply (side_head_find false b2 ka la at'). unfold b2, fill. simpl. done.
    - rewrite Hla. left. }
  assert (cells b5 !! pb = Some (set_quantity (wrap64 (quantity ob - tq)) ob)) as Hcb5.
  { unfold b5, fill, store_quantity. simpl. by rewrite lookup_insert_ne. }
  assert (cells b5 !! pa = Some (set_quantity (wrap64 (quantity oa - tq)) oa)) as Hca5.
  { unfold b5, fill, store_quantity, deref, MemoryPool.deref. simpl.
    by rewrite lookup_insert_eq, (lookup_total_correct _ _ _ Hca2). }
  set (b6 := if wrap64 (quantity ob - tq) =? 0 then _ else b5).
  assert (book_inv b6 /\ asks_ b6 = (ka, sub_total tq la) :: at' /\
          cells b6 !! pa = Some (set_quantity (wrap64 (quantity oa - tq)) oa))
    as (Hb6 & Hasks6 & Hca6).
  { assert (asks_ b5 = (ka, sub_total tq la) :: at') as Hasks5.
    { unfold b5, b2, fill. simpl. rewrite Hasks. simpl. by rewrite Z.eqb_refl. }
    unfold b6. destruct (Z.eqb_spec (wrap64 (quantity ob - tq)) 0) as [Hz|Hnz].
    - split; [|split].
      + apply (remove_filled_inv true kb (sub_total tq lb) pb qb
                 (set_quantity (wrap64 (quantity ob - tq)) ob)); try done.
        unfold b5, b2, fill. simpl. rewrite Hbids. simpl. rewrite Z.eqb_refl.
        simpl. by rewrite Z.eqb_refl.
      + done.
      + unfold remove_filled. simpl. by rewrite lookup_delete_ne.
    - done. }
  destruct (Z.eqb_spec (wrap64 (quantity oa - tq)) 0) as [Hz|Hnz]; [|done].
  apply (remove_filled_inv false ka (sub_total tq la) pa qa
           (set_quantity (wrap64 (quantity oa - tq)) oa)); try done.
  by apply (side_head_find false b6 ka _ at').
Qed.

End crossing_step.

Section crossing_shape.
Import SideMap Inv.
Implicit Types (b : OrderBook) (sd : bool) (k : Z) (l : PriceLevelData)
         (p q : nat) (o : Order).

Local Abbreviation cells b := (MemoryPool.cells (order_pool_ b)).

Lemma after_match_bids b kb lb bt pb ob ka pa oa :
  bids_ b = (kb, lb) :: bt ->
  bids_ (after_match b kb pb ob ka pa oa) =
    after_fill kb lb bt (Z.min (quantity ob) (quantity oa))
      (wrap64 (quantity ob - Z.min (quantity ob) (quantity oa))).
Proof.
  intros Hbids. unfold after_match, after_fill.
  set (t := Z.min _ _).
  set (b5 := fill false ka pa t _).
  assert (bids_ b5 = (kb, sub_total t lb) :: bt) as H5.
  { unfold b5, fill. simpl. rewrite Hbids. simpl. by rewrite Z.eqb_refl. }
  clearbody b5.
  set (b6 := if wrap64 (quantity ob - t) =? 0 then _ else b5).
  set (rhs := if wrap64 (quantity ob - t) =? 0 then _ else _).
  assert (bids_ b6 = rhs) as H6.
  { unfold b6, rhs. destruct (wrap64 (quantity ob - t) =? 0); [|done].
    unfold remove_filled; simpl; rewrite H5; simpl; rewrite Z.eqb_refl.
    unfold erase_if_empty; simpl; rewrite Z.eqb_refl.
    unfold pop_front; simpl; destruct (tail (orders lb)); simpl;
      by rewrite ?Z.eqb_refl. }
  clearbody b6. by destruct (wrap64 (quantity oa - t) =? 0).
Qed.

Lemma after_match_asks b kb pb ob ka la at' pa oa :
  asks_ b = (ka, la) :: at' ->
  asks_ (after_match b kb pb ob ka pa oa) =
    after_fill ka la at' (Z.min (quantity ob) (quantity oa))
      (wrap64 (quantity oa - Z.min (quantity ob) (quantity oa))).
Proof.
  intros Hasks. unfold after_match, after_fill.
  set (t := Z.min _ _).
  set (b5 := fill false ka pa t _).
  assert (asks_ b5 = (ka, sub_total t la) :: at') as H5.
  { unfold b5, fill. simpl. rewrite Hasks. simpl. by rewrite Z.eqb_refl. }
  set (b6 := if wrap64 (quantity ob - t) =? 0 then _ else b5).
  assert (asks_ b6 = (ka, sub_total t la) :: at') as H6.
  { unfold b6. by destruct (wrap64 (quantity ob - t) =? 0). }
  clearbody b6. destruct (wrap64 (quantity oa - t) =? 0); [|done].
  unfold remove_filled; simpl; rewrite H6; simpl; rewrite Z.eqb_refl.
  unfold erase_if_empty; simpl; rewrite Z.eqb_refl.
  unfold pop_front; simpl; destruct (tail (orders la)); simpl;
    by rewrite ?Z.eqb_refl.
Qed.

(** The queue of a side after a fill of its head order. *)
Lemma side_orders_after_fill k l rest t r :
  side_orders (after_fill k l rest t r) =
    if r =? 0 then tail (orders l) ++ side_orders rest
    else orders l ++ side_orders rest.
Proof.
  unfold after_fill, side_orders. destruct (r =? 0); [|done].
  by destruct (tail (orders l)).
Qed.

Lemma keys_after_fill k l rest t r :
  keys (after_fill k l rest t r) = k :: keys rest
  \/ keys (after_fill k l rest t r) = keys rest.
Proof.
  unfold after_fill. destruct (r =? 0); [|by left].
  destruct (tail (orders l)); [by right | by left].
Qed.

(** One of the two head orders is always filled completely. *)
Lemma min_fills_one x y :
  wrap64 (x - Z.min x y) = 0 \/ wrap64 (y - Z.min x y) = 0.
Proof.
  destruct (Z.le_ge_cases x y).
  - left. by rewrite Z.min_l, Z.sub_diag.
  - right. by rewrite Z.min_r, Z.sub_diag.
Qed.

(** Pool slots after an iteration: only quantities change, and only
    the records of filled orders disappear. *)
Lemma after_match_cells b kb pb ob ka pa oa q o' :
  cells b !! pb = Some ob -> cells b !! pa = Some oa ->
  cells (after_match b kb pb ob ka pa oa) !! q = Some o' ->
  exists o, cells b !! q = Some o /\ o' = set_quantity (quantity o') o.
Proof.
  intros Hcb Hca. unfold after_match. set (t := Z.min _ _).
  set (b5 := fill false ka pa t _).
  assert (forall q o', cells b5 !! q = Some o' ->
            exists o, cells b !! q = Some o /\ o' = set_quantity (quantity o') o) as H5.
  { intros q0 o0. unfold b5, fill, store_quantity, deref, MemoryPool.deref. simpl.
    rewrite !lookup_insert.
    destruct (decide (pa = q0)) as [<-|Hqa].
    - intros [= <-]. destruct (decide (pb = pa)) as [->|Hne].
      + rewrite lookup_total_insert_eq. simpl. exists ob. split; [done|].
        by rewrite (lookup_total_correct _ _ _ Hcb).
      + rewrite lookup_total_insert_ne by done. exists oa. split; [done|].
        by rewrite (lookup_total_correct _ _ _ Hca).
    - destruct (decide (pb = q0)) as [<-|Hqb].
      + intros [= <-]. exists ob. split; [done|].
        by rewrite (lookup_total_correct _ _ _ Hcb).
      + intros Hq. exists o0. split; [done|]. by destruct o0. }
  set (b6 := if wrap64 (quantity ob - t) =? 0 then _ else b5).
  assert (forall q o', cells b6 !! q = Some o' -> cells b5 !! q = Some o') as H6.
  { intros q0 o0. unfold b6. destruct (wrap64 (quantity ob - t) =? 0); [|done].
    unfold remove_filled. simpl. rewrite lookup_delete. by case_decide. }
  intros Hq. apply H5, H6. revert Hq.
  destruct (wrap64 (quantity oa - t) =? 0); [|done].
  unfold remove_filled. simpl. rewrite lookup_delete. by case_decide.
Qed.

End crossing_shape.

Section crossing_loop.
Import SideMap Inv.
Implicit Types (b : OrderBook) (sd : bool) (k : Z) (l : PriceLevelData)
         (p q : nat) (o : Order).

Local Abbreviation cells b := (MemoryPool.cells (order_pool_ b)).

(** Inversion of one iteration on a well-formed book. *)
Lemma match_step_Some b b' t :
  book_inv b -> match_step b = Some (b', t) ->
  exists kb lb bt ka la at' pb qb pa qa ob oa,
    bids_ b = (kb, lb) :: bt /\ asks_ b = (ka, la) :: at'
    /\ orders lb = pb :: qb /\ orders la = pa :: qa
    /\ cells b !! pb = Some ob /\ cells b !! pa = Some oa
    /\ price ob = kb /\ is_buy ob = true
    /\ price oa = ka /\ is_buy oa = false
    /\ ka <= kb
    /\ b' = after_match b kb pb ob ka pa oa
    /\ t = mkTradeEvent (order_id ob) (order_id oa)
             (Z.min (quantity ob) (quantity oa)) (price oa).
Proof.
  intros Hb. destruct (bids_ b) as [|[kb lb] bt] eqn:Hbids.
  { unfold match_step. by rewrite Hbids. }
  destruct (asks_ b) as [|[ka la] at'] eqn:Hasks.
  { unfold match_step. by rewrite Hbids, Hasks. }
  destruct (side_head_order true b kb lb bt Hb Hbids)
    as (pb & qb & ob & Hlb & Hcb & Hpb & Hsb).
  destruct (side_head_order false b ka la at' Hb Hasks)
    as (pa & qa & oa & Hla & Hca & Hpa & Hsa).
  assert (pb <> pa) as Hne by (intros ->; congruence).
  rewrite (match_step_unfold b kb lb bt ka la at' pb qb pa qa ob oa) by done.
  destruct (Z.ltb_spec kb ka); [done|]. intros [= <- <-].
  exists kb, lb, bt, ka, la, at', pb, qb, pa, qa, ob, oa.
  repeat (split; [done|]). done.
Qed.

(** The loop exits exactly on the books that are not crossed. *)
Lemma match_step_None b : book_inv b -> (match_step b = None <-> uncrossed b).
Proof.
  intros Hb. unfold uncrossed, get_best_bid, get_best_ask.
  destruct (bids_ b) as [|[kb lb] bt] eqn:Hbids.
  { unfold match_step. rewrite Hbids. simpl. split; [by intros | done]. }
  destruct (asks_ b) as [|[ka la] at'] eqn:Hasks.
  { unfold match_step. rewrite Hbids, Hasks. simpl. split; [by intros | done]. }
  destruct (side_head_order true b kb lb bt Hb Hbids)
    as (pb & qb & ob & Hlb & Hcb & Hpb & Hsb).
  destruct (side_head_order false b ka la at' Hb Hasks)
    as (pa & qa & oa & Hla & Hca & Hpa & Hsa).
  assert (pb <> pa) as Hne by (intros ->; congruence).
  rewrite (match_step_unfold b kb lb bt ka la at' pb qb pa qa ob oa) by done.
  simpl. destruct (Z.ltb_spec kb ka).
  - split; [|done]. intros _ ? ? ? ? [= <- <-] [= <- <-]. done.
  - split; [done|]. intros H'. specialize (H' _ _ _ _ eq_refl eq_refl). lia.
Qed.

(** Every iteration takes at least one order out of the book. *)
Lemma match_step_live b b' t :
  book_inv b -> match_step b = Some (b', t) ->
  (live_orders b' < live_orders b)%nat.
Proof.
  intros Hb Hstep.
  destruct (match_step_Some b b' t Hb Hstep)
    as (kb & lb & bt & ka & la & at' & pb & qb & pa & qa & ob & oa &
        Hbids & Hasks & Hlb & Hla & Hcb & Hca & _ & _ & _ & _ & _ & -> & _).
  unfold live_orders.
  rewrite (after_match_bids b kb lb bt pb ob ka pa oa Hbids).
  rewrite (after_match_asks b kb pb ob ka la at' pa oa Hasks).
  rewrite !side_orders_after_fill, Hbids, Hasks. unfold side_orders.
  simpl. rewrite Hlb, Hla. simpl.
  destruct (min_fills_one (quantity ob) (quantity oa)) as [Hz|Hz]; rewrite Hz; simpl.
  - destruct (_ =? 0); simpl; rewrite ?length_app; simpl; lia.
  - destruct (_ =? 0); simpl; rewrite ?length_app; simpl; lia.
Qed.

Lemma match_loop_inv fuel b : book_inv b -> book_inv (match_loop fuel b).1.
Proof.
  revert b. induction fuel as [|fuel IH]; intros b Hb; simpl; [done|].
  destruct (match_step b) as [[b' t]|] eqn:Hstep; [|done].
  specialize (IH b' (match_step_inv b b' t Hb Hstep)).
  by destruct (match_loop fuel b').
Qed.

(** With as much fuel as there are queued orders the loop runs to its
    exit condition. *)
Lemma match_loop_exit fuel b :
  book_inv b -> (live_orders b <= fuel)%nat ->
  match_step (match_loop fuel b).1 = None.
Proof.
  revert b. induction fuel as [|fuel IH]; intros b Hb Hfuel; simpl.
  - destruct (match_step b) as [[b' t]|] eqn:Hstep; [|done].
    pose proof (match_step_live b b' t Hb Hstep). lia.
  - destruct (match_step b) as [[b' t]|] eqn:Hstep; [|done].
    pose proof (match_step_live b b' t Hb Hstep).
    specialize (IH b' (match_step_inv b b' t Hb Hstep)).
    destruct (match_loop fuel b'). simpl in *. apply IH. lia.
Qed.

Lemma match_orders_inv b :
  book_inv b -> book_inv (match_orders b).1 /\ uncrossed (match_orders b).1.
Proof.
  intros Hb. unfold match_orders.
  pose proof (match_loop_inv (live_orders b) b Hb) as Hinv.
  split; [done|]. apply match_step_None; [done|]. by apply match_loop_exit.
Qed.

(** On a book that is not crossed the loop does nothing. *)
Lemma match_orders_uncrossed b :
  book_inv b -> uncrossed b -> match_orders b = (b, []).
Proof.
  intros Hb Hu. apply (match_step_None b Hb) in Hu.
  unfold match_orders. destruct (live_orders b); simpl; [done|]. by rewrite Hu.
Qed.

End crossing_loop.

(** ** Crossed and uncrossed books *)

Section uncrossed.
Import SideMap Inv.
Implicit Types (b : OrderBook) (sd : bool) (k : Z) (l : PriceLevelData)
         (m : SideMap.t).

Lemma sorted_head_best sd k v m k' :
  sorted sd ((k, v) :: m) -> k' ∈ keys ((k, v) :: m) ->
  k' = k \/ before sd k k' = true.
Proof.
  intros [Hall _] [->|Hin]%elem_of_cons; [by left|]. right.
  apply list_elem_of_fmap in Hin as [[k1 v1] [-> Hin]].
  rewrite Forall_forall in Hall. by apply (Hall _ Hin).
Qed.

Lemma uncrossed_all b :
  sorted true (bids_ b) -> sorted false (asks_ b) ->
  uncrossed b <-> all_uncrossed (bids_ b) (asks_ b).
Proof.
  intros Hsb Hsa. unfold uncrossed, all_uncrossed, get_best_bid, get_best_ask.
  destruct (bids_ b) as [|[kb lb] bt]; simpl.
  { split; [|done]. by intros _ ? ? ?%elem_of_nil. }
  destruct (asks_ b) as [|[ka la] at']; simpl.
  { split; [|done]. by intros _ ? ? _ ?%elem_of_nil. }
  split.
  - intros H kb' ka' Hb' Ha'. specialize (H _ _ _ _ eq_refl eq_refl).
    destruct (sorted_head_best true kb lb bt kb' Hsb Hb') as [->|Hlt1];
      destruct (sorted_head_best false ka la at' ka' Hsa Ha') as [->|Hlt2];
      unfold before in *; lia.
  - intros H ? ? ? ? [= <- <-] [= <- <-]. apply H; left.
Qed.

Lemma keys_erase_subset k k' m : k' ∈ keys (erase k m) -> k' ∈ keys m.
Proof.
  intros [[k1 v1] [-> Hin]]%list_elem_of_fmap.
  apply list_elem_of_fmap. exists (k1, v1). split; [done|]. by eapply elem_erase.
Qed.

Lemma keys_erase_if_empty_subset k k' m :
  k' ∈ keys (erase_if_empty k m) -> k' ∈ keys m.
Proof.
  unfold erase_if_empty. destruct (find k m) as [l|]; [|done].
  destruct (orders l); [apply keys_erase_subset | done].
Qed.

(** Removing levels never crosses a book. *)
Lemma uncrossed_shrink b b' :
  book_inv b -> book_inv b' -> uncrossed b ->
  (forall sd k, k ∈ keys (side sd b') -> k ∈ keys (side sd b)) ->
  uncrossed b'.
Proof.
  intros Hb Hb' Hu Hsub.
  apply uncrossed_all; [apply Hb' | apply Hb' |].
  apply uncrossed_all in Hu; [|apply Hb | apply Hb].
  intros kb ka Hkb Hka. apply Hu; [apply (Hsub true) | apply (Hsub false)]; done.
Qed.

End uncrossed.

(** ** add_order, amend_order, clear *)

Section operations.
Import SideMap Inv.
Implicit Types (b : OrderBook) (sd : bool) (k : Z) (l : PriceLevelData)
         (p q : nat) (o : Order).

Local Abbreviation cells b := (MemoryPool.cells (order_pool_ b)).

Lemma add_order_inserted order b : add_order order b = match_orders (inserted order b).
Proof.
  unfold add_order, inserted. by destruct (MemoryPool.allocate (order_pool_ b)).
Qed.

Lemma inserted_fields order b :
  let b' := inserted order b in
  let p := (MemoryPool.allocate (order_pool_ b)).1 in
  order_pool_ b' = MemoryPool.store p order (MemoryPool.allocate (order_pool_ b)).2
  /\ side (is_buy order) b' =
       modify (price order) (push_order p (quantity order))
         (find_or_emplace (is_buy order) (price order) (side (is_buy order) b))
  /\ side (negb (is_buy order)) b' = side (negb (is_buy order)) b
  /\ order_lookup_ b' =
       <[order_id order := mkOrderLocation p (is_buy order) (price order)]>
         (order_lookup_ b)
  /\ total_orders_added_ b' = wrap64 (total_orders_added_ b + 1)
  /\ total_orders_cancelled_ b' = total_orders_cancelled_ b
  /\ total_orders_matched_ b' = total_orders_matched_ b.
Proof.
  unfold inserted. destruct (MemoryPool.allocate (order_pool_ b)) as [p pool1].
  simpl. by destruct (is_buy order).
Qed.

Lemma inserted_inv order b : book_inv b -> book_inv (inserted order b).
Proof.
  intros Hb. destruct (inserted_fields order b) as (H1 & H2 & H3 & H4 & H5 & H6 & H7).
  destruct (MemoryPool.allocate (order_pool_ b)) as [p pool1] eqn:Hal.
  destruct (allocate_spec _ _ _ (inv_pool b Hb) Hal) as (Hfresh & Hc1 & Hp1).
  simpl in *.
  apply (book_inv_insert b _ p order pool1); try done.
  - rewrite H5. apply counter_ok_wrap64.
  - rewrite H6. apply Hb.
  - rewrite H7. apply Hb.
Qed.

Lemma add_order_inv order b :
  book_inv b -> book_inv (add_order order b).1 /\ uncrossed (add_order order b).1.
Proof.
  intros Hb. rewrite add_order_inserted. by apply match_orders_inv, inserted_inv.
Qed.

Lemma cancel_order_uncrossed id b :
  book_inv b -> uncrossed b -> uncrossed (cancel_order id b).2.
Proof.
  intros Hb Hu. pose proof (cancel_order_inv id b Hb) as Hb'.
  destruct (order_lookup_ b !! id) as [loc|] eqn:Hl.
  2:{ unfold cancel_order. by rewrite Hl. }
  destruct (inv_lookup_side b id loc Hb Hl) as (l & o & Hf & _).
  destruct (cancel_order_fields id loc b l Hl Hf) as (b' & Hc & H1 & H2 & _).
  rewrite Hc in *. simpl in *. apply (uncrossed_shrink b b'); try done.
  intros sd k. destruct (decide (sd = is_bid loc)) as [->|Hne].
  - rewrite H1. intros Hk%keys_erase_if_empty_subset. by rewrite keys_modify in Hk.
  - opposite_side sd (is_bid loc).
    by rewrite H2.
Qed.

Lemma amended_inv id loc new_quantity b :
  book_inv b -> order_lookup_ b !! id = Some loc ->
  book_inv (amended loc new_quantity b).
Proof.
  intros Hb Hl.
  destruct (inv_lookup_side b id loc Hb Hl) as (l & o & Hf & Hin & Hc & Hid & Hp & Hs).
  apply (book_inv_requantify b _ (is_bid loc) (loc_price loc) l (loc_order loc) o
           new_quantity (amend_total (quantity o) new_quantity)); try done.
  - simpl. f_equal. lia.
  - unfold amended, store_quantity. rewrite (deref_cells b _ o Hc).
    by destruct (is_bid loc).
  - unfold amended. rewrite (deref_cells b _ o Hc). by destruct (is_bid loc).
  - unfold amended. by destruct (is_bid loc).
  - unfold amended. by destruct (is_bid loc).
  - unfold amended. destruct (is_bid loc); apply Hb.
  - unfold amended. destruct (is_bid loc); apply Hb.
  - unfold amended. destruct (is_bid loc); apply Hb.
Qed.

Lemma amend_order_inv id new_price new_quantity b :
  book_inv b -> uncrossed b ->
  let b' := (amend_order id new_price new_quantity b).1.2 in
  book_inv b' /\ uncrossed b'.
Proof.
  intros Hb Hu. unfold amend_order.
  destruct (order_lookup_ b !! id) as [loc|] eqn:Hl; [|done].
  destruct (negb (new_price =? price (deref b (loc_order loc)))).
  - pose proof (cancel_order_inv id b Hb) as Hb1.
    destruct (cancel_order id b) as [r b1]. simpl in Hb1.
    set (new_order := mkOrder _ _ _ _ _).
    pose proof (add_order_inv new_order b1 Hb1) as Hb2.
    by destruct (add_order new_order b1).
  - destruct (negb (new_quantity =? quantity (deref b (loc_order loc)))); [|done].
    fold (amended loc new_quantity b).
    pose proof (match_orders_inv _ (amended_inv id loc new_quantity b Hb Hl)) as Hb3.
    by destruct (match_orders (amended loc new_quantity b)).
Qed.

End operations.

Section clear.
Import SideMap Inv.
Implicit Types (b : OrderBook) (sd : bool) (k : Z) (l : PriceLevelData)
         (p q : nat) (o : Order) (m : SideMap.t).

Local Abbreviation cells b := (MemoryPool.cells (order_pool_ b)).

Lemma side_orders_elem m p :
  p ∈ side_orders m <-> exists k l, (k, l) ∈ m /\ p ∈ orders l.
Proof.
  unfold side_orders. rewrite list_elem_of_In, in_flat_map. split.
  - intros [[k l] [Hin Hp]]. exists k, l. by rewrite !list_elem_of_In.
  - intros (k & l & Hin & Hp). exists (k, l). split; by apply list_elem_of_In.
Qed.

Lemma levels_ok_cons cs sd k l m :
  levels_ok cs sd ((k, l) :: m) ->
  level_ok cs sd k l /\ (k ∉ keys m) /\ levels_ok cs sd m.
Proof.
  intros [Hs Hl]. split; [|split].
  - apply Hl. simpl. by rewrite Z.eqb_refl.
  - by apply (sorted_head_notin sd k l m).
  - split; [apply Hs|]. intros k' l' Hf. apply Hl. simpl.
    destruct (Z.eqb_spec k k') as [->|Hne]; [|done].
    exfalso. apply (sorted_head_notin sd k' l m Hs).
    apply find_Some_elem in Hf. apply list_elem_of_fmap. by exists (k', l').
Qed.

Lemma levels_ok_elem cs sd m k l :
  levels_ok cs sd m -> (k, l) ∈ m -> level_ok cs sd k l.
Proof. intros [Hs Hl] Hin. apply Hl. by apply (elem_find sd). Qed.

(** A queued order is found in the pool, on the side of its queue. *)
Lemma side_orders_cells cs sd m p :
  levels_ok cs sd m -> p ∈ side_orders m ->
  exists o, cs !! p = Some o /\ is_buy o = sd /\ price o ∈ keys m.
Proof.
  intros Hok (k & l & Hin & Hp)%side_orders_elem.
  destruct (level_cells _ _ _ _ (levels_ok_elem cs sd m k l Hok Hin) p Hp)
    as (o & Ho & Hk & Hsd).
  exists o. split; [done|]. split; [done|]. rewrite Hk.
  apply list_elem_of_fmap. by exists (k, l).
Qed.

(** No order is queued twice on a side. *)
Lemma side_orders_NoDup cs sd m : levels_ok cs sd m -> NoDup (side_orders m).
Proof.
  induction m as [|[k l] m IH]; [constructor|]. intros Hok.
  destruct (levels_ok_cons cs sd k l m Hok) as (Hl & Hk & Hm).
  change (side_orders ((k, l) :: m)) with (orders l ++ side_orders m).
  apply NoDup_app. split; [apply Hl|]. split; [|by apply IH].
  intros p Hp Hp'.
  destruct (level_cells _ _ _ _ Hl p Hp) as (o & Ho & Hpr & _).
  destruct (side_orders_cells cs sd m p Hm Hp') as (o' & Ho' & _ & Hin).
  apply Hk. congruence.
Qed.

Lemma deallocate_all_spec mp ps :
  pool_ok mp -> NoDup ps ->
  (forall p, p ∈ ps -> is_Some (MemoryPool.cells mp !! p)) ->
  let mp' := fold_left (fun mp p => MemoryPool.deallocate p mp) ps mp in
  pool_ok mp' /\
  forall q, q ∉ ps -> MemoryPool.cells mp' !! q = MemoryPool.cells mp !! q.
Proof.
  revert mp. induction ps as [|p ps IH]; intros mp Hok Hnd Hall; simpl; [done|].
  apply NoDup_cons in Hnd as [Hp Hnd].
  destruct (IH (MemoryPool.deallocate p mp)) as [Hok' Hag]; [| done | |].
  - apply pool_ok_deallocate; [done|]. apply Hall. left.
  - intros q Hq. simpl. rewrite lookup_delete_ne by (intros ->; done).
    apply Hall. by right.
  - split; [done|]. intros q [Hqp Hq]%not_elem_of_cons.
    rewrite Hag by done. simpl. by apply lookup_delete_ne.
Qed.

Lemma clear_inv b : book_inv b -> book_inv (clear b) /\ uncrossed (clear b).
Proof.
  intros Hb. split; [|by intros ? ? ? ? ?].
  unfold clear.
  destruct (deallocate_all_spec (order_pool_ b) (side_orders (bids_ b)))
    as [Hok1 Hag1]; [apply Hb | apply (side_orders_NoDup (cells b) true), Hb | |].
  { intros p Hp. destruct (side_orders_cells _ true _ p (inv_bids b Hb) Hp)
      as (o & Ho & _). eauto. }
  destruct (deallocate_all_spec
              (fold_left (fun mp p => MemoryPool.deallocate p mp)
                 (side_orders (bids_ b)) (order_pool_ b))
              (side_orders (asks_ b)))
    as [Hok2 _]; [done | apply (side_orders_NoDup (cells b) false), Hb | |].
  { intros p Hp. destruct (side_orders_cells _ false _ p (inv_asks b Hb) Hp)
      as (o & Ho & Hs & _).
    rewrite Hag1; [eauto|]. intros Hp'.
    destruct (side_orders_cells _ true _ p (inv_bids b Hb) Hp') as (o' & Ho' & Hs' & _).
    congruence. }
  split; simpl; done.
Qed.

End clear.

(** ** Every observable book is well formed and not crossed *)

Section reachability.
Import SideMap Inv.

Lemma OrderBook_new_inv : book_inv OrderBook_new /\ uncrossed OrderBook_new.
Proof.
  split; [|by intros ? ? ? ? ?].
  split; try done. apply pool_ok_init.
Qed.

Lemma step_inv op b :
  book_inv b -> uncrossed b -> book_inv (step op b).1 /\ uncrossed (step op b).1.
Proof.
  intros Hb Hu. destruct op as [order|id|id np nq|]; simpl.
  - by apply add_order_inv.
  - split; [by apply cancel_order_inv | by apply cancel_order_uncrossed].
  - pose proof (amend_order_inv id np nq b Hb Hu) as H.
    by destruct (amend_order id np nq b) as [[r b'] ts].
  - by apply clear_inv.
Qed.

Lemma reachable_inv b : reachable b -> book_inv b /\ uncrossed b.
Proof.
  induction 1 as [|op b Hr [Hb Hu]]; [apply OrderBook_new_inv | by apply step_inv].
Qed.

End reachability.

(** ** An aggressor walking the opposite side *)

Section aggressor.
Import SideMap Inv.
Implicit Types (b : OrderBook) (sd : bool) (k : Z) (l : PriceLevelData)
         (p q : nat) (o : Order) (m : SideMap.t) (t : TradeEvent).

Local Abbreviation cells b := (MemoryPool.cells (order_pool_ b)).

(** Inversion of an iteration, seen from side [sd]. *)
Lemma match_step_side sd b b' t :
  book_inv b -> match_step b = Some (b', t) ->
  exists k l rest p ps o k' l' rest' p' ps' o',
    side sd b = (k, l) :: rest /\ orders l = p :: ps /\ cells b !! p = Some o
    /\ side (negb sd) b = (k', l') :: rest' /\ orders l' = p' :: ps'
    /\ cells b !! p' = Some o'
    /\ side sd b' =
         after_fill k l rest (Z.min (quantity o) (quantity o'))
           (wrap64 (quantity o - Z.min (quantity o) (quantity o')))
    /\ side (negb sd) b' =
         after_fill k' l' rest' (Z.min (quantity o) (quantity o'))
           (wrap64 (quantity o' - Z.min (quantity o) (quantity o')))
    /\ aggressor_id sd t = order_id o
    /\ counterparty_id sd t = order_id o'
    /\ trade_price t = price (if sd then o' else o)
    /\ (forall q oq', cells b' !! q = Some oq' ->
          exists oq, cells b !! q = Some oq /\ oq' = set_quantity (quantity oq') oq).
Proof.
  intros Hb Hstep.
  destruct (match_step_Some b b' t Hb Hstep)
    as (kb & lb & bt & ka & la & at' & pb & qb & pa & qa & ob & oa &
        Hbids & Hasks & Hlb & Hla & Hcb & Hca & _ & _ & _ & _ & _ & -> & ->).
  pose proof (after_match_bids b kb lb bt pb ob ka pa oa Hbids) as Hb'.
  pose proof (after_match_asks b kb pb ob ka la at' pa oa Hasks) as Ha'.
  pose proof (fun q oq' => after_match_cells b kb pb ob ka pa oa q oq' Hcb Hca) as Hc'.
  destruct sd; simpl.
  - exists kb, lb, bt, pb, qb, ob, ka, la, at', pa, qa, oa. by repeat split.
  - exists ka, la, at', pa, qa, oa, kb, lb, bt, pb, qb, ob.
    rewrite (Z.min_comm (quantity oa) (quantity ob)). by repeat split.
Qed.

Lemma match_loop_None fuel b : match_step b = None -> match_loop fuel b = (b, []).
Proof. intros H. destruct fuel; simpl; [done|]. by rewrite H. Qed.

Lemma uncrossed_with_uncrossed sd b :
  book_inv b -> uncrossed_with sd (side sd b) (side (negb sd) b) -> uncrossed b.
Proof.
  intros Hb H. apply uncrossed_all; [apply Hb | apply Hb |]. by destruct sd.
Qed.

Lemma uncrossed_uncrossed_with sd b :
  book_inv b -> uncrossed b -> uncrossed_with sd (side sd b) (side (negb sd) b).
Proof.
  intros Hb H. apply uncrossed_all in H; [|apply Hb | apply Hb]. by destruct sd.
Qed.

Lemma uncrossed_with_subset sd own opp opp' :
  uncrossed_with sd own opp ->
  (forall k, k ∈ keys opp' -> k ∈ keys opp) ->
  uncrossed_with sd own opp'.
Proof.
  unfold uncrossed_with, all_uncrossed. intros H Hsub.
  destruct sd; intros kb ka Hkb Hka; apply H; auto.
Qed.

Lemma keys_after_fill_subset k l rest tq r k0 :
  k0 ∈ keys (after_fill k l rest tq r) -> k0 ∈ keys ((k, l) :: rest).
Proof.
  destruct (keys_after_fill k l rest tq r) as [-> | ->]; [done|]. by right.
Qed.

Lemma Forall2_impl_elem {A B} (P Q : A -> B -> Prop) (xs : list A) (ys : list B) :
  Forall2 P xs ys ->
  (forall x y, y ∈ ys -> P x y -> Q x y) ->
  Forall2 Q xs ys.
Proof.
  induction 1 as [|x y xs ys HP _ IH]; intros Himp; constructor.
  - apply Himp; [left | done].
  - apply IH. intros x' y' Hy'. apply Himp. by right.
Qed.

(** The trades of the loop pair off, in order, with an initial segment
    of the opposite side's queue. *)
Lemma aggressor_walk sd p fuel b b' ts :
  book_inv b -> agg_state sd p b ->
  match_loop fuel b = (b', ts) ->
  exists qs rest,
    side_orders (side (negb sd) b) = qs ++ rest
    /\ Forall2 (pairs_with b sd p) ts qs.
Proof.
  revert b b' ts. induction fuel as [|fuel IH]; intros b b' ts Hb Hagg; simpl.
  { intros [= <- <-]. exists [], (side_orders (side (negb sd) b)). by split. }
  destruct (match_step b) as [[b1 t]|] eqn:Hstep.
  2:{ intros [= <- <-]. exists [], (side_orders (side (negb sd) b)). by split. }
  destruct (match_step_side sd b b1 t Hb Hstep)
    as (k & l & rest & p0 & ps & o & k' & l' & rest' & p' & ps' & o' &
        Hs & Hl & Hc & Hs' & Hl' & Hc' & Hs1 & Hs1' & Hagg_id & Hcp_id & Hpr & Hcells).
  destruct Hagg as (ka & la & resta & Hsa & Hla & Hun).
  rewrite Hs in Hsa. injection Hsa as <- <- <-. rewrite Hl in Hla.
  injection Hla as -> ->.
  pose proof (match_step_inv b b1 t Hb Hstep) as Hb1.
  set (tq := Z.min (quantity o) (quantity o')) in *.
  assert (pairs_with b sd p t p') as Hpair.
  { unfold pairs_with. rewrite (deref_cells b p' o' Hc'), (deref_cells b p o Hc).
    split; [done|]. split; [done|]. rewrite Hpr. destruct sd.
    - by rewrite (deref_cells b p' o' Hc').
    - by rewrite (deref_cells b p o Hc). }
  assert (side_orders (side (negb sd) b) = p' :: ps' ++ side_orders rest') as Hopp.
  { rewrite Hs'. unfold side_orders. simpl. by rewrite Hl'. }
  destruct (Z.eqb_spec (wrap64 (quantity o - tq)) 0) as [Hfilled|Hrem].
  - (* the aggressor is filled: the loop stops *)
    assert (side sd b1 = rest) as Hrest.
    { rewrite Hs1. unfold after_fill. rewrite Hfilled, Hl. done. }
    assert (match_step b1 = None) as Hnone.
    { apply match_step_None; [done|]. apply (uncrossed_with_uncrossed sd); [done|].
      rewrite Hrest. apply (uncrossed_with_subset sd _ _ _ Hun).
      intros k0. rewrite Hs1', Hs'. apply keys_after_fill_subset. }
    rewrite (match_loop_None fuel b1 Hnone). intros [= <- <-].
    exists [p'], (ps' ++ side_orders rest'). split; [done|].
    constructor; [done | constructor].
  - (* the resting order is filled and the aggressor goes on *)
    assert (wrap64 (quantity o' - tq) = 0) as Hfilled'.
    { destruct (min_fills_one (quantity o) (quantity o')); [done | done]. }
    assert (side_orders (side (negb sd) b1) = ps' ++ side_orders rest') as Hopp1.
    { rewrite Hs1', side_orders_after_fill, Hfilled', Hl'. done. }
    assert (side sd b1 = (k, sub_total tq l) :: rest) as Hown1.
    { rewrite Hs1. unfold after_fill.
      by destruct (Z.eqb_spec (wrap64 (quantity o - tq)) 0). }
    assert (agg_state sd p b1) as Hagg1.
    { exists k, (sub_total tq l), rest. split; [done|]. split; [done|].
      apply (uncrossed_with_subset sd _ _ _ Hun).
      intros k0. rewrite Hs1', Hs'. apply keys_after_fill_subset. }
    destruct (match_loop fuel b1) as [b2 ts1] eqn:Hloop. intros [= <- <-].
    destruct (IH b1 b2 ts1 Hb1 Hagg1 Hloop) as (qs & rest1 & Hsplit & Hall).
    exists (p' :: qs), rest1. split.
    { rewrite Hopp, <- Hopp1, Hsplit. done. }
    constructor; [done|].
    (* identifiers and prices of the queued orders did not change *)
    assert (forall q, (q ∈ side_orders (side (negb sd) b1) \/ q = p) ->
              order_id (deref b1 q) = order_id (deref b q)
              /\ price (deref b1 q) = price (deref b q)) as Hsame.
    { intros q Hq.
      assert (exists oq', cells b1 !! q = Some oq') as [oq' Hoq'].
      { destruct Hq as [Hq| ->].
        - destruct (side_orders_cells _ _ _ q (inv_side (negb sd) b1 Hb1) Hq)
            as (oq' & ? & _). eauto.
        - destruct (side_head_order sd b1 k (sub_total tq l) rest Hb1 Hown1)
            as (p1 & ps1 & o1 & Hl1 & Hc1 & _).
          simpl in Hl1. rewrite Hl in Hl1. injection Hl1 as <- <-. eauto. }
      destruct (Hcells q oq' Hoq') as (oq & Hoq & Heq).
      rewrite (deref_cells b1 q oq' Hoq'), (deref_cells b q oq Hoq), Heq. done. }
    apply (Forall2_impl_elem _ _ _ _ Hall). intros t' q Hq (H1 & H2 & H3).
    assert (q ∈ side_orders (side (negb sd) b1)) as Hq1.
    { rewrite Hsplit. apply elem_of_app. by left. }
    destruct (Hsame q (or_introl Hq1)) as [Hi Hp].
    destruct (Hsame p (or_intror eq_refl)) as [Hi' Hp'].
    unfold pairs_with. rewrite <- Hi, <- Hi'. split; [done|]. split; [done|].
    rewrite H3. by destruct sd.
Qed.

End aggressor.

Section add_walk.
Import SideMap Inv.
Implicit Types (b : OrderBook) (sd : bool) (k : Z) (l : PriceLevelData)
         (p q : nat) (o : Order) (m : SideMap.t) (t : TradeEvent).

Local Abbreviation cells b := (MemoryPool.cells (order_pool_ b)).

Lemma inserted_cells order b :
  book_inv b ->
  let p := (MemoryPool.allocate (order_pool_ b)).1 in
  cells b !! p = None /\ cells (inserted order b) = <[p := order]> (cells b).
Proof.
  intros Hb. destruct (inserted_fields order b) as (H1 & _).
  destruct (MemoryPool.allocate (order_pool_ b)) as [p pool1] eqn:Hal.
  destruct (allocate_spec _ _ _ (inv_pool b Hb) Hal) as (Hfresh & Hc1 & Hp1).
  simpl in *. split; [done|]. rewrite H1. simpl. rewrite Hc1.
  apply insert_insert_eq.
Qed.

Lemma uncrossed_same_best b b' :
  get_best_bid b' = get_best_bid b -> get_best_ask b' = get_best_ask b ->
  uncrossed b -> uncrossed b'.
Proof. unfold uncrossed. intros -> ->. done. Qed.

Lemma get_best_side b b' :
  (forall sd, head (side sd b') = head (side sd b) \/
              exists k l l' r r', side sd b' = (k, l') :: r' /\ side sd b = (k, l) :: r
                                /\ total_quantity l' = total_quantity l) ->
  get_best_bid b' = get_best_bid b /\ get_best_ask b' = get_best_ask b.
Proof.
  intros H. unfold get_best_bid, get_best_ask, get_best. split.
  - destruct (H true) as [Hh|(k & l & l' & r & r' & H1 & H2 & H3)]; simpl in *.
    + destruct (bids_ b') as [|[? ?] ?], (bids_ b) as [|[? ?] ?]; by simplify_eq.
    + rewrite H1, H2. by rewrite H3.
  - destruct (H false) as [Hh|(k & l & l' & r & r' & H1 & H2 & H3)]; simpl in *.
    + destruct (asks_ b') as [|[? ?] ?], (asks_ b) as [|[? ?] ?]; by simplify_eq.
    + rewrite H1, H2. by rewrite H3.
Qed.

(** After the insertion either nothing crosses, or the new order is the
    aggressor, alone at the head of its side. *)
Lemma inserted_cases order b :
  book_inv b -> uncrossed b ->
  uncrossed (inserted order b)
  \/ agg_state (is_buy order) (MemoryPool.allocate (order_pool_ b)).1 (inserted order b).
Proof.
  intros Hb Hu. pose proof (inserted_inv order b Hb) as Hb4.
  destruct (inserted_fields order b) as (_ & Hsd & Hopp & _).
  set (p := (MemoryPool.allocate (order_pool_ b)).1) in *.
  set (sd := is_buy order) in *. simpl in Hsd, Hopp.
  unfold find_or_emplace in Hsd.
  destruct (find (price order) (side sd b)) as [l|] eqn:Hf.
  - left. apply (uncrossed_shrink b); try done.
    intros sd' k. destruct (decide (sd' = sd)) as [->|Hne].
    + by rewrite Hsd, keys_modify.
    + opposite_side sd' sd. by rewrite Hopp.
  - destruct (side sd b) as [|[k0 w] m'] eqn:Hside.
    + right. exists (price order), (push_order p (quantity order)
                                       (PriceLevelData_new (price order))), [].
      split; [|split].
      * rewrite Hsd. simpl. by rewrite Z.eqb_refl.
      * done.
      * unfold uncrossed_with, all_uncrossed.
        destruct sd; intros kb ka Hkb Hka; by apply elem_of_nil in Hkb || by apply elem_of_nil in Hka.
    + simpl in Hsd, Hf. destruct (Z.eqb_spec k0 (price order)) as [|Hk0]; [done|].
      destruct (before sd (price order) k0) eqn:Hbefore.
      * right. exists (price order), (push_order p (quantity order)
                                         (PriceLevelData_new (price order))),
                 ((k0, w) :: m').
        split; [|split].
        -- rewrite Hsd. simpl. by rewrite Z.eqb_refl.
        -- done.
        -- rewrite Hopp, <- Hside. by apply uncrossed_uncrossed_with.
      * left. destruct (before sd k0 (price order)) eqn:Hbefore'.
        2:{ exfalso. apply Hk0. by apply (before_total sd). }
        simpl in Hsd. destruct (Z.eqb_spec k0 (price order)); [done|].
        destruct (get_best_side b (inserted order b)) as [Hbb Hba].
        { intros sd'. left. destruct (decide (sd' = sd)) as [->|Hne].
          - by rewrite Hsd, Hside.
          - opposite_side sd' sd.
            by rewrite Hopp. }
        by apply (uncrossed_same_best b).
Qed.

(** The trades of an [add_order] pair the new order, in order, with an
    initial segment of the opposite side's queue; the price reported
    is that of the sell-side order. *)
Lemma add_order_walk order b b' ts :
  book_inv b -> uncrossed b -> add_order order b = (b', ts) ->
  exists qs rest,
    side_orders (side (negb (is_buy order)) b) = qs ++ rest
    /\ Forall2 (fun t q =>
                  counterparty_id (is_buy order) t = order_id (deref b q)
                  /\ aggressor_id (is_buy order) t = order_id order
                  /\ trade_price t =
                       if is_buy order then price (deref b q) else price order)
         ts qs.
Proof.
  intros Hb Hu. rewrite add_order_inserted.
  pose proof (inserted_inv order b Hb) as Hb4.
  destruct (inserted_cells order b Hb) as [Hfresh Hcells].
  destruct (inserted_fields order b) as (_ & _ & Hopp & _).
  set (p := (MemoryPool.allocate (order_pool_ b)).1) in *. simpl in Hopp.
  destruct (inserted_cases order b Hb Hu) as [Hu4|Hagg].
  { rewrite (match_orders_uncrossed _ Hb4 Hu4). intros [= <- <-].
    exists [], (side_orders (side (negb (is_buy order)) b)). split; [done|]. constructor. }
  unfold match_orders. intros Hloop.
  destruct (aggressor_walk (is_buy order) p _ _ _ _ Hb4 Hagg Hloop)
    as (qs & rest & Hsplit & Hall).
  rewrite Hopp in Hsplit. exists qs, rest. split; [done|].
  apply (Forall2_impl_elem _ _ _ _ Hall). intros t q Hq (H1 & H2 & H3).
  assert (deref (inserted order b) p = order) as Hp.
  { apply deref_cells. rewrite Hcells. apply lookup_insert_eq. }
  assert (deref (inserted order b) q = deref b q) as Hq'.
  { unfold deref, MemoryPool.deref. rewrite Hcells.
    apply lookup_total_insert_ne. intros <-.
    assert (p ∈ side_orders (side (negb (is_buy order)) b)) as Hin.
    { rewrite Hsplit. apply elem_of_app. by left. }
    destruct (side_orders_cells _ _ _ p (inv_side _ b Hb) Hin) as (o' & Ho' & _).
    congruence. }
  rewrite H1, H2, H3, Hp, Hq'. split; [done|]. split; [done|].
  destruct (is_buy order); [by rewrite Hq' | by rewrite Hp].
Qed.

End add_walk.

(** ** Undoing an insertion *)

Section restore.
Import SideMap Inv.
Context (sd : bool).
Implicit Types (m : SideMap.t) (k : Z) (l v : PriceLevelData) (p : nat).

Lemma modify_modify k f g m : modify k g (modify k f m) = modify k (fun l => g (f l)) m.
Proof.
  induction m as [|[k0 w] m IH]; simpl; [done|].
  destruct (Z.eqb_spec k0 k) as [->|Hne]; simpl.
  - by rewrite Z.eqb_refl.
  - destruct (Z.eqb_spec k0 k); [done|]. by rewrite IH.
Qed.

Lemma modify_id k f m :
  (forall l, find k m = Some l -> f l = l) -> modify k f m = m.
Proof.
  induction m as [|[k0 w] m IH]; simpl; [done|].
  destruct (Z.eqb_spec k0 k) as [->|Hne]; intros H.
  - by rewrite (H w).
  - by rewrite IH.
Qed.

Lemma modify_emplace k f v m :
  find k m = None -> modify k f (emplace sd k v m) = emplace sd k (f v) m.
Proof.
  induction m as [|[k0 w] m IH]; simpl.
  - intros _. by rewrite Z.eqb_refl.
  - destruct (Z.eqb_spec k0 k) as [->|Hne]; [done|]. intros Hf.
    destruct (before sd k k0) eqn:H1; simpl; [by rewrite Z.eqb_refl|].
    destruct (before sd k0 k) eqn:H2; simpl.
    + destruct (Z.eqb_spec k0 k); [done|]. by rewrite IH.
    + exfalso. apply Hne. by apply (before_total sd).
Qed.

Lemma erase_emplace k v m : find k m = None -> erase k (emplace sd k v m) = m.
Proof.
  induction m as [|[k0 w] m IH]; simpl.
  - intros _. by rewrite Z.eqb_refl.
  - destruct (Z.eqb_spec k0 k) as [->|Hne]; [done|]. intros Hf.
    destruct (before sd k k0) eqn:H1; simpl; [by rewrite Z.eqb_refl|].
    destruct (before sd k0 k) eqn:H2; simpl.
    + destruct (Z.eqb_spec k0 k); [done|]. by rewrite IH.
    + exfalso. apply Hne. by apply (before_total sd).
Qed.

(** Appending an order to the queue of its price and unlinking it again
    gives back the side index. *)
Lemma side_restore m k p q :
  (forall l, find k m = Some l ->
     orders l <> [] /\ (p ∉ orders l) /\ 0 <= total_quantity l < 2 ^ 64) ->
  erase_if_empty k
    (modify k (unlink_order p q)
       (modify k (push_order p q) (find_or_emplace sd k m))) = m.
Proof.
  intros Hl. rewrite modify_modify. unfold find_or_emplace.
  destruct (find k m) as [l|] eqn:Hf.
  - destruct (Hl l eq_refl) as (Hne & Hp & Ht).
    rewrite modify_id.
    + unfold erase_if_empty. rewrite Hf. by destruct (orders l).
    + intros l' Hf'. assert (l' = l) as -> by congruence.
      unfold unlink_order, push_order. simpl.
      rewrite list_erase_snoc, wrap64_add_sub by done. by destruct l.
  - rewrite modify_emplace by done. unfold erase_if_empty.
    rewrite (find_emplace sd) by done. rewrite decide_True by done. simpl.
    rewrite Nat.eqb_refl. by apply erase_emplace.
Qed.

End restore.

(** ** Counters *)

Section counters.
Import SideMap Inv.
Implicit Types (b : OrderBook) (t : TradeEvent).

Lemma remove_filled_counters sd k p b :
  total_orders_added_ (remove_filled sd k p b) = total_orders_added_ b
  /\ total_orders_cancelled_ (remove_filled sd k p b) = total_orders_cancelled_ b
  /\ total_orders_matched_ (remove_filled sd k p b) = total_orders_matched_ b.
Proof. by destruct sd. Qed.

Lemma maybe_remove_filled_counters (c : bool) sd k p b :
  let b' := if c then remove_filled sd k p b else b in
  total_orders_added_ b' = total_orders_added_ b
  /\ total_orders_cancelled_ b' = total_orders_cancelled_ b
  /\ total_orders_matched_ b' = total_orders_matched_ b.
Proof. destruct c; [apply remove_filled_counters | done]. Qed.

Lemma match_step_counters b b' t :
  match_step b = Some (b', t) ->
  total_orders_matched_ b' = wrap64 (total_orders_matched_ b + 1)
  /\ total_orders_added_ b' = total_orders_added_ b
  /\ total_orders_cancelled_ b' = total_orders_cancelled_ b.
Proof.
  unfold match_step.
  destruct (bids_ b) as [|[kb lb] bt]; [done|].
  destruct (asks_ b) as [|[ka la] at']; [done|].
  destruct (kb <? ka); [done|].
  destruct (orders lb) as [|pb qb]; [done|].
  destruct (orders la) as [|pa qa]; [done|].
  unfold execute_trade. cbv zeta.
  match goal with
  | |- Some (if ?c then remove_filled false ka pa ?x else _, _) = _ -> _ =>
      destruct (maybe_remove_filled_counters c false ka pa x) as (Ha & Hc & Hm);
      set (b7 := if c then remove_filled false ka pa x else x) in *
  end.
  intros H. assert (b' = b7) as -> by congruence. clear H.
  rewrite Ha, Hc, Hm. clear Ha Hc Hm b7.
  match goal with
  | |- context [if ?c then remove_filled true kb pb ?x else _] =>
      destruct (maybe_remove_filled_counters c true kb pb x) as (-> & -> & ->)
  end.
  done.
Qed.

Lemma match_loop_matched fuel b :
  counter_ok (total_orders_matched_ b) ->
  total_orders_matched_ (match_loop fuel b).1
    = wrap64 (total_orders_matched_ b + Z.of_nat (length (match_loop fuel b).2)).
Proof.
  revert b. induction fuel as [|fuel IH]; intros b Hok; simpl.
  { rewrite Z.add_0_r. symmetry. by apply wrap64_small. }
  destruct (match_step b) as [[b1 t]|] eqn:Hstep.
  2:{ simpl. rewrite Z.add_0_r. symmetry. by apply wrap64_small. }
  destruct (match_step_counters b b1 t Hstep) as (Hm & _).
  specialize (IH b1). rewrite Hm in IH. specialize (IH (counter_ok_wrap64 _)).
  destruct (match_loop fuel b1) as [b2 ts]. simpl in *.
  rewrite IH, wrap64_add_l. f_equal. lia.
Qed.

Lemma match_loop_added_cancelled fuel b :
  total_orders_added_ (match_loop fuel b).1 = total_orders_added_ b
  /\ total_orders_cancelled_ (match_loop fuel b).1 = total_orders_cancelled_ b.
Proof.
  revert b. induction fuel as [|fuel IH]; intros b; simpl; [done|].
  destruct (match_step b) as [[b1 t]|] eqn:Hstep; [|done].
  destruct (match_step_counters b b1 t Hstep) as (_ & <- & <-).
  specialize (IH b1). by destruct (match_loop fuel b1).
Qed.

Lemma add_order_counters order b :
  total_orders_added_ (add_order order b).1 = wrap64 (total_orders_added_ b + 1)
  /\ total_orders_cancelled_ (add_order order b).1 = total_orders_cancelled_ b
  /\ (counter_ok (total_orders_matched_ b) ->
      total_orders_matched_ (add_order order b).1
      = wrap64 (total_orders_matched_ b + Z.of_nat (length (add_order order b).2))).
Proof.
  rewrite add_order_inserted. unfold match_orders.
  destruct (inserted_fields order b) as (_ & _ & _ & _ & Ha & Hc & Hm).
  simpl in *.
  destruct (match_loop_added_cancelled (live_orders (inserted order b))
              (inserted order b)) as [-> ->].
  split; [done|]. split; [done|]. intros Hok.
  rewrite match_loop_matched by by rewrite Hm. by rewrite Hm.
Qed.

Lemma remove_order_from_book_counters loc b :
  total_orders_added_ (remove_order_from_book loc b) = total_orders_added_ b
  /\ total_orders_cancelled_ (remove_order_from_book loc b) = total_orders_cancelled_ b
  /\ total_orders_matched_ (remove_order_from_book loc b) = total_orders_matched_ b.
Proof.
  unfold remove_order_from_book.
  destruct (find (loc_price loc) (side (is_bid loc) b)); [|done].
  by destruct (is_bid loc).
Qed.

Lemma cancel_order_counters id b :
  total_orders_added_ (cancel_order id b).2 = total_orders_added_ b
  /\ total_orders_matched_ (cancel_order id b).2 = total_orders_matched_ b
  /\ total_orders_cancelled_ (cancel_order id b).2
      = if (cancel_order id b).1 then wrap64 (total_orders_cancelled_ b + 1)
        else total_orders_cancelled_ b.
Proof.
  unfold cancel_order. destruct (order_lookup_ b !! id) as [loc|]; [|done].
  destruct (remove_order_from_book_counters loc b) as (Ha & Hc & Hm). simpl.
  by rewrite Ha, Hc, Hm.
Qed.

Lemma amend_order_matched id new_price new_quantity b :
  counter_ok (total_orders_matched_ b) ->
  total_orders_matched_ (amend_order id new_price new_quantity b).1.2
  = wrap64 (total_orders_matched_ b
            + Z.of_nat (length (amend_order id new_price new_quantity b).2)).
Proof.
  intros Hok. unfold amend_order.
  destruct (order_lookup_ b !! id) as [loc|] eqn:Hl.
  2:{ simpl. rewrite Z.add_0_r. symmetry. by apply wrap64_small. }
  destruct (negb (new_price =? price (deref b (loc_order loc)))).
  - destruct (cancel_order_counters id b) as (_ & Hm & _).
    destruct (cancel_order id b) as [r b1]. simpl in Hm.
    set (new_order := mkOrder _ _ _ _ _).
    destruct (add_order_counters new_order b1) as (_ & _ & Hm').
    destruct (add_order new_order b1) as [b2 ts]. simpl in *.
    rewrite <- Hm. apply Hm'. by rewrite Hm.
  - destruct (negb (new_quantity =? quantity (deref b (loc_order loc)))).
    2:{ simpl. rewrite Z.add_0_r. symmetry. by apply wrap64_small. }
    fold (amended loc new_quantity b). unfold match_orders.
    pose proof (match_loop_matched (live_orders (amended loc new_quantity b))
                  (amended loc new_quantity b)) as Hm.
    destruct (match_loop _ (amended loc new_quantity b)) as [b3 ts]. simpl in *.
    assert (total_orders_matched_ (amended loc new_quantity b)
            = total_orders_matched_ b) as Heq.
    { unfold amended. by destruct (is_bid loc). }
    rewrite Heq in Hm. by apply Hm.
Qed.

End counters.

Section claims.
Import SideMap Inv.
Local Abbreviation cells b := (MemoryPool.cells (order_pool_ b)).

Lemma reachable_run ops b : reachable b -> reachable (run ops b).1.
Proof.
  revert b. induction ops as [|op ops IH]; intros b Hb; simpl; [done|].
  pose proof (reachable_step op b Hb) as Hb1.
  destruct (step op b) as [b1 ts1]. specialize (IH b1 Hb1).
  by destruct (run ops b1).
Qed.

Lemma ex_two_sided_reachable : reachable ex_two_sided.
Proof. apply reachable_run, reachable_new. Qed.

Lemma step_matched op b :
  counter_ok (total_orders_matched_ b) ->
  total_orders_matched_ (step op b).1 =
    if is_clear op then 0
    else wrap64 (total_orders_matched_ b + Z.of_nat (length (step op b).2)).
Proof.
  intros Hok. destruct op as [order|id|id np nq|]; simpl.
  - by apply add_order_counters.
  - destruct (cancel_order_counters id b) as (_ & -> & _).
    rewrite Z.add_0_r. symmetry. by apply wrap64_small.
  - pose proof (amend_order_matched id np nq b Hok) as H.
    by destruct (amend_order id np nq b) as [[r b'] ts].
  - done.
Qed.

Lemma run_since_clear_matched ops b since :
  total_orders_matched_ b = wrap64 (Z.of_nat (length since)) ->
  total_orders_matched_ (run_since_clear ops b since).1
  = wrap64 (Z.of_nat (length (run_since_clear ops b since).2)).
Proof.
  revert b since. induction ops as [|op ops IH]; intros b since Hb; simpl; [done|].
  assert (counter_ok (total_orders_matched_ b)) as Hok.
  { rewrite Hb. apply counter_ok_wrap64. }
  pose proof (step_matched op b Hok) as Hstep.
  destruct (step op b) as [b1 ts1]. simpl in Hstep. apply IH.
  rewrite Hstep. destruct (is_clear op); [done|].
  rewrite Hb, wrap64_add_l, length_app. f_equal. lia.
Qed.

(** C3. After every public operation the best bid is strictly below the
    best ask whenever both sides are non-empty; more generally no bid
    level is priced at or above an ask level. *)
Theorem book_never_crossed (b : OrderBook) :
  reachable b ->
  (forall pb qb pa qa,
      get_best_bid b = Some (pb, qb) -> get_best_ask b = Some (pa, qa) -> pb < pa)
  /\ (forall kb ka, kb ∈ keys (bids_ b) -> ka ∈ keys (asks_ b) -> kb < ka).
Proof.
  intros Hr. destruct (reachable_inv b Hr) as [Hb Hu]. split; [exact Hu|].
  apply uncrossed_all in Hu; [exact Hu | apply Hb | apply Hb].
Qed.

Lemma book_never_crossed_witness :
  reachable ex_two_sided
  /\ get_best_bid ex_two_sided = Some (1000, 125)
  /\ get_best_ask ex_two_sided = Some (1010, 60)
  /\ 1000 < 1010.
Proof.
  split; [exact ex_two_sided_reachable|].
  split; [vm_compute; reflexivity|]. split; [vm_compute; reflexivity|].
  apply (proj1 (book_never_crossed ex_two_sided ex_two_sided_reachable) 1000 125 1010 60);
    vm_compute; reflexivity.
Defined.

(** C4 (amended).  In every observable book each price level of a side
    index has a non-empty queue, and its [total_quantity] is the sum of
    the remaining quantities of the queued orders modulo [2^64], hence
    the exact sum whenever that sum is below [2^64].  A level whose queue
    became empty is thus no longer in the index. *)
Theorem price_levels_consistent (b : OrderBook) (sd : bool) (k : Z) (l : PriceLevelData) :
  reachable b ->
  (k, l) ∈ side sd b ->
  orders l <> []
  /\ total_quantity l = wrap64 (sum_quantity (cells b) (orders l))
  /\ (0 <= sum_quantity (cells b) (orders l) < 2 ^ 64 ->
      total_quantity l = sum_quantity (cells b) (orders l))
  /\ (forall p, p ∈ orders l -> is_Some (cells b !! p)).
Proof.
  intros Hr Hin. destruct (reachable_inv b Hr) as [Hb _].
  destruct (levels_ok_elem _ _ _ _ _ (inv_side sd b Hb) Hin) as [Hne _ Htot Hc].
  split; [done|]. split; [done|]. split.
  - intros Hs. by rewrite Htot, wrap64_small.
  - intros p Hp. destruct (Hc p Hp) as (o & -> & _). eauto.
Qed.

Lemma price_levels_consistent_witness :
  reachable ex_two_sided
  /\ (1000, mkPriceLevelData 1000 [4095; 4094]%nat 125) ∈ side true ex_two_sided
  /\ total_quantity (mkPriceLevelData 1000 [4095; 4094]%nat 125)
     = wrap64 (sum_quantity (cells ex_two_sided) [4095; 4094]%nat).
Proof.
  assert ((1000, mkPriceLevelData 1000 [4095; 4094]%nat 125) ∈ side true ex_two_sided)
    as Hin by (vm_compute; left).
  split; [exact ex_two_sided_reachable|]. split; [exact Hin|].
  exact (proj1 (proj2 (price_levels_consistent ex_two_sided true 1000 _
                         ex_two_sided_reachable Hin))).
Defined.

(** C4, as stated, fails: under valid use two bids of [2^64 - 1] and [2]
    at the same price leave a level whose total is [1], while the
    quantities of its two queued orders add up to [2^64 + 1]. *)
Lemma level_total_not_exact_sum :
  ~ (forall ops, valid_use ops OrderBook_new = true ->
                 level_totals_exact (run ops OrderBook_new).1).
Proof.
  intros H.
  assert (valid_use ex_overflow_ops OrderBook_new = true) as Hvalid
    by (vm_compute; reflexivity).
  assert ((1000, mkPriceLevelData 1000 [4095; 4094]%nat 1)
          ∈ side true (run ex_overflow_ops OrderBook_new).1) as Hin
    by (vm_compute; left).
  destruct (H ex_overflow_ops Hvalid true 1000 _ Hin) as [_ Htotal].
  revert Htotal. vm_compute. discriminate.
Qed.

(** C9. [total_orders_matched_] is the number (modulo [2^64]) of trade
    events emitted since the construction of the book or the last
    [clear]: every emitted trade increments it once and [clear] resets
    it. *)
Theorem matched_counts_trades (ops : list Op) :
  total_orders_matched_ (run_since_clear ops OrderBook_new []).1
  = wrap64 (Z.of_nat (length (run_since_clear ops OrderBook_new []).2))
  /\ (Z.of_nat (length (run_since_clear ops OrderBook_new []).2) < 2 ^ 64 ->
      total_orders_matched_ (run_since_clear ops OrderBook_new []).1
      = Z.of_nat (length (run_since_clear ops OrderBook_new []).2))
  /\ (run_since_clear ops OrderBook_new []).1 = (run ops OrderBook_new).1
  /\ (forall b, total_orders_matched_ (clear b) = 0).
Proof.
  pose proof (run_since_clear_matched ops OrderBook_new [] eq_refl) as H.
  split; [done|]. split; [|split; [|done]].
  - intros Hlt. rewrite H. apply wrap64_small. lia.
  - generalize OrderBook_new, (@nil TradeEvent). clear H.
    induction ops as [|op ops IH]; intros b since; simpl; [done|].
    destruct (step op b) as [b1 ts1]. rewrite IH. by destruct (run ops b1).
Qed.

End claims.

Section claims2.
Import SideMap Inv.
Local Abbreviation cells b := (MemoryPool.cells (order_pool_ b)).

Lemma ex_two_sided_inv : book_inv ex_two_sided /\ uncrossed ex_two_sided.
Proof. apply reachable_inv, ex_two_sided_reachable. Qed.

Lemma ex_crossed_inv : book_inv ex_crossed.
Proof. apply inserted_inv, ex_two_sided_inv. Qed.

Lemma match_loop_length fuel b : (length (match_loop fuel b).2 <= fuel)%nat.
Proof.
  revert b. induction fuel as [|fuel IH]; intros b; simpl; [done|].
  destruct (match_step b) as [[b1 t]|]; simpl; [|lia].
  specialize (IH b1). destruct (match_loop fuel b1). simpl in *. lia.
Qed.

Lemma match_loop_more n b :
  match_step (match_loop n b).1 = None ->
  forall m, (n <= m)%nat -> match_loop m b = match_loop n b.
Proof.
  revert b. induction n as [|n IH]; intros b Hexit m Hm; simpl in *.
  - by apply match_loop_None.
  - destruct (match_step b) as [[b1 t]|] eqn:Hstep.
    + destruct m as [|m]; [lia|]. simpl. rewrite Hstep.
      rewrite (IH b1); [done | | lia].
      by destruct (match_loop n b1).
    + apply match_loop_None. done.
Qed.

(** C8. On every well-formed book the crossing loop terminates: each
    iteration takes at least one order out of the book (the head order
    whose quantity reaches zero) and leaves a well-formed book, so the
    loop reaches its exit condition after at most as many iterations as
    there are queued orders, and running it with more fuel changes
    nothing. *)
Theorem match_orders_terminates (b : OrderBook) :
  book_inv b ->
  (forall b' t, match_step b = Some (b', t) ->
     book_inv b' /\ (live_orders b' < live_orders b)%nat)
  /\ match_step (match_orders b).1 = None
  /\ (length (match_orders b).2 <= live_orders b)%nat
  /\ (forall fuel, (live_orders b <= fuel)%nat -> match_loop fuel b = match_orders b).
Proof.
  intros Hb. split; [|split; [|split]].
  - intros b' t Hstep. split; [by eapply match_step_inv | by eapply match_step_live].
  - by apply match_loop_exit.
  - apply match_loop_length.
  - intros fuel Hfuel. apply match_loop_more; [|done]. by apply match_loop_exit.
Qed.

Lemma match_orders_terminates_witness :
  book_inv ex_crossed
  /\ match_step (match_orders ex_crossed).1 = None
  /\ length (match_orders ex_crossed).2 = 2%nat.
Proof.
  split; [exact ex_crossed_inv|].
  split; [exact (proj1 (proj2 (match_orders_terminates ex_crossed ex_crossed_inv)))|].
  vm_compute. reflexivity.
Defined.

(** C10. A price-changing amend of a live order is a cancel followed by
    an add: [total_orders_cancelled_] and [total_orders_added_] are
    both incremented by one (modulo [2^64]). *)
Theorem amend_price_change_counters (b : OrderBook) (id new_price new_quantity : Z)
        (loc : OrderLocation) :
  order_lookup_ b !! id = Some loc ->
  new_price <> price (deref b (loc_order loc)) ->
  let r := amend_order id new_price new_quantity b in
  r.1.1 = true
  /\ total_orders_added_ r.1.2 = wrap64 (total_orders_added_ b + 1)
  /\ total_orders_cancelled_ r.1.2 = wrap64 (total_orders_cancelled_ b + 1)
  /\ (0 <= total_orders_added_ b < 2 ^ 64 - 1 ->
      total_orders_added_ r.1.2 = total_orders_added_ b + 1)
  /\ (0 <= total_orders_cancelled_ b < 2 ^ 64 - 1 ->
      total_orders_cancelled_ r.1.2 = total_orders_cancelled_ b + 1).
Proof.
  intros Hl Hne.
  assert (let r := amend_order id new_price new_quantity b in
          r.1.1 = true
          /\ total_orders_added_ r.1.2 = wrap64 (total_orders_added_ b + 1)
          /\ total_orders_cancelled_ r.1.2 = wrap64 (total_orders_cancelled_ b + 1))
    as (H1 & H2 & H3).
  { unfold amend_order. rewrite Hl.
    destruct (Z.eqb_spec new_price (price (deref b (loc_order loc)))); [done|].
    simpl negb. cbv iota.
    destruct (cancel_order_counters id b) as (Ha & _ & Hc).
    assert ((cancel_order id b).1 = true) as Hr.
    { unfold cancel_order. by rewrite Hl. }
    rewrite Hr in Hc.
    destruct (cancel_order id b) as [r b1]. simpl in Ha, Hc.
    set (new_order := mkOrder _ _ _ _ _).
    destruct (add_order_counters new_order b1) as (Ha' & Hc' & _).
    destruct (add_order new_order b1) as [b2 ts]. simpl in *.
    split; [done|]. split; congruence. }
  simpl in *. split; [done|]. split; [done|]. split; [done|]. split.
  - intros Hr. rewrite H2. apply wrap64_small. lia.
  - intros Hr. rewrite H3. apply wrap64_small. lia.
Qed.

Lemma amend_price_change_counters_witness :
  order_lookup_ ex_two_sided !! 3 = Some (mkOrderLocation 4093 true 995)
  /\ 990 <> price (deref ex_two_sided 4093)
  /\ 0 <= total_orders_added_ ex_two_sided < 2 ^ 64 - 1
  /\ total_orders_added_ (amend_order 3 990 100 ex_two_sided).1.2
     = total_orders_added_ ex_two_sided + 1.
Proof.
  assert (order_lookup_ ex_two_sided !! 3 = Some (mkOrderLocation 4093 true 995))
    as Hl by (vm_compute; reflexivity).
  assert (990 <> price (deref ex_two_sided (loc_order (mkOrderLocation 4093 true 995))))
    as Hne by (vm_compute; discriminate).
  assert (0 <= total_orders_added_ ex_two_sided < 2 ^ 64 - 1) as Hr
    by (vm_compute; split; [discriminate | reflexivity]).
  split; [exact Hl|]. split; [exact Hne|]. split; [exact Hr|].
  exact (proj1 (proj2 (proj2 (proj2
           (amend_price_change_counters ex_two_sided 3 990 100 _ Hl Hne)))) Hr).
Defined.

End claims2.

Section claims3.
Import SideMap Inv.
Local Abbreviation cells b := (MemoryPool.cells (order_pool_ b)).



(** C6. When adding an order emits no trade, cancelling it right away
    gives back the two side indexes as they were, hence the same
    snapshot at every depth, and [total_orders_added_] and
    [total_orders_cancelled_] are each one higher (modulo [2^64]). *)
Theorem add_then_cancel_restores (b b1 : OrderBook) (order : Order) :
  reachable b ->
  add_order order b = (b1, []) ->
  exists b2,
    cancel_order (order_id order) b1 = (true, b2)
    /\ (forall depth, get_snapshot depth b2 = get_snapshot depth b)
    /\ bids_ b2 = bids_ b /\ asks_ b2 = asks_ b
    /\ total_orders_added_ b2 = wrap64 (total_orders_added_ b + 1)
    /\ total_orders_cancelled_ b2 = wrap64 (total_orders_cancelled_ b + 1)
    /\ (total_orders_added_ b < 2 ^ 64 - 1 ->
        total_orders_added_ b2 = total_orders_added_ b + 1)
    /\ (total_orders_cancelled_ b < 2 ^ 64 - 1 ->
        total_orders_cancelled_ b2 = total_orders_cancelled_ b + 1)
    /\ total_orders_matched_ b2 = total_orders_matched_ b.
Proof.
  intros Hr Hadd. destruct (reachable_inv b Hr) as [Hb _].
  rewrite add_order_inserted in Hadd.
  assert (b1 = inserted order b) as ->.
  { unfold match_orders in Hadd. destruct (live_orders (inserted order b)); simpl in Hadd.
    - congruence.
    - destruct (match_step (inserted order b)) as [[b' t]|]; [|congruence].
      destruct (match_loop n b'). done. }
  clear Hadd.
  destruct (inserted_fields order b) as (Hpool & Hsd & Hopp & Hlk & Ha & Hc & Hm).
  destruct (inserted_cells order b Hb) as [Hfresh Hcells].
  set (p := (MemoryPool.allocate (order_pool_ b)).1) in *. simpl in Hsd, Hopp, Hlk.
  set (loc := mkOrderLocation p (is_buy order) (price order)).
  assert (order_lookup_ (inserted order b) !! order_id order = Some loc) as Hl.
  { rewrite Hlk. apply lookup_insert_eq. }
  pose proof (inserted_inv order b Hb) as Hb1.
  destruct (inv_lookup_side _ _ loc Hb1 Hl) as (l & o & Hf & _ & Hco & _).
  destruct (cancel_order_fields _ loc _ l Hl Hf)
    as (b2 & Hcancel & H1 & H2 & _ & _ & H5 & H6 & H7).
  simpl in Hco, H1, H2. rewrite Hcells, lookup_insert_eq in Hco.
  injection Hco as <-.
  assert (deref (inserted order b) p = order) as Hd.
  { apply deref_cells. rewrite Hcells. apply lookup_insert_eq. }
  rewrite Hd, Hsd in H1. rewrite Hopp in H2.
  rewrite (side_restore (is_buy order)) in H1.
  2:{ intros l0 Hf0.
      destruct (proj2 (inv_side (is_buy order) b Hb) _ _ Hf0) as [Hne _ Ht Hcs].
      split; [done|]. split.
      - intros Hin. destruct (Hcs p Hin) as (o' & Ho' & _). congruence.
      - rewrite Ht. apply wrap64_range. }
  assert (bids_ b2 = bids_ b /\ asks_ b2 = asks_ b) as [Hbids Hasks].
  { destruct (is_buy order); simpl in H1, H2; by split. }
  exists b2. split; [done|]. split.
  { intros depth. unfold get_snapshot. by rewrite Hbids, Hasks. }
  split; [done|]. split; [done|].
  rewrite H5, H6, H7, Ha, Hc, Hm. split; [done|]. split; [done|].
  split; [|split; [|done]].
  - intros Hlt. apply wrap64_small. destruct (inv_added b Hb). lia.
  - intros Hlt. apply wrap64_small. destruct (inv_cancelled b Hb). lia.
Qed.

Lemma add_then_cancel_restores_witness :
  reachable ex_two_sided
  /\ add_order (mkOrder 9 true 1005 10 0) ex_two_sided
     = ((add_order (mkOrder 9 true 1005 10 0) ex_two_sided).1, [])
  /\ exists b2,
       cancel_order 9 (add_order (mkOrder 9 true 1005 10 0) ex_two_sided).1 = (true, b2)
       /\ forall depth, get_snapshot depth b2 = get_snapshot depth ex_two_sided.
Proof.
  assert (add_order (mkOrder 9 true 1005 10 0) ex_two_sided
          = ((add_order (mkOrder 9 true 1005 10 0) ex_two_sided).1, [])) as Hadd.
  { assert ((add_order (mkOrder 9 true 1005 10 0) ex_two_sided).2 = []) as H2
      by (vm_compute; reflexivity).
    destruct (add_order (mkOrder 9 true 1005 10 0) ex_two_sided) as [b1 ts].
    simpl in H2. by rewrite H2. }
  split; [exact ex_two_sided_reachable|]. split; [exact Hadd|].
  destruct (add_then_cancel_restores ex_two_sided _ (mkOrder 9 true 1005 10 0)
              ex_two_sided_reachable Hadd) as (b2 & H1 & H2 & _).
  exists b2. split; [exact H1 | exact H2].
Defined.

End claims3.

Section claims4.
Import SideMap Inv.
Local Abbreviation cells b := (MemoryPool.cells (order_pool_ b)).


Lemma amended_fields loc new_quantity b :
  let b' := amended loc new_quantity b in
  side (is_bid loc) b' =
    modify (loc_price loc)
      (amend_total (quantity (deref b (loc_order loc))) new_quantity)
      (side (is_bid loc) b)
  /\ side (negb (is_bid loc)) b' = side (negb (is_bid loc)) b
  /\ cells b' = <[loc_order loc := set_quantity new_quantity (deref b (loc_order loc))]>
                  (cells b)
  /\ order_lookup_ b' = order_lookup_ b
  /\ total_orders_added_ b' = total_orders_added_ b
  /\ total_orders_cancelled_ b' = total_orders_cancelled_ b
  /\ total_orders_matched_ b' = total_orders_matched_ b.
Proof. unfold amended. by destruct (is_bid loc). Qed.






Lemma Forall2_Forall_left {A B} (Q : A -> Prop) (P : A -> B -> Prop) xs ys :
  Forall2 P xs ys -> (forall x y, P x y -> Q x) -> Forall Q xs.
Proof. induction 1 as [|x y xs ys HP _ IH]; intros HQ; constructor; eauto. Qed.

Lemma Forall2_elem_left {A B} (P : A -> B -> Prop) xs ys x :
  Forall2 P xs ys -> x ∈ xs -> exists y, y ∈ ys /\ P x y.
Proof.
  induction 1 as [|x' y xs ys HP _ IH]; [by intros ?%elem_of_nil|].
  intros [->|Hx]%elem_of_cons.
  - exists y. split; [left | done].
  - destruct (IH Hx) as (y' & Hy' & HP'). exists y'. split; [by right | done].
Qed.



(** C1 (amended).  Every trade emitted by the crossing loop is priced at
    the price of its sell-side order, the head of the best ask level.
    When the aggressor is a buy order being added this is the price of
    the resting ask it trades with; when it is a sell order being added
    it is the price of that new order. *)
Theorem trade_price_is_sell_price (b : OrderBook) :
  book_inv b ->
  (forall b' t,
      match_step b = Some (b', t) ->
      exists ka la rest pa qa,
        asks_ b = (ka, la) :: rest /\ orders la = pa :: qa
        /\ sell_order_id t = order_id (deref b pa)
        /\ trade_price t = price (deref b pa)
        /\ trade_price t = ka)
  /\ (uncrossed b ->
      forall order b' ts,
        add_order order b = (b', ts) ->
        (is_buy order = true -> trades_at_resting_price b order ts)
        /\ (is_buy order = false ->
            Forall (fun t => trade_price t = price order) ts)).
Proof.
  intros Hb. split.
  - intros b' t Hstep.
    destruct (match_step_Some b b' t Hb Hstep)
      as (kb & lb & bt & ka & la & at' & pb & qb & pa & qa & ob & oa &
          _ & Hasks & _ & Hla & _ & Hca & _ & _ & Hpa & _ & _ & _ & ->).
    exists ka, la, at', pa, qa. rewrite (deref_cells b pa oa Hca). simpl.
    by repeat split.
  - intros Hu order b' ts Hadd.
    destruct (add_order_walk order b b' ts Hb Hu Hadd) as (qs & rest & Hsplit & Hall).
    split; intros Hside.
    + intros t Ht. rewrite Hside in *.
      destruct (Forall2_elem_left _ _ _ _ Hall Ht) as (q & Hq & H1 & _ & H3).
      exists q. split; [|done]. rewrite Hsplit. apply elem_of_app. by left.
    + rewrite Hside in Hall. apply (Forall2_Forall_left _ _ _ _ Hall).
      by intros t q (_ & _ & H3).
Qed.

Lemma trade_price_is_sell_price_witness :
  book_inv ex_one_bid /\ uncrossed ex_one_bid
  /\ Forall (fun t => trade_price t = 990)
       (add_order (mkOrder 7 false 990 60 0) ex_one_bid).2.
Proof.
  assert (reachable ex_one_bid) as Hr by apply reachable_run, reachable_new.
  destruct (reachable_inv _ Hr) as [Hb Hu].
  split; [exact Hb|]. split; [exact Hu|].
  exact (proj2 (proj2 (trade_price_is_sell_price ex_one_bid Hb) Hu
                  (mkOrder 7 false 990 60 0) _ _ (surjective_pairing _)) eq_refl).
Defined.

(** C1, as stated, fails: a sell at 990 hitting the bid resting at 1000
    trades at 990. *)
Lemma trade_price_not_resting_price :
  ~ trades_at_resting_price ex_one_bid (mkOrder 7 false 990 60 0)
      (add_order (mkOrder 7 false 990 60 0) ex_one_bid).2.
Proof.
  intros H.
  assert (mkTradeEvent 1 7 50 990 ∈ (add_order (mkOrder 7 false 990 60 0) ex_one_bid).2)
    as Ht by (vm_compute; left).
  destruct (H _ Ht) as (q & Hq & _ & Hprice).
  assert (side_orders (side (negb (is_buy (mkOrder 7 false 990 60 0))) ex_one_bid)
          = [4095%nat]) as Hside by (vm_compute; reflexivity).
  rewrite Hside in Hq. apply list_elem_of_singleton in Hq as ->.
  revert Hprice. vm_compute. discriminate.
Qed.

End claims4.

(** ** The scenarios of the test driver, run on the model *)

Example basic_snapshot :
get_snapshot 5 (run scenario_basic OrderBook_new).1
= ([mkPriceLevel 1000 50; mkPriceLevel 995 100; mkPriceLevel 990 75],
   [mkPriceLevel 1010 60; mkPriceLevel 1015 80; mkPriceLevel 1020 90]).
Proof. vm_compute. reflexivity. Qed.

Example basic_cancel :
let b := (run scenario_basic OrderBook_new).1 in
(cancel_order 2 b).1 = true
/\ get_snapshot 5 (cancel_order 2 b).2
   = ([mkPriceLevel 1000 50; mkPriceLevel 990 75],
      [mkPriceLevel 1010 60; mkPriceLevel 1015 80; mkPriceLevel 1020 90])
/\ (cancel_order 2 (cancel_order 2 b).2).1 = false.
Proof. vm_compute. repeat split. Qed.

Example matching_aggressive_buy :
(run (scenario_matching ++ [OpAdd (mkOrder 105 true 1020 200 0)]) OrderBook_new).2
= [mkTradeEvent 105 103 80 1010; mkTradeEvent 105 104 120 1015].
Proof. vm_compute. reflexivity. Qed.

Example matching_aggressive_sell :
(run (scenario_matching ++ [OpAdd (mkOrder 105 true 1020 200 0);
                            OpAdd (mkOrder 106 false 990 120 0)]) OrderBook_new).2
= [mkTradeEvent 105 103 80 1010; mkTradeEvent 105 104 120 1015;
   mkTradeEvent 101 106 100 990; mkTradeEvent 102 106 20 990].
Proof. vm_compute. reflexivity. Qed.

Example fifo_within_level :
let r := run (scenario_fifo ++ [OpAdd (mkOrder 204 false 1000 100 0)]) OrderBook_new in
r.2 = [mkTradeEvent 201 204 50 1000; mkTradeEvent 202 204 50 1000]
/\ get_snapshot 5 r.1 = ([mkPriceLevel 1000 125], [])
/\ resting_ids r.1 true = [202; 203].
Proof. vm_compute. repeat split. Qed.

Example amend_keeps_priority :
let r := run [OpAdd (mkOrder 301 true 1000 10 0); OpAdd (mkOrder 302 true 1000 10 0);
              OpAmend 301 1000 1000; OpAdd (mkOrder 303 false 1000 10 0)]
           OrderBook_new in
r.2 = [mkTradeEvent 301 303 10 1000]
/\ resting_ids r.1 true = [301; 302]
/\ get_snapshot 5 r.1 = ([mkPriceLevel 1000 1000], []).
Proof. vm_compute. repeat split. Qed.

Example amend_price_loses_priority :
let r := run [OpAdd (mkOrder 401 true 1000 10 0); OpAdd (mkOrder 402 true 1000 10 0);
              OpAmend 401 995 10] OrderBook_new in
r.2 = [] /\ resting_ids r.1 true = [402; 401]
/\ get_snapshot 5 r.1 = ([mkPriceLevel 1000 10; mkPriceLevel 995 10], []).
Proof. vm_compute. repeat split. Qed.

(** * Further properties of the code *)

(** ** Queries, queues and the locator *)

Section queries.
Import SideMap Inv.
Local Abbreviation cells b := (MemoryPool.cells (order_pool_ b)).

Lemma rows_sorted_map sd (m : SideMap.t) :
  sorted sd m ->
  rows_sorted sd (map (fun kv => mkPriceLevel kv.1 (total_quantity kv.2)) m).
Proof.
  induction m as [|[k v] m IH]; simpl; [done|]. intros [Hall Hs].
  split; [|by apply IH]. apply Forall_fmap.
  eapply Forall_impl; [exact Hall|]. by intros [k' v'].
Qed.

Lemma rows_sorted_take sd n rows : rows_sorted sd rows -> rows_sorted sd (take n rows).
Proof.
  revert n. induction rows as [|r rows IH]; intros [|n]; simpl; try done.
  intros [Hall Hs]. split; [|by apply IH]. by apply Forall_take.
Qed.

Lemma elem_take {A} (x : A) n (l : list A) : x ∈ take n l -> x ∈ l.
Proof.
  revert n. induction l as [|y l IH]; intros [|n]; simpl; try done.
  - by intros ?%elem_of_nil.
  - intros [->|Hin]%elem_of_cons; [left | right; by eapply IH].
Qed.

(** X1. A snapshot holds [min depth levels] rows per side, bids in
    strictly descending and asks in strictly ascending price order, and
    every row gives the key and the total of a level of the index. *)
Theorem get_snapshot_sorted (b : OrderBook) (depth : nat) :
  reachable b ->
  length (get_snapshot depth b).1 = Nat.min depth (bid_levels b)
  /\ length (get_snapshot depth b).2 = Nat.min depth (ask_levels b)
  /\ rows_sorted true (get_snapshot depth b).1
  /\ rows_sorted false (get_snapshot depth b).2
  /\ (forall r, r ∈ (get_snapshot depth b).1 ->
        exists l, find (level_price r) (bids_ b) = Some l
                  /\ level_total_quantity r = total_quantity l)
  /\ (forall r, r ∈ (get_snapshot depth b).2 ->
        exists l, find (level_price r) (asks_ b) = Some l
                  /\ level_total_quantity r = total_quantity l).
Proof.
  intros Hr. destruct (reachable_inv b Hr) as [Hb _].
  unfold get_snapshot, snapshot_side, bid_levels, ask_levels. simpl.
  rewrite !length_take, !length_map.
  split; [done|]. split; [done|].
  split; [apply rows_sorted_take, rows_sorted_map, Hb|].
  split; [apply rows_sorted_take, rows_sorted_map, Hb|].
  split.
  - intros r Hin%elem_take. apply list_elem_of_fmap in Hin as [[k v] [-> Hin]].
    exists v. split; [|done]. apply (elem_find true); [apply Hb | done].
  - intros r Hin%elem_take. apply list_elem_of_fmap in Hin as [[k v] [-> Hin]].
    exists v. split; [|done]. apply (elem_find false); [apply Hb | done].
Qed.

Lemma get_snapshot_sorted_witness :
  reachable ex_two_sided
  /\ length (get_snapshot 1 ex_two_sided).1 = Nat.min 1 (bid_levels ex_two_sided).
Proof.
  split; [exact ex_two_sided_reachable|].
  exact (proj1 (get_snapshot_sorted ex_two_sided 1 ex_two_sided_reachable)).
Defined.

(** X2. [get_best_bid] fails exactly on an empty bid side; otherwise it
    returns the highest bid price with the total of that level, which is
    also the first row of a snapshot.  Symmetrically [get_best_ask]
    returns the lowest ask price. *)
Theorem get_best_is_extremal (b : OrderBook) :
  reachable b ->
  (get_best_bid b = None <-> bid_levels b = 0%nat)
  /\ (get_best_ask b = None <-> ask_levels b = 0%nat)
  /\ (forall pb qb, get_best_bid b = Some (pb, qb) ->
        (exists l, find pb (bids_ b) = Some l /\ qb = total_quantity l)
        /\ (forall k, k ∈ keys (bids_ b) -> k <= pb)
        /\ head (get_snapshot 1 b).1 = Some (mkPriceLevel pb qb))
  /\ (forall pa qa, get_best_ask b = Some (pa, qa) ->
        (exists l, find pa (asks_ b) = Some l /\ qa = total_quantity l)
        /\ (forall k, k ∈ keys (asks_ b) -> pa <= k)
        /\ head (get_snapshot 1 b).2 = Some (mkPriceLevel pa qa)).
Proof.
  intros Hr. destruct (reachable_inv b Hr) as [Hb _].
  pose proof (proj1 (inv_bids b Hb)) as Hsb. pose proof (proj1 (inv_asks b Hb)) as Hsa.
  unfold get_best_bid, get_best_ask, bid_levels, ask_levels, get_snapshot.
  split; [by destruct (bids_ b) as [|[? ?] ?]|].
  split; [by destruct (asks_ b) as [|[? ?] ?]|].
  split.
  - destruct (bids_ b) as [|[k v] m]; [done|]. intros pb qb [= <- <-].
    split; [exists v; simpl; by rewrite Z.eqb_refl|]. split; [|done].
    intros k' Hk'. destruct (sorted_head_best true k v m k' Hsb Hk') as [->|Hlt]; [done|].
    unfold before in Hlt. lia.
  - destruct (asks_ b) as [|[k v] m]; [done|]. intros pa qa [= <- <-].
    split; [exists v; simpl; by rewrite Z.eqb_refl|]. split; [|done].
    intros k' Hk'. destruct (sorted_head_best false k v m k' Hsa Hk') as [->|Hlt]; [done|].
    unfold before in Hlt. lia.
Qed.

Lemma get_best_is_extremal_witness :
  reachable ex_two_sided
  /\ (get_best_bid ex_two_sided = None <-> bid_levels ex_two_sided = 0%nat).
Proof.
  split; [exact ex_two_sided_reachable|].
  exact (proj1 (get_best_is_extremal ex_two_sided ex_two_sided_reachable)).
Defined.

Lemma queued_NoDup b : book_inv b -> NoDup (queued b).
Proof.
  intros Hb. apply NoDup_app. split; [apply (side_orders_NoDup (cells b) true), Hb|].
  split; [|apply (side_orders_NoDup (cells b) false), Hb].
  intros p Hp Hp'.
  destruct (side_orders_cells _ true _ p (inv_bids b Hb) Hp) as (o & Ho & Hs & _).
  destruct (side_orders_cells _ false _ p (inv_asks b Hb) Hp') as (o' & Ho' & Hs' & _).
  congruence.
Qed.

(** X3. In every observable book no order is queued twice, on either
    side or on both, and every queued order sits in the level of its own
    price on its own side. *)
Theorem orders_queued_once (b : OrderBook) :
  reachable b ->
  NoDup (queued b)
  /\ (forall sd k l p,
        (k, l) ∈ side sd b -> p ∈ orders l ->
        is_Some (cells b !! p)
        /\ price (deref b p) = k /\ is_buy (deref b p) = sd).
Proof.
  intros Hr. destruct (reachable_inv b Hr) as [Hb _]. split; [by apply queued_NoDup|].
  intros sd k l p Hin Hp.
  destruct (level_cells _ _ _ _ (levels_ok_elem _ _ _ _ _ (inv_side sd b Hb) Hin) p Hp)
    as (o & Ho & Hk & Hs).
  rewrite (deref_cells b p o Ho). eauto.
Qed.

Lemma orders_queued_once_witness :
  reachable ex_two_sided
  /\ NoDup (queued ex_two_sided).
Proof.
  split; [exact ex_two_sided_reachable|].
  exact (proj1 (orders_queued_once ex_two_sided ex_two_sided_reachable)).
Defined.

(** X4. In every observable book a locator entry designates an order that
    is queued in the level of the recorded price on the recorded side, and
    that order carries the identifier, the price and the side of the
    entry. *)
Theorem locator_sound (b : OrderBook) (id : Z) (loc : OrderLocation) :
  reachable b ->
  order_lookup_ b !! id = Some loc ->
  exists l,
    find (loc_price loc) (side (is_bid loc) b) = Some l
    /\ loc_order loc ∈ orders l
    /\ is_Some (cells b !! loc_order loc)
    /\ order_id (deref b (loc_order loc)) = id
    /\ price (deref b (loc_order loc)) = loc_price loc
    /\ is_buy (deref b (loc_order loc)) = is_bid loc.
Proof.
  intros Hr Hl. destruct (reachable_inv b Hr) as [Hb _].
  destruct (inv_lookup_side b id loc Hb Hl) as (l & o & Hf & Hin & Hc & Hid & Hp & Hs).
  exists l. rewrite (deref_cells b _ o Hc). eauto 10.
Qed.

Lemma locator_sound_witness :
  reachable ex_two_sided
  /\ order_lookup_ ex_two_sided !! 3 = Some (mkOrderLocation 4093 true 995)
  /\ order_id (deref ex_two_sided 4093) = 3.
Proof.
  assert (order_lookup_ ex_two_sided !! 3 = Some (mkOrderLocation 4093 true 995))
    as Hl by (vm_compute; reflexivity).
  split; [exact ex_two_sided_reachable|]. split; [exact Hl|].
  destruct (locator_sound ex_two_sided 3 _ ex_two_sided_reachable Hl)
    as (l & _ & _ & _ & Hid & _).
  exact Hid.
Defined.

(** X5. Once [cancel_order] has been called for an identifier, the
    identifier is unknown: a second cancel and an amend both return
    [false] and leave the book as it is. *)
Theorem cancel_order_forgets (b : OrderBook) (id new_price new_quantity : Z) :
  order_lookup_ (cancel_order id b).2 !! id = None
  /\ cancel_order id (cancel_order id b).2 = (false, (cancel_order id b).2)
  /\ amend_order id new_price new_quantity (cancel_order id b).2
     = (false, (cancel_order id b).2, []).
Proof.
  assert (order_lookup_ (cancel_order id b).2 !! id = None) as Hnone.
  { unfold cancel_order. destruct (order_lookup_ b !! id) as [loc|] eqn:Hl; [|done].
    simpl. apply lookup_delete_eq. }
  split; [done|]. split.
  - unfold cancel_order at 1. by rewrite Hnone.
  - unfold amend_order. by rewrite Hnone.
Qed.

(** X6. The crossing loop leaves nothing to match: run again on its own
    result it emits no trade and changes nothing. *)
Theorem match_orders_idempotent (b : OrderBook) :
  book_inv b ->
  match_orders (match_orders b).1 = ((match_orders b).1, []).
Proof.
  intros Hb. destruct (match_orders_inv b Hb) as [Hb' Hu'].
  by apply match_orders_uncrossed.
Qed.

Lemma match_orders_idempotent_witness :
  book_inv ex_crossed
  /\ match_orders (match_orders ex_crossed).1 = ((match_orders ex_crossed).1, []).
Proof.
  split; [exact ex_crossed_inv|].
  exact (match_orders_idempotent ex_crossed ex_crossed_inv).
Defined.

(** X7. Every trade made by the crossing loop is between the head order
    of the best bid level and the head order of the best ask level, for
    the smaller of their two remaining quantities, at a price that is the
    sell order's limit and does not exceed the buy order's limit. *)
Theorem trade_respects_limits (b b' : OrderBook) (t : TradeEvent) :
  book_inv b ->
  match_step b = Some (b', t) ->
  exists kb lb bids' ka la asks' pb qb pa qa,
    bids_ b = (kb, lb) :: bids' /\ orders lb = pb :: qb
    /\ asks_ b = (ka, la) :: asks' /\ orders la = pa :: qa
    /\ buy_order_id t = order_id (deref b pb)
    /\ sell_order_id t = order_id (deref b pa)
    /\ is_buy (deref b pb) = true /\ is_buy (deref b pa) = false
    /\ trade_quantity t = Z.min (quantity (deref b pb)) (quantity (deref b pa))
    /\ price (deref b pa) = trade_price t
    /\ trade_price t <= price (deref b pb).
Proof.
  intros Hb Hstep.
  destruct (match_step_Some b b' t Hb Hstep)
    as (kb & lb & bt & ka & la & at' & pb & qb & pa & qa & ob & oa &
        Hbids & Hasks & Hlb & Hla & Hcb & Hca & Hpb & Hsb & Hpa & Hsa & Hle & _ & ->).
  exists kb, lb, bt, ka, la, at', pb, qb, pa, qa.
  rewrite (deref_cells b pb ob Hcb), (deref_cells b pa oa Hca). simpl.
  repeat (split; [done|]). lia.
Qed.

Lemma trade_respects_limits_witness :
  book_inv ex_crossed
  /\ match_step ex_crossed
     = Some ((default (ex_crossed, mkTradeEvent 0 0 0 0) (match_step ex_crossed)).1,
             mkTradeEvent 1 7 50 990)
  /\ exists pb, buy_order_id (mkTradeEvent 1 7 50 990) = order_id (deref ex_crossed pb).
Proof.
  assert (match_step ex_crossed
          = Some ((default (ex_crossed, mkTradeEvent 0 0 0 0) (match_step ex_crossed)).1,
                  mkTradeEvent 1 7 50 990)) as Hstep.
  { assert ((snd <$> match_step ex_crossed) = Some (mkTradeEvent 1 7 50 990)) as H
      by (vm_compute; reflexivity).
    destruct (match_step ex_crossed) as [[b1 t1]|]; [|discriminate H].
    simpl in *. congruence. }
  split; [exact ex_crossed_inv|]. split; [exact Hstep|].
  destruct (trade_respects_limits ex_crossed _ _ ex_crossed_inv Hstep)
    as (kb & lb & bids' & ka & la & asks' & pb & qb & pa & qa & _ & _ & _ & _ & H & _).
  exists pb. exact H.
Defined.

End queries.

(** ** Orders that come to rest *)

Section resting.
Import SideMap Inv.
Implicit Types (b : OrderBook) (sd : bool) (k : Z) (l : PriceLevelData)
         (m : SideMap.t) (order : Order).

Local Abbreviation cells b := (MemoryPool.cells (order_pool_ b)).

Lemma elem_keys_find k m : k ∈ keys m <-> find k m <> None.
Proof.
  pose proof (find_None_keys k m) as H.
  destruct (find k m) as [l|]; split; try done.
  - intros _. destruct (decide (k ∈ keys m)) as [|Hn]; [done|].
    by apply H in Hn.
  - intros Hin _. by apply (proj1 H).
Qed.

Lemma keys_inserted order b k :
  k ∈ keys (side (is_buy order) (inserted order b))
  <-> k = price order \/ k ∈ keys (side (is_buy order) b).
Proof.
  destruct (inserted_fields order b) as (_ & -> & _).
  rewrite keys_modify, !elem_keys_find.
  rewrite (find_find_or_emplace (is_buy order)).
  destruct (decide (k = price order)) as [->|Hne].
  - split; [by left|done].
  - split; [by right|]. by intros [?|?].
Qed.

Lemma inserted_uncrossed_iff order b :
  book_inv b -> uncrossed b ->
  uncrossed (inserted order b) <-> crosses order b = false.
Proof.
  intros Hb Hu. pose proof (inserted_inv order b Hb) as Hb4.
  destruct (inserted_fields order b) as (_ & _ & Hopp & _). simpl in Hopp.
  pose proof (keys_inserted order b) as Hkeys.
  rewrite (uncrossed_all _ (proj1 (inv_bids _ Hb4)) (proj1 (inv_asks _ Hb4))).
  apply (uncrossed_all _ (proj1 (inv_bids _ Hb)) (proj1 (inv_asks _ Hb))) in Hu.
  pose proof (proj1 (inv_side (negb (is_buy order)) b Hb)) as Hso.
  unfold crosses, all_uncrossed in *.
  destruct (is_buy order) eqn:Hsd; simpl in *.
  - rewrite Hopp. split.
    + intros Hall. destruct (asks_ b) as [|[ka la] rest]; [done|].
      assert (price order < ka); [|apply negb_false_iff; lia].
      apply Hall; [apply Hkeys; by left|simpl; left].
    + intros Hc kb ka [->|Hkb]%Hkeys Hka; [|by apply Hu].
      destruct (asks_ b) as [|[k0 l0] rest]; [by apply elem_of_nil in Hka|].
      apply negb_false_iff, Z.ltb_lt in Hc.
      destruct (sorted_head_best false k0 l0 rest ka Hso Hka) as [->|Hlt]; [done|].
      unfold before in Hlt. lia.
  - rewrite Hopp. split.
    + intros Hall. destruct (bids_ b) as [|[kb lb] rest]; [done|].
      assert (kb < price order); [|apply negb_false_iff; lia].
      apply Hall; [simpl; left|apply Hkeys; by left].
    + intros Hc kb ka Hkb [->|Hka]%Hkeys; [|by apply Hu].
      destruct (bids_ b) as [|[k0 l0] rest]; [by apply elem_of_nil in Hkb|].
      apply negb_false_iff, Z.ltb_lt in Hc.
      destruct (sorted_head_best true k0 l0 rest kb Hso Hkb) as [->|Hlt]; [done|].
      unfold before in Hlt. lia.
Qed.

Lemma match_orders_no_trade b :
  book_inv b -> (match_orders b).2 = [] <-> uncrossed b.
Proof.
  intros Hb. split; [|intros Hu; by rewrite match_orders_uncrossed].
  intros Hnil. apply match_step_None; [done|].
  destruct (match_step b) as [[b' t]|] eqn:Hstep; [|done].
  pose proof (match_step_live b b' t Hb Hstep) as Hlive.
  unfold match_orders in Hnil.
  destruct (live_orders b) as [|n]; [lia|]. simpl in Hnil. rewrite Hstep in Hnil.
  by destruct (match_loop n b').
Qed.

(** X8. [add_order] prints a trade exactly when the new order crosses the
    best price of the opposite side: a buy order priced at or above the
    best ask, a sell order priced at or below the best bid. *)
Theorem add_order_trades_iff_crosses (order : Order) (b : OrderBook) :
  reachable b ->
  (add_order order b).2 = [] <-> crosses order b = false.
Proof.
  intros Hr. destruct (reachable_inv b Hr) as [Hb Hu].
  rewrite add_order_inserted, (match_orders_no_trade _ (inserted_inv order b Hb)).
  by apply inserted_uncrossed_iff.
Qed.

Lemma add_order_trades_iff_crosses_witness :
  reachable ex_two_sided
  /\ ((add_order (mkOrder 9 true 1005 10 0) ex_two_sided).2 = []
      <-> crosses (mkOrder 9 true 1005 10 0) ex_two_sided = false).
Proof.
  split; [exact ex_two_sided_reachable|].
  exact (add_order_trades_iff_crosses (mkOrder 9 true 1005 10 0) ex_two_sided
           ex_two_sided_reachable).
Defined.

Lemma add_order_no_cross order b :
  book_inv b -> uncrossed b -> crosses order b = false ->
  add_order order b = (inserted order b, []).
Proof.
  intros Hb Hu Hc. rewrite add_order_inserted.
  apply match_orders_uncrossed; [by apply inserted_inv|].
  by apply inserted_uncrossed_iff.
Qed.

Lemma inserted_find order b :
  let sd := is_buy order in
  let p := (MemoryPool.allocate (order_pool_ b)).1 in
  let old := default (PriceLevelData_new (price order)) (find (price order) (side sd b)) in
  find (price order) (side sd (inserted order b))
  = Some (mkPriceLevelData (pld_price old) (orders old ++ [p])
            (wrap64 (total_quantity old + quantity order)))
  /\ (forall k, k <> price order ->
        find k (side sd (inserted order b)) = find k (side sd b)).
Proof.
  destruct (inserted_fields order b) as (_ & Hsd & _). simpl in *. rewrite Hsd. split.
  - rewrite find_modify, decide_True by done.
    by rewrite (find_find_or_emplace (is_buy order)), decide_True by done.
  - intros k Hk. rewrite find_modify, decide_False by done.
    by rewrite (find_find_or_emplace (is_buy order)), decide_False by done.
Qed.

(** X9. An order that does not cross comes to rest: it is copied into a
    slot that was not in use, appended to the back of the queue of its
    price on its side (a new level when there was none), the total of that
    level grows by its quantity modulo [2^64], and the locator maps its
    identifier to that slot.  The other levels, the other side, the other
    slots and the other locator entries are unchanged. *)
Theorem add_order_rests (order : Order) (b : OrderBook) :
  reachable b ->
  crosses order b = false ->
  let sd := is_buy order in
  let b' := (add_order order b).1 in
  let p := (MemoryPool.allocate (order_pool_ b)).1 in
  let old := default (PriceLevelData_new (price order)) (find (price order) (side sd b)) in
  cells b !! p = None
  /\ cells b' = <[p := order]> (cells b)
  /\ find (price order) (side sd b')
     = Some (mkPriceLevelData (pld_price old) (orders old ++ [p])
               (wrap64 (total_quantity old + quantity order)))
  /\ (forall k, k <> price order -> find k (side sd b') = find k (side sd b))
  /\ side (negb sd) b' = side (negb sd) b
  /\ order_lookup_ b'
     = <[order_id order := mkOrderLocation p sd (price order)]> (order_lookup_ b).
Proof.
  intros Hr Hc. destruct (reachable_inv b Hr) as [Hb Hu]. cbv zeta.
  rewrite (add_order_no_cross order b Hb Hu Hc). simpl.
  destruct (inserted_cells order b Hb) as [Hfresh Hcells].
  destruct (inserted_fields order b) as (_ & _ & Hopp & Hlk & _).
  destruct (inserted_find order b) as [Hf1 Hf2]. simpl in *.
  done.
Qed.

Lemma add_order_rests_witness :
  reachable ex_two_sided
  /\ crosses (mkOrder 9 true 1005 10 0) ex_two_sided = false
  /\ cells ex_two_sided !! (MemoryPool.allocate (order_pool_ ex_two_sided)).1 = None.
Proof.
  assert (crosses (mkOrder 9 true 1005 10 0) ex_two_sided = false) as Hc
    by (vm_compute; reflexivity).
  split; [exact ex_two_sided_reachable|]. split; [exact Hc|].
  exact (proj1 (add_order_rests (mkOrder 9 true 1005 10 0) ex_two_sided
                  ex_two_sided_reachable Hc)).
Defined.

End resting.

(** ** The pool used as intended *)

Section pool_use.
Import MemoryPool Inv.
Implicit Types (mp : MemoryPool.t) (p q : nat) (o : Order).

Lemma length_new_block mp : length (new_block mp) = BlockSize.
Proof. unfold new_block. by rewrite length_reverse, length_fmap, length_seq. Qed.

Lemma pool_full_allocate_block mp : pool_full mp -> pool_full (allocate_block mp).
Proof.
  unfold pool_full. rewrite free_list_allocate_block, length_app, length_new_block.
  change (block_count_ (allocate_block mp)) with (S (block_count_ mp)).
  change (cells (allocate_block mp)) with (cells mp). lia.
Qed.

Lemma pool_full_init : pool_full init.
Proof. apply pool_full_allocate_block. unfold pool_full. simpl. by rewrite map_size_empty. Qed.

Lemma pool_full_allocate mp : pool_ok mp -> pool_full mp -> pool_full (allocate mp).2.
Proof.
  intros Hok Hfull. unfold allocate.
  set (mp1 := match free_list_ mp with [] => allocate_block mp | _ :: _ => mp end).
  assert (pool_ok mp1 /\ pool_full mp1) as [Hok1 Hfull1].
  { subst mp1. destruct (free_list_ mp).
    - split; [by apply pool_ok_allocate_block | by apply pool_full_allocate_block].
    - done. }
  clearbody mp1. unfold pool_full in *.
  destruct (free_list_ mp1) as [|e rest] eqn:Hfl; simpl in *; [by rewrite Hfl|].
  rewrite map_size_insert_None; [lia|].
  apply (pool_free_unused _ Hok1). rewrite Hfl. left.
Qed.

Lemma pool_full_store mp p o :
  pool_full mp -> is_Some (cells mp !! p) -> pool_full (store p o mp).
Proof.
  unfold pool_full. intros Hfull Hp. simpl. by rewrite map_size_insert_Some.
Qed.

Lemma pool_full_deallocate mp p :
  pool_full mp -> is_Some (cells mp !! p) -> pool_full (deallocate p mp).
Proof.
  unfold pool_full. intros Hfull Hp. simpl.
  pose proof (map_size_delete_Some p (cells mp) Hp).
  pose proof (map_size_ne_0_lookup_2 (cells mp) p Hp). lia.
Qed.

Lemma pool_reachable_ok mp : pool_reachable mp -> pool_ok mp /\ pool_full mp.
Proof.
  induction 1 as [|mp _ [Hok Hfull]|mp p o _ [Hok Hfull] Hp|mp p _ [Hok Hfull] Hp].
  - split; [apply pool_ok_init | apply pool_full_init].
  - split; [|by apply pool_full_allocate].
    destruct (allocate mp) as [p mp'] eqn:Hal.
    by destruct (allocate_spec mp p mp' Hok Hal) as (_ & _ & ?).
  - split; [by apply pool_ok_store | by apply pool_full_store].
  - split; [by apply pool_ok_deallocate | by apply pool_full_deallocate].
Qed.

Lemma pool_covered_allocate_block mp : pool_covered mp -> pool_covered (allocate_block mp).
Proof.
  intros Hcov p. rewrite free_list_allocate_block.
  change (block_count_ (allocate_block mp)) with (S (block_count_ mp)).
  change (cells (allocate_block mp)) with (cells mp). intros Hp.
  destruct (decide (p < block_count_ mp * BlockSize)%nat) as [Hlt|Hge].
  - destruct (Hcov p Hlt) as [Hf|Hl]; [|by right]. left. apply elem_of_app. by right.
  - left. apply elem_of_app. left. apply elem_new_block. lia.
Qed.

Lemma pool_reachable_covered mp : pool_reachable mp -> pool_covered mp.
Proof.
  induction 1 as [|mp _ Hcov|mp p o _ Hcov Hp|mp p _ Hcov Hp].
  - apply pool_covered_allocate_block. intros p. simpl. lia.
  - unfold allocate.
    set (mp1 := match free_list_ mp with [] => allocate_block mp | _ :: _ => mp end).
    assert (pool_covered mp1) as Hcov1.
    { subst mp1. destruct (free_list_ mp); [by apply pool_covered_allocate_block|done]. }
    clearbody mp1. destruct (free_list_ mp1) as [|e rest] eqn:Hfl; [done|].
    intros q Hq. simpl in *. destruct (decide (q = e)) as [->|Hne].
    + right. rewrite lookup_insert_eq. eauto.
    + rewrite lookup_insert_ne by done.
      destruct (Hcov1 q Hq) as [Hf|Hl]; [|by right].
      rewrite Hfl in Hf. apply elem_of_cons in Hf as [->|Hf]; [done|by left].
  - intros q Hq. simpl in *. destruct (Hcov q Hq) as [Hf|Hl]; [by left|]. right.
    destruct (decide (q = p)) as [->|Hne].
    + rewrite lookup_insert_eq. eauto.
    + by rewrite lookup_insert_ne.
  - intros q Hq. simpl in *. destruct (decide (q = p)) as [->|Hne]; [left; left|].
    destruct (Hcov q Hq) as [Hf|Hl]; [left; by right|]. right.
    by rewrite lookup_delete_ne.
Qed.

(** X10. In a pool used as intended every slot of every block is either
    on the free list or in use, never both and never twice on the free
    list: the free and the used slots together are exactly the
    [block_count * BlockSize] addresses obtained so far. *)
Theorem pool_slots_conserved (mp : MemoryPool.t) :
  pool_reachable mp ->
  NoDup (free_list_ mp)
  /\ (forall p, p ∈ free_list_ mp -> cells mp !! p = None)
  /\ (forall p, (p < block_count_ mp * BlockSize)%nat
                <-> p ∈ free_list_ mp \/ is_Some (cells mp !! p))
  /\ (length (free_list_ mp) + size (cells mp) = block_count_ mp * BlockSize)%nat.
Proof.
  intros Hr. destruct (pool_reachable_ok mp Hr) as [[Hnd Hun Hfb Hcb] Hfull].
  split; [done|]. split; [done|]. split; [|done].
  intros p. split; [by apply pool_reachable_covered|].
  intros [Hf|Hl]; [by apply Hfb | by apply Hcb].
Qed.

Lemma pool_slots_conserved_witness :
  pool_reachable init /\ NoDup (free_list_ init).
Proof.
  split; [exact pool_reachable_init|].
  exact (proj1 (pool_slots_conserved init pool_reachable_init)).
Defined.

(** X11. [allocate] hands out a slot that was not in use, takes it off
    the free list and default-constructs an order in it; no other slot
    changes, and a block is added exactly when the free list was
    empty. *)
Theorem allocate_fresh (mp : MemoryPool.t) :
  pool_reachable mp ->
  let p := (allocate mp).1 in
  let mp' := (allocate mp).2 in
  cells mp !! p = None
  /\ (p ∉ free_list_ mp')
  /\ cells mp' = <[p := Order_default]> (cells mp)
  /\ (p < block_count_ mp' * BlockSize)%nat
  /\ block_count_ mp' = match free_list_ mp with
                        | [] => S (block_count_ mp)
                        | _ :: _ => block_count_ mp
                        end.
Proof.
  intros Hr. cbv zeta. destruct (pool_reachable_ok mp Hr) as [Hok _].
  destruct (allocate mp) as [p mp'] eqn:Hal. simpl.
  destruct (allocate_spec mp p mp' Hok Hal) as (Hnone & Hcells & Hok').
  split; [done|]. split.
  { intros Hin. pose proof (pool_free_unused _ Hok' p Hin) as Hc.
    by rewrite Hcells, lookup_insert_eq in Hc. }
  split; [done|]. split.
  { apply (pool_cells_bound _ Hok'). rewrite Hcells, lookup_insert_eq. eauto. }
  unfold allocate in Hal. destruct (free_list_ mp) as [|e rest] eqn:Hfl.
  - pose proof (free_list_allocate_block_nonempty mp) as Hne.
    destruct (free_list_ (allocate_block mp)); [done|].
    by injection Hal as <- <-.
  - rewrite Hfl in Hal. by injection Hal as <- <-.
Qed.

Lemma allocate_fresh_witness :
  pool_reachable init /\ cells init !! (allocate init).1 = None.
Proof.
  split; [exact pool_reachable_init|].
  exact (proj1 (allocate_fresh init pool_reachable_init)).
Defined.



End pool_use.

(** ** The book accounts for every slot of its pool *)

Section accounting.
Import SideMap Inv.
Implicit Types (b : OrderBook) (sd : bool) (k : Z) (l : PriceLevelData)
         (p q : nat) (o : Order) (m : SideMap.t).

Local Abbreviation cells b := (MemoryPool.cells (order_pool_ b)).

Lemma side_orders_find sd m p :
  sorted sd m ->
  p ∈ side_orders m <-> exists k l, find k m = Some l /\ p ∈ orders l.
Proof.
  intros Hs. rewrite side_orders_elem. split.
  - intros (k & l & Hin & Hp). exists k, l. split; [by apply (elem_find sd)|done].
  - intros (k & l & Hf & Hp). exists k, l. split; [by apply find_Some_elem|done].
Qed.

Lemma side_orders_modify k f m :
  (forall l, orders (f l) = orders l) ->
  side_orders (modify k f m) = side_orders m.
Proof.
  intros Hf. induction m as [|[k' l'] m IH]; [done|]. simpl.
  destruct (k' =? k).
  - change (orders (f l') ++ side_orders m = orders l' ++ side_orders m).
    by rewrite Hf.
  - change (orders l' ++ side_orders (modify k f m) = orders l' ++ side_orders m).
    by rewrite IH.
Qed.

Lemma side_orders_remove sd m k l0 p f q :
  sorted sd m -> find k m = Some l0 ->
  orders (f l0) = list_erase p (orders l0) ->
  q <> p -> q ∈ side_orders m ->
  q ∈ side_orders (erase_if_empty k (modify k f m)).
Proof.
  intros Hs Hf Ho Hne (k' & l' & Hf' & Hq)%(side_orders_find sd); [|done].
  apply (side_orders_find sd); [by apply sorted_erase_if_empty, sorted_modify|].
  destruct (decide (k' = k)) as [->|Hk].
  - exists k, (f l0). split; [|rewrite Ho; apply elem_list_erase_ne; congruence].
    rewrite (find_erase_if_empty sd), decide_True by (done || by apply sorted_modify).
    rewrite find_modify, decide_True, Hf by done. simpl.
    assert (q ∈ orders (f l0)) as Hin.
    { rewrite Ho. apply elem_list_erase_ne; congruence. }
    destruct (orders (f l0)); [by apply elem_of_nil in Hin|done].
  - exists k', l'. split; [|done].
    rewrite (find_erase_if_empty sd), decide_False by (done || by apply sorted_modify).
    by rewrite find_modify, decide_False.
Qed.

Lemma side_orders_push sd m k p qty q :
  sorted sd m -> q = p \/ q ∈ side_orders m ->
  q ∈ side_orders (modify k (push_order p qty) (find_or_emplace sd k m)).
Proof.
  intros Hs Hq.
  apply (side_orders_find sd); [by apply sorted_modify, sorted_find_or_emplace|].
  destruct Hq as [->|(k' & l' & Hf' & Hq)%(side_orders_find sd)]; [|destruct (decide (k' = k)) as [->|Hk]|done].
  - eexists k, _. rewrite find_modify, decide_True by done.
    rewrite (find_find_or_emplace sd), decide_True by done. simpl. split; [done|].
    apply elem_of_app. right. left.
  - eexists k, _. rewrite find_modify, decide_True by done.
    rewrite (find_find_or_emplace sd), decide_True by done. simpl. split; [done|].
    rewrite Hf'. simpl. apply elem_of_app. by left.
  - exists k', l'. rewrite find_modify, decide_False by done.
    by rewrite (find_find_or_emplace sd), decide_False by done.
Qed.

Lemma elem_queued b q :
  q ∈ queued b <-> exists sd, q ∈ side_orders (side sd b).
Proof.
  unfold queued. rewrite elem_of_app. split.
  - intros [H|H]; [by exists true|by exists false].
  - intros [[] H]; [by left|by right].
Qed.

Lemma accounted_requantify b b' sd k p o' f :
  accounted b -> is_Some (cells b !! p) ->
  (forall l, orders (f l) = orders l) ->
  order_pool_ b' = MemoryPool.store p o' (order_pool_ b) ->
  side sd b' = modify k f (side sd b) ->
  side (negb sd) b' = side (negb sd) b ->
  accounted b'.
Proof.
  intros [Hacc Hfull] Hp Hf Hpool Hsd Hopp. split.
  - intros q Hq. rewrite Hpool in Hq. simpl in Hq.
    assert (is_Some (cells b !! q)) as Hq'.
    { destruct (decide (q = p)) as [->|Hne]; [done|]. by rewrite lookup_insert_ne in Hq. }
    apply Hacc, elem_queued in Hq' as [sd' Hq']. apply elem_queued. exists sd'.
    destruct (decide (sd' = sd)) as [->|Hne].
    + by rewrite Hsd, side_orders_modify.
    + opposite_side sd' sd. by rewrite Hopp.
  - rewrite Hpool. by apply pool_full_store.
Qed.

Lemma accounted_remove b b' sd k l0 p f :
  book_inv b -> accounted b ->
  find k (side sd b) = Some l0 -> is_Some (cells b !! p) ->
  orders (f l0) = list_erase p (orders l0) ->
  order_pool_ b' = MemoryPool.deallocate p (order_pool_ b) ->
  side sd b' = erase_if_empty k (modify k f (side sd b)) ->
  side (negb sd) b' = side (negb sd) b ->
  accounted b'.
Proof.
  intros Hb [Hacc Hfull] Hfind Hp Ho Hpool Hsd Hopp. split.
  - intros q Hq. rewrite Hpool in Hq. simpl in Hq.
    assert (q <> p) as Hne.
    { intros ->. rewrite lookup_delete_eq in Hq. by destruct Hq. }
    rewrite lookup_delete_ne in Hq by done.
    apply Hacc, elem_queued in Hq as [sd' Hq]. apply elem_queued. exists sd'.
    destruct (decide (sd' = sd)) as [->|Hsd'].
    + rewrite Hsd. apply (side_orders_remove sd _ k l0 p f q); try done.
      apply (inv_side sd b Hb).
    + opposite_side sd' sd. by rewrite Hopp.
  - rewrite Hpool. by apply pool_full_deallocate.
Qed.

Lemma accounted_insert b b' p o pool1 :
  book_inv b -> accounted b ->
  MemoryPool.cells pool1 = <[p := Order_default]> (cells b) ->
  pool_full pool1 ->
  order_pool_ b' = MemoryPool.store p o pool1 ->
  side (is_buy o) b' =
    modify (price o) (push_order p (quantity o))
      (find_or_emplace (is_buy o) (price o) (side (is_buy o) b)) ->
  side (negb (is_buy o)) b' = side (negb (is_buy o)) b ->
  accounted b'.
Proof.
  intros Hb [Hacc Hfull] Hcells Hfull1 Hpool Hsd Hopp. split.
  - intros q Hq. rewrite Hpool in Hq. simpl in Hq. rewrite Hcells in Hq.
    apply elem_queued. destruct (decide (q = p)) as [->|Hne].
    + exists (is_buy o). rewrite Hsd. apply (side_orders_push (is_buy o)); [|by left].
      apply (inv_side _ b Hb).
    + rewrite !lookup_insert_ne in Hq by done.
      apply Hacc, elem_queued in Hq as [sd' Hq]. exists sd'.
      destruct (decide (sd' = is_buy o)) as [->|Hsd'].
      * rewrite Hsd. apply (side_orders_push (is_buy o)); [|by right].
        apply (inv_side _ b Hb).
      * opposite_side sd' (is_buy o). by rewrite Hopp.
  - rewrite Hpool. apply pool_full_store; [done|].
    rewrite Hcells, lookup_insert_eq. eauto.
Qed.

Lemma accounted_same b b' :
  accounted b -> bids_ b' = bids_ b -> asks_ b' = asks_ b ->
  order_pool_ b' = order_pool_ b -> accounted b'.
Proof.
  intros [Hacc Hfull] Hb Ha Hp. unfold accounted, queued. by rewrite Hb, Ha, Hp.
Qed.

Lemma fill_accounted sd k l p o t b :
  accounted b -> cells b !! p = Some o -> accounted (fill sd k p t b).
Proof.
  intros Hacc Hc.
  apply (accounted_requantify b _ sd k p
           (set_quantity (wrap64 (quantity o - t)) o) (sub_total t)); try done.
  - unfold fill, store_quantity. rewrite (deref_cells b p o Hc). by destruct sd.
  - unfold fill. by destruct sd.
  - unfold fill. by destruct sd.
Qed.

Lemma remove_filled_accounted sd k l p rest o b :
  book_inv b -> accounted b ->
  find k (side sd b) = Some l -> orders l = p :: rest ->
  cells b !! p = Some o ->
  accounted (remove_filled sd k p b).
Proof.
  intros Hb Hacc Hf Hl Hc.
  destruct (remove_filled_fields sd k p b) as (H1 & H2 & H3 & _).
  apply (accounted_remove b _ sd k l p pop_front); try done.
  simpl. by rewrite Hl, list_erase_head.
Qed.

Lemma match_step_accounted b b' t :
  book_inv b -> accounted b -> match_step b = Some (b', t) -> accounted b'.
Proof.
  intros Hb Hacc Hstep.
  destruct (match_step_Some b b' t Hb Hstep)
    as (kb & lb & bt & ka & la & at' & pb & qb & pa & qa & ob & oa &
        Hbids & Hasks & Hlb & Hla & Hcb & Hca & Hpb & Hsb & Hpa & Hsa & Hle & -> & _).
  clear Hstep. assert (pb <> pa) as Hne by (intros ->; congruence).
  unfold after_match.
  set (tq := Z.min (quantity ob) (quantity oa)).
  set (b1 := set_matched _ b).
  assert (book_inv b1) as Hb1 by (apply set_matched_inv, counter_ok_wrap64; done).
  assert (accounted b1) as Ha1 by by apply (accounted_same b).
  set (b2 := fill true kb pb tq b1).
  assert (book_inv b2) as Hb2.
  { apply (fill_inv true kb lb pb ob); try done.
    - by apply (side_head_find true b kb lb bt).
    - rewrite Hlb. left. }
  assert (accounted b2) as Ha2 by by apply (fill_accounted true kb lb pb ob).
  assert (cells b2 !! pa = Some oa) as Hca2.
  { unfold b2, fill, store_quantity. simpl. by rewrite lookup_insert_ne. }
  assert (cells b2 !! pb = Some (set_quantity (wrap64 (quantity ob - tq)) ob)) as Hcb2.
  { unfold b2, fill, store_quantity, deref, MemoryPool.deref. simpl.
    by rewrite lookup_insert_eq, (lookup_total_correct _ _ _ Hcb). }
  set (b5 := fill false ka pa tq b2).
  assert (book_inv b5) as Hb5.
  { apply (fill_inv false ka la pa oa); try done.
    - apply (side_head_find false b2 ka la at'). unfold b2, fill. simpl. done.
    - rewrite Hla. left. }
  assert (accounted b5) as Ha5 by by apply (fill_accounted false ka la pa oa).
  assert (cells b5 !! pb = Some (set_quantity (wrap64 (quantity ob - tq)) ob)) as Hcb5.
  { unfold b5, fill, store_quantity. simpl. by rewrite lookup_insert_ne. }
  assert (cells b5 !! pa = Some (set_quantity (wrap64 (quantity oa - tq)) oa)) as Hca5.
  { unfold b5, fill, store_quantity, deref, MemoryPool.deref. simpl.
    by rewrite lookup_insert_eq, (lookup_total_correct _ _ _ Hca2). }
  set (b6 := if wrap64 (quantity ob - tq) =? 0 then _ else b5).
  assert (book_inv b6 /\ accounted b6 /\ asks_ b6 = (ka, sub_total tq la) :: at' /\
          cells b6 !! pa = Some (set_quantity (wrap64 (quantity oa - tq)) oa))
    as (Hb6 & Ha6 & Hasks6 & Hca6).
  { assert (asks_ b5 = (ka, sub_total tq la) :: at') as Hasks5.
    { unfold b5, b2, fill. simpl. rewrite Hasks. simpl. by rewrite Z.eqb_refl. }
    assert (find kb (side true b5) = Some (sub_total tq lb)) as Hf5.
    { unfold b5, b2, fill. simpl. rewrite Hbids. simpl. rewrite Z.eqb_refl.
      simpl. by rewrite Z.eqb_refl. }
    unfold b6. destruct (Z.eqb_spec (wrap64 (quantity ob - tq)) 0) as [Hz|Hnz].
    - split; [|split; [|split]].
      + by apply (remove_filled_inv true kb (sub_total tq lb) pb qb
                    (set_quantity (wrap64 (quantity ob - tq)) ob)).
      + by apply (remove_filled_accounted true kb (sub_total tq lb) pb qb
                    (set_quantity (wrap64 (quantity ob - tq)) ob)).
      + done.
      + unfold remove_filled. simpl. by rewrite lookup_delete_ne.
    - done. }
  destruct (Z.eqb_spec (wrap64 (quantity oa - tq)) 0) as [Hz|Hnz]; [|done].
  apply (remove_filled_accounted false ka (sub_total tq la) pa qa
           (set_quantity (wrap64 (quantity oa - tq)) oa)); try done.
  by apply (side_head_find false b6 ka _ at').
Qed.

Lemma match_loop_accounted fuel b :
  book_inv b -> accounted b -> accounted (match_loop fuel b).1.
Proof.
  revert b. induction fuel as [|fuel IH]; intros b Hb Hacc; simpl; [done|].
  destruct (match_step b) as [[b' t]|] eqn:Hstep; [|done].
  specialize (IH b' (match_step_inv b b' t Hb Hstep)
                (match_step_accounted b b' t Hb Hacc Hstep)).
  by destruct (match_loop fuel b').
Qed.

Lemma inserted_accounted order b :
  book_inv b -> accounted b -> accounted (inserted order b).
Proof.
  intros Hb Hacc.
  destruct (inserted_fields order b) as (H1 & H2 & H3 & _).
  pose proof (pool_full_allocate _ (inv_pool b Hb) (proj2 Hacc)) as Hfull.
  destruct (MemoryPool.allocate (order_pool_ b)) as [p pool1] eqn:Hal.
  destruct (allocate_spec _ _ _ (inv_pool b Hb) Hal) as (Hfresh & Hc1 & Hp1).
  simpl in *.
  by apply (accounted_insert b _ p order pool1).
Qed.

Lemma add_order_accounted order b :
  book_inv b -> accounted b -> accounted (add_order order b).1.
Proof.
  intros Hb Hacc. rewrite add_order_inserted.
  apply match_loop_accounted; [by apply inserted_inv | by apply inserted_accounted].
Qed.

Lemma cancel_order_accounted id b :
  book_inv b -> accounted b -> accounted (cancel_order id b).2.
Proof.
  intros Hb Hacc. destruct (order_lookup_ b !! id) as [loc|] eqn:Hl.
  2:{ unfold cancel_order. by rewrite Hl. }
  destruct (inv_lookup_side b id loc Hb Hl) as (l & o & Hf & Hin & Hc & Hid & Hp & Hs).
  destruct (cancel_order_fields id loc b l Hl Hf)
    as (b' & -> & H1 & H2 & H3 & _). simpl.
  by apply (accounted_remove b b' (is_bid loc) (loc_price loc) l (loc_order loc)
              (unlink_order (loc_order loc) (quantity (deref b (loc_order loc))))).
Qed.

Lemma amended_accounted id loc new_quantity b :
  book_inv b -> accounted b -> order_lookup_ b !! id = Some loc ->
  accounted (amended loc new_quantity b).
Proof.
  intros Hb Hacc Hl.
  destruct (inv_lookup_side b id loc Hb Hl) as (l & o & Hf & Hin & Hc & Hid & Hp & Hs).
  apply (accounted_requantify b _ (is_bid loc) (loc_price loc) (loc_order loc)
           (set_quantity new_quantity o) (amend_total (quantity o) new_quantity));
    try done.
  - unfold amended, store_quantity. rewrite (deref_cells b _ o Hc).
    by destruct (is_bid loc).
  - unfold amended. rewrite (deref_cells b _ o Hc). by destruct (is_bid loc).
  - unfold amended. by destruct (is_bid loc).
Qed.

Lemma amend_order_accounted id new_price new_quantity b :
  book_inv b -> accounted b ->
  accounted (amend_order id new_price new_quantity b).1.2.
Proof.
  intros Hb Hacc. unfold amend_order.
  destruct (order_lookup_ b !! id) as [loc|] eqn:Hl; [|done].
  destruct (negb (new_price =? price (deref b (loc_order loc)))).
  - pose proof (cancel_order_inv id b Hb) as Hb1.
    pose proof (cancel_order_accounted id b Hb Hacc) as Ha1.
    destruct (cancel_order id b) as [r b1]. simpl in Hb1, Ha1.
    set (new_order := mkOrder _ _ _ _ _).
    pose proof (add_order_accounted new_order b1 Hb1 Ha1) as Ha2.
    by destruct (add_order new_order b1).
  - destruct (negb (new_quantity =? quantity (deref b (loc_order loc)))); [|done].
    fold (amended loc new_quantity b).
    pose proof (match_loop_accounted (live_orders (amended loc new_quantity b)) _
                  (amended_inv id loc new_quantity b Hb Hl)
                  (amended_accounted id loc new_quantity b Hb Hacc Hl)) as Ha3.
    fold (match_orders (amended loc new_quantity b)) in Ha3.
    by destruct (match_orders (amended loc new_quantity b)).
Qed.

Lemma deallocate_all_keeps_free mp ps q :
  MemoryPool.cells mp !! q = None ->
  MemoryPool.cells (fold_left (fun mp p => MemoryPool.deallocate p mp) ps mp) !! q = None.
Proof.
  revert mp. induction ps as [|p ps IH]; intros mp Hq; simpl; [done|].
  apply IH. simpl. rewrite lookup_delete. by case_decide.
Qed.

Lemma deallocate_all_full mp ps :
  pool_full mp -> NoDup ps ->
  (forall p, p ∈ ps -> is_Some (MemoryPool.cells mp !! p)) ->
  let mp' := fold_left (fun mp p => MemoryPool.deallocate p mp) ps mp in
  pool_full mp'
  /\ MemoryPool.block_count_ mp' = MemoryPool.block_count_ mp
  /\ forall q, q ∈ ps -> MemoryPool.cells mp' !! q = None.
Proof.
  revert mp. induction ps as [|p ps IH]; intros mp Hfull Hnd Hall; simpl.
  { split; [done|]. split; [done|]. by intros q ?%elem_of_nil. }
  apply NoDup_cons in Hnd as [Hp Hnd].
  assert (forall q, q ∈ ps ->
            is_Some (MemoryPool.cells (MemoryPool.deallocate p mp) !! q)) as Hall'.
  { intros q Hq. simpl. rewrite lookup_delete_ne by (intros ->; done).
    apply Hall. by right. }
  destruct (IH (MemoryPool.deallocate p mp)) as (Hfull' & Hbc & Hnone); [|done|done|].
  { apply pool_full_deallocate; [done|]. apply Hall. left. }
  split; [done|]. split; [done|].
  intros q [->|Hq]%elem_of_cons; [|by apply Hnone].
  apply deallocate_all_keeps_free. simpl. apply lookup_delete_eq.
Qed.

Lemma clear_cells b :
  book_inv b -> accounted b ->
  cells (clear b) = ∅
  /\ pool_full (order_pool_ (clear b))
  /\ MemoryPool.block_count_ (order_pool_ (clear b))
     = MemoryPool.block_count_ (order_pool_ b).
Proof.
  intros Hb [Hacc Hfull]. unfold clear. simpl.
  set (pool1 := fold_left _ (side_orders (bids_ b)) (order_pool_ b)).
  assert (forall p, p ∈ side_orders (bids_ b) -> is_Some (cells b !! p)) as Hlb.
  { intros p Hp. destruct (side_orders_cells _ true _ p (inv_bids b Hb) Hp)
      as (o & Ho & _). eauto. }
  pose proof (side_orders_NoDup (cells b) true _ (inv_bids b Hb)) as Hndb.
  pose proof (side_orders_NoDup (cells b) false _ (inv_asks b Hb)) as Hnda.
  destruct (deallocate_all_spec (order_pool_ b) (side_orders (bids_ b)))
    as [Hok1 Hag1]; [apply Hb | done | done |].
  destruct (deallocate_all_full (order_pool_ b) (side_orders (bids_ b)))
    as (Hfull1 & Hbc1 & Hnone1); [done..|].
  fold pool1 in Hok1, Hag1, Hfull1, Hbc1, Hnone1.
  assert (forall p, p ∈ side_orders (asks_ b) ->
            is_Some (MemoryPool.cells pool1 !! p)) as Hla.
  { intros p Hp. destruct (side_orders_cells _ false _ p (inv_asks b Hb) Hp)
      as (o & Ho & Hs & _).
    rewrite Hag1; [eauto|]. intros Hp'.
    destruct (side_orders_cells _ true _ p (inv_bids b Hb) Hp') as (o' & Ho' & Hs' & _).
    congruence. }
  destruct (deallocate_all_spec pool1 (side_orders (asks_ b)))
    as [Hok2 Hag2]; [done..|].
  destruct (deallocate_all_full pool1 (side_orders (asks_ b)))
    as (Hfull2 & Hbc2 & Hnone2); [done..|].
  split; [|split; [done|congruence]].
  apply map_eq. intros q. rewrite lookup_empty.
  destruct (decide (q ∈ side_orders (asks_ b))) as [Hqa|Hqa]; [by apply Hnone2|].
  rewrite Hag2 by done.
  destruct (decide (q ∈ side_orders (bids_ b))) as [Hqb|Hqb]; [by apply Hnone1|].
  rewrite Hag1 by done.
  destruct (cells b !! q) as [o|] eqn:Hq; [|done].
  exfalso. assert (q ∈ queued b) as Hin by (apply Hacc; eauto).
  apply elem_of_app in Hin as [?|?]; done.
Qed.

Lemma clear_accounted b : book_inv b -> accounted b -> accounted (clear b).
Proof.
  intros Hb Hacc. destruct (clear_cells b Hb Hacc) as (Hc & Hfull & _).
  split; [|done]. intros p [o Ho]. by rewrite Hc, lookup_empty in Ho.
Qed.

Lemma OrderBook_new_accounted : accounted OrderBook_new.
Proof.
  split; [|apply pool_full_init]. intros p [o Ho].
  change (cells OrderBook_new) with (∅ : gmap nat Order) in Ho.
  by rewrite lookup_empty in Ho.
Qed.

Lemma reachable_accounted b : reachable b -> accounted b.
Proof.
  induction 1 as [|op b Hr Hacc]; [apply OrderBook_new_accounted|].
  destruct (reachable_inv b Hr) as [Hb _].
  destruct op as [order|id|id np nq|]; simpl.
  - by apply add_order_accounted.
  - by apply cancel_order_accounted.
  - pose proof (amend_order_accounted id np nq b Hb Hacc) as H.
    by destruct (amend_order id np nq b) as [[r b'] ts].
  - by apply clear_accounted.
Qed.

Lemma size_live (m : gmap nat Order) (ps : list nat) :
  NoDup ps -> (forall p, is_Some (m !! p) <-> p ∈ ps) -> size m = length ps.
Proof.
  revert m. induction ps as [|x ps IH]; intros m Hnd Hdom; simpl.
  - apply map_size_empty_iff, map_empty. intros p.
    destruct (m !! p) eqn:Hp; [|done].
    assert (p ∈ @nil nat) as H%elem_of_nil by (apply Hdom; eauto). done.
  - apply NoDup_cons in Hnd as [Hx Hnd].
    assert (is_Some (m !! x)) as Hsome by (apply Hdom; left).
    pose proof (map_size_delete_Some x m Hsome) as Hsz.
    pose proof (map_size_ne_0_lookup_2 m x Hsome) as Hnz.
    rewrite <- (IH (delete x m) Hnd); [lia|].
    intros p. rewrite lookup_delete. case_decide as Hp.
    + subst p. split; [by intros [? ?]|done].
    + rewrite Hdom, elem_of_cons. split; [by intros [?|?] | by right].
Qed.

Lemma queued_live b p : book_inv b -> p ∈ queued b -> is_Some (cells b !! p).
Proof.
  intros Hb [sd Hp]%elem_queued.
  destruct (side_orders_cells _ sd _ p (inv_side sd b Hb) Hp) as (o & Ho & _). eauto.
Qed.

(** X13. The book loses no slot: in every observable book the slots in
    use are exactly those of the queued orders, so the number of used
    slots is the number of queued orders, and the queued orders together
    with the free list fill the blocks of the pool. *)
Theorem book_accounts_for_pool (b : OrderBook) :
  reachable b ->
  (forall p, is_Some (cells b !! p) <-> p ∈ queued b)
  /\ size (cells b) = live_orders b
  /\ (length (MemoryPool.free_list_ (order_pool_ b)) + live_orders b
      = block_count b * MemoryPool.BlockSize)%nat.
Proof.
  intros Hr. destruct (reachable_inv b Hr) as [Hb _].
  destruct (reachable_accounted b Hr) as [Hacc Hfull].
  assert (forall p, is_Some (cells b !! p) <-> p ∈ queued b) as Hdom.
  { intros p. split; [apply Hacc | by apply queued_live]. }
  assert (size (cells b) = live_orders b) as Hsize.
  { rewrite (size_live _ (queued b) (queued_NoDup b Hb) Hdom).
    unfold queued, live_orders. by rewrite length_app. }
  split; [done|]. split; [done|]. rewrite <- Hsize. apply Hfull.
Qed.

Lemma book_accounts_for_pool_witness :
  reachable ex_two_sided
  /\ size (cells ex_two_sided) = live_orders ex_two_sided.
Proof.
  split; [exact ex_two_sided_reachable|].
  exact (proj1 (proj2 (book_accounts_for_pool ex_two_sided ex_two_sided_reachable))).
Defined.

(** X14. [clear] (and with it the destructor) gives every slot back to
    the pool and keeps the blocks: afterwards no slot is in use, the free
    list holds all [block_count * BlockSize] slots, both sides and the
    locator are empty, and the three counters are zero. *)
Theorem clear_releases_all (b : OrderBook) :
  reachable b ->
  cells (clear b) = ∅
  /\ block_count (clear b) = block_count b
  /\ length (MemoryPool.free_list_ (order_pool_ (clear b)))
     = (block_count b * MemoryPool.BlockSize)%nat
  /\ bid_levels (clear b) = 0%nat /\ ask_levels (clear b) = 0%nat
  /\ order_lookup_ (clear b) = ∅
  /\ total_orders_added_ (clear b) = 0
  /\ total_orders_cancelled_ (clear b) = 0
  /\ total_orders_matched_ (clear b) = 0.
Proof.
  intros Hr. destruct (reachable_inv b Hr) as [Hb _].
  destruct (clear_cells b Hb (reachable_accounted b Hr)) as (Hc & Hfull & Hbc).
  split; [done|]. split; [done|]. split; [|done].
  unfold pool_full in Hfull. rewrite Hc, map_size_empty, Hbc in Hfull.
  unfold block_count. lia.
Qed.

Lemma clear_releases_all_witness :
  reachable ex_two_sided /\ cells (clear ex_two_sided) = ∅.
Proof.
  split; [exact ex_two_sided_reachable|].
  exact (proj1 (clear_releases_all ex_two_sided ex_two_sided_reachable)).
Defined.

End accounting.

(** ** Identifiers: price amendments and reused identifiers *)

Section identifiers.
Import SideMap Inv.
Implicit Types (b : OrderBook) (sd : bool) (k : Z) (l : PriceLevelData)
         (p q : nat) (o : Order) (m : SideMap.t).

Local Abbreviation cells b := (MemoryPool.cells (order_pool_ b)).

Lemma crosses_opposite order b b' :
  side (negb (is_buy order)) b' = side (negb (is_buy order)) b ->
  crosses order b' = crosses order b.
Proof. unfold crosses. by intros ->. Qed.

(** X15. A price amendment that does not cross moves the order to the
    back of the queue of the new price: the order loses its time
    priority, keeps its identifier, side, timestamp and slot, and takes
    the new quantity.  It leaves its old level, which is erased when it
    was the only order there; no other level changes. *)
Theorem amend_price_moves_to_back (b : OrderBook) (id new_price new_quantity : Z)
        (loc : OrderLocation) :
  reachable b ->
  order_lookup_ b !! id = Some loc ->
  new_price <> loc_price loc ->
  crosses (mkOrder id (is_bid loc) new_price new_quantity
             (timestamp_ns (deref b (loc_order loc)))) b = false ->
  exists l b',
    find (loc_price loc) (side (is_bid loc) b) = Some l
    /\ amend_order id new_price new_quantity b = (true, b', [])
    /\ order_lookup_ b' !! id
       = Some (mkOrderLocation (loc_order loc) (is_bid loc) new_price)
    /\ deref b' (loc_order loc)
       = mkOrder id (is_bid loc) new_price new_quantity
           (timestamp_ns (deref b (loc_order loc)))
    /\ find new_price (side (is_bid loc) b')
       = Some (push_order (loc_order loc) new_quantity
                 (default (PriceLevelData_new new_price)
                    (find new_price (side (is_bid loc) b))))
    /\ find (loc_price loc) (side (is_bid loc) b')
       = match list_erase (loc_order loc) (orders l) with
         | [] => None
         | _ :: _ =>
             Some (unlink_order (loc_order loc)
                     (quantity (deref b (loc_order loc))) l)
         end
    /\ (forall k, k <> new_price -> k <> loc_price loc ->
          find k (side (is_bid loc) b') = find k (side (is_bid loc) b))
    /\ side (negb (is_bid loc)) b' = side (negb (is_bid loc)) b.
Proof.
  intros Hr Hl Hnp Hc. destruct (reachable_inv b Hr) as [Hb Hu].
  destruct (inv_lookup_side b id loc Hb Hl) as (l & o & Hf & Hin & Hco & Hid & Hp & Hs).
  pose proof (deref_cells b _ o Hco) as Hd. rewrite Hd in *.
  pose proof (cancel_order_inv id b Hb) as Hb1.
  pose proof (cancel_order_uncrossed id b Hb Hu) as Hu1.
  destruct (cancel_order_fields id loc b l Hl Hf)
    as (b1 & Hcancel & H1 & H2 & H3 & H4 & _).
  rewrite Hcancel in Hb1, Hu1. simpl in Hb1, Hu1. rewrite Hd in H1.
  set (new_order := mkOrder id (is_bid loc) new_price new_quantity (timestamp_ns o)) in *.
  assert (crosses new_order b1 = false) as Hc1.
  { rewrite (crosses_opposite new_order b b1); done. }
  pose proof (add_order_no_cross new_order b1 Hb1 Hu1 Hc1) as Hadd.
  assert ((MemoryPool.allocate (order_pool_ b1)).1 = loc_order loc) as Hslot.
  { by rewrite H3. }
  destruct (inserted_fields new_order b1) as (_ & _ & Hopp & Hlk & _).
  destruct (inserted_find new_order b1) as [Hf1 Hf2].
  destruct (inserted_cells new_order b1 Hb1) as [_ Hcells].
  rewrite Hslot in *. simpl in Hopp, Hlk, Hf1, Hf2, Hcells.
  pose proof (proj1 (inv_side (is_bid loc) b Hb)) as Hsorted.
  assert (forall k, k <> loc_price loc ->
            find k (side (is_bid loc) b1) = find k (side (is_bid loc) b)) as Hother.
  { intros k Hk. rewrite H1.
    rewrite (find_erase_if_empty (is_bid loc)), decide_False
      by (done || by apply sorted_modify).
    by rewrite find_modify, decide_False. }
  exists l, (inserted new_order b1). split; [done|]. split.
  { unfold amend_order. rewrite Hl, Hd, Hp, Hid, Hs.
    destruct (Z.eqb_spec new_price (loc_price loc)) as [?|_]; [done|]. simpl.
    rewrite Hcancel. fold new_order. by rewrite Hadd. }
  split; [by rewrite Hlk, lookup_insert_eq|].
  split; [apply deref_cells; by rewrite Hcells, lookup_insert_eq|].
  split; [by rewrite Hf1, Hother|].
  split.
  { rewrite Hf2 by done. rewrite H1.
    rewrite (find_erase_if_empty (is_bid loc)), decide_True
      by (done || by apply sorted_modify).
    rewrite find_modify, decide_True, Hf by done. simpl.
    by destruct (list_erase (loc_order loc) (orders l)). }
  split; [|by rewrite Hopp].
  intros k Hk1 Hk2. rewrite Hf2 by done. by apply Hother.
Qed.

Lemma amend_price_moves_to_back_witness :
  reachable ex_two_sided
  /\ order_lookup_ ex_two_sided !! 1 = Some ex_loc_1
  /\ 995 <> loc_price ex_loc_1
  /\ crosses (mkOrder 1 (is_bid ex_loc_1) 995 10
                (timestamp_ns (deref ex_two_sided (loc_order ex_loc_1))))
       ex_two_sided = false
  /\ exists l b',
       find (loc_price ex_loc_1) (side (is_bid ex_loc_1) ex_two_sided) = Some l
       /\ amend_order 1 995 10 ex_two_sided = (true, b', []).
Proof.
  assert (order_lookup_ ex_two_sided !! 1 = Some ex_loc_1) as Hl
    by (vm_compute; reflexivity).
  assert (995 <> loc_price ex_loc_1) as Hnp by (simpl; lia).
  assert (crosses (mkOrder 1 (is_bid ex_loc_1) 995 10
                     (timestamp_ns (deref ex_two_sided (loc_order ex_loc_1))))
            ex_two_sided = false) as Hc by (vm_compute; reflexivity).
  split; [exact ex_two_sided_reachable|]. split; [exact Hl|].
  split; [exact Hnp|]. split; [exact Hc|].
  destruct (amend_price_moves_to_back ex_two_sided 1 995 10 ex_loc_1
              ex_two_sided_reachable Hl Hnp Hc) as (l & b' & Hf & Ha & _).
  exists l, b'. split; [exact Hf | exact Ha].
Defined.

(** X16. Identifiers are not checked for uniqueness.  When an order is
    added under the identifier of an order that is still resting (and
    does not cross), the locator is redirected to the new order.  The
    older order stays queued, and after the identifier has been cancelled
    once, removing the new order, the older one still rests under that
    identifier but is unknown to [cancel_order] and [amend_order]. *)
Theorem duplicate_id_orphans_order (b : OrderBook) (order : Order) (loc : OrderLocation) :
  reachable b ->
  order_lookup_ b !! order_id order = Some loc ->
  crosses order b = false ->
  let p := (MemoryPool.allocate (order_pool_ b)).1 in
  let b1 := (add_order order b).1 in
  let b2 := (cancel_order (order_id order) b1).2 in
  p <> loc_order loc
  /\ order_lookup_ b1 !! order_id order
     = Some (mkOrderLocation p (is_buy order) (price order))
  /\ loc_order loc ∈ queued b1
  /\ (cancel_order (order_id order) b1).1 = true
  /\ (p ∉ queued b2)
  /\ loc_order loc ∈ queued b2
  /\ order_id (deref b2 (loc_order loc)) = order_id order
  /\ order_lookup_ b2 !! order_id order = None.
Proof.
  intros Hr Hl Hc. cbv zeta. destruct (reachable_inv b Hr) as [Hb Hu].
  destruct (inv_lookup_side b _ loc Hb Hl) as (l & o & Hf & Hin & Hco & Hid & Hp & Hs).
  rewrite (add_order_no_cross order b Hb Hu Hc). simpl.
  pose proof (inserted_inv order b Hb) as Hb1.
  destruct (inserted_cells order b Hb) as [Hfresh Hcells].
  destruct (inserted_fields order b) as (_ & Hsd & Hopp & Hlk & _).
  set (p := (MemoryPool.allocate (order_pool_ b)).1) in *.
  set (b1 := inserted order b) in *. simpl in Hsd, Hopp, Hlk.
  assert (p <> loc_order loc) as Hne by (intros Heq; congruence).
  assert (loc_order loc ∈ queued b) as Hq.
  { apply elem_queued. exists (is_bid loc).
    apply (side_orders_find (is_bid loc)); [apply (inv_side _ b Hb)|eauto]. }
  assert (loc_order loc ∈ queued b1) as Hq1.
  { apply elem_queued in Hq as [sd Hq]. apply elem_queued. exists sd.
    destruct (decide (sd = is_buy order)) as [->|Hsd'].
    - rewrite Hsd. apply (side_orders_push (is_buy order)); [|by right].
      apply (inv_side _ b Hb).
    - opposite_side sd (is_buy order). by rewrite Hopp. }
  assert (order_lookup_ b1 !! order_id order
          = Some (mkOrderLocation p (is_buy order) (price order))) as Hl1
    by by rewrite Hlk, lookup_insert_eq.
  destruct (inv_lookup_side b1 _ _ Hb1 Hl1) as (l1 & o1 & Hf1 & Hin1 & Hco1 & _).
  destruct (cancel_order_fields _ _ b1 l1 Hl1 Hf1)
    as (b2 & Hcancel & H1 & H2 & H3 & H4 & _).
  simpl in Hf1, Hin1, Hco1, H1, H2, H3.
  pose proof (cancel_order_inv (order_id order) b1 Hb1) as Hb2.
  rewrite Hcancel in *. simpl in *.
  assert (cells b2 !! p = None) as Hp2.
  { rewrite H3. simpl. apply lookup_delete_eq. }
  assert (cells b2 !! loc_order loc = Some o) as Ho2.
  { rewrite H3. simpl. rewrite lookup_delete_ne by done.
    rewrite Hcells. by rewrite lookup_insert_ne. }
  split; [done|]. split; [done|]. split; [done|]. split; [done|].
  split; [|split; [|split]].
  - intros Hin2. apply (queued_live b2 p Hb2) in Hin2. rewrite Hp2 in Hin2.
    by destruct Hin2.
  - apply elem_queued in Hq1 as [sd Hq1]. apply elem_queued. exists sd.
    destruct (decide (sd = is_buy order)) as [->|Hsd'].
    + rewrite H1. apply (side_orders_remove (is_buy order) _ _ l1 p); try done.
      apply (inv_side _ b1 Hb1).
    + opposite_side sd (is_buy order). by rewrite H2.
  - by rewrite (deref_cells b2 _ o Ho2).
  - rewrite H4. apply lookup_delete_eq.
Qed.

Lemma duplicate_id_orphans_order_witness :
  reachable ex_two_sided
  /\ order_lookup_ ex_two_sided !! order_id (mkOrder 1 true 990 5 0) = Some ex_loc_1
  /\ crosses (mkOrder 1 true 990 5 0) ex_two_sided = false
  /\ (MemoryPool.allocate (order_pool_ ex_two_sided)).1 <> loc_order ex_loc_1.
Proof.
  assert (order_lookup_ ex_two_sided !! order_id (mkOrder 1 true 990 5 0)
          = Some ex_loc_1) as Hl by (vm_compute; reflexivity).
  assert (crosses (mkOrder 1 true 990 5 0) ex_two_sided = false) as Hc
    by (vm_compute; reflexivity).
  split; [exact ex_two_sided_reachable|]. split; [exact Hl|]. split; [exact Hc|].
  exact (proj1 (duplicate_id_orphans_order ex_two_sided (mkOrder 1 true 990 5 0)
                  ex_loc_1 ex_two_sided_reachable Hl Hc)).
Defined.

End identifiers.

(** ** The outcome of one iteration of the crossing loop *)

Section fills.
Import SideMap Inv.
Implicit Types (b : OrderBook) (sd : bool) (k : Z) (l : PriceLevelData)
         (p q : nat) (o : Order) (m : SideMap.t).

Local Abbreviation cells b := (MemoryPool.cells (order_pool_ b)).

Lemma after_match_slots b kb pb ob ka pa oa :
  cells b !! pb = Some ob -> cells b !! pa = Some oa -> pb <> pa ->
  let tq := Z.min (quantity ob) (quantity oa) in
  let rb := wrap64 (quantity ob - tq) in
  let ra := wrap64 (quantity oa - tq) in
  let b' := after_match b kb pb ob ka pa oa in
  cells b' !! pb = (if rb =? 0 then None else Some (set_quantity rb ob))
  /\ cells b' !! pa = (if ra =? 0 then None else Some (set_quantity ra oa))
  /\ (forall q, q <> pb -> q <> pa -> cells b' !! q = cells b !! q)
  /\ (rb = 0 -> order_lookup_ b' !! order_id ob = None)
  /\ (ra = 0 -> order_lookup_ b' !! order_id oa = None).
Proof.
  intros Hcb Hca Hne. cbv zeta. unfold after_match.
  set (tq := Z.min (quantity ob) (quantity oa)).
  set (b1 := set_matched _ b).
  set (b5 := fill false ka pa tq (fill true kb pb tq b1)).
  assert (cells b5 = <[pa := set_quantity (wrap64 (quantity oa - tq)) oa]>
                       (<[pb := set_quantity (wrap64 (quantity ob - tq)) ob]> (cells b)))
    as Hc5.
  { unfold b5, fill, store_quantity, deref, MemoryPool.deref. simpl.
    rewrite lookup_total_insert_ne by done.
    by rewrite (lookup_total_correct _ _ _ Hcb), (lookup_total_correct _ _ _ Hca). }
  assert (order_lookup_ b5 = order_lookup_ b) as Hl5 by done.
  clearbody b5.
  set (b6 := if wrap64 (quantity ob - tq) =? 0 then _ else b5).
  assert (cells b6 = (if wrap64 (quantity ob - tq) =? 0
                      then delete pb (cells b5) else cells b5)
          /\ order_lookup_ b6 = (if wrap64 (quantity ob - tq) =? 0
                                 then delete (order_id ob) (order_lookup_ b5)
                                 else order_lookup_ b5)) as [Hc6 Hl6].
  { unfold b6. destruct (wrap64 (quantity ob - tq) =? 0); [|done].
    unfold remove_filled. simpl. split; [done|].
    unfold deref, MemoryPool.deref. rewrite Hc5.
    rewrite lookup_total_insert_ne by done. by rewrite lookup_total_insert_eq. }
  clearbody b6.
  set (b7 := if wrap64 (quantity oa - tq) =? 0 then _ else b6).
  assert (cells b7 = (if wrap64 (quantity oa - tq) =? 0
                      then delete pa (cells b6) else cells b6)
          /\ order_lookup_ b7 = (if wrap64 (quantity oa - tq) =? 0
                                 then delete (order_id oa) (order_lookup_ b6)
                                 else order_lookup_ b6)) as [Hc7 Hl7].
  { unfold b7. destruct (Z.eqb_spec (wrap64 (quantity oa - tq)) 0) as [Hz|Hnz]; [|done].
    unfold remove_filled. simpl. split; [done|].
    unfold deref, MemoryPool.deref. rewrite Hc6, Hc5.
    destruct (wrap64 (quantity ob - tq) =? 0).
    - rewrite lookup_total_delete_ne by done. by rewrite lookup_total_insert_eq.
    - by rewrite lookup_total_insert_eq. }
  clearbody b7. rewrite Hc7, Hc6, Hc5, Hl7, Hl6, Hl5.
  destruct (Z.eqb_spec (wrap64 (quantity ob - tq)) 0) as [Hzb|Hzb];
    destruct (Z.eqb_spec (wrap64 (quantity oa - tq)) 0) as [Hza|Hza];
    repeat split; intros;
    rewrite ?lookup_delete, ?lookup_insert; repeat case_decide; try done; try congruence.
Qed.

(** X17. One iteration of the crossing loop fills at least one of the
    two head orders completely.  A completely filled order leaves its
    queue, its slot and the locator; a partially filled order stays at
    the head of its queue with its remaining quantity, so it keeps its
    time priority.  The rest of both queues and every other order are
    untouched. *)
Theorem match_step_outcome (b b' : OrderBook) (t : TradeEvent) :
  book_inv b ->
  match_step b = Some (b', t) ->
  exists kb lb bt ka la at' pb qb pa qa,
    bids_ b = (kb, lb) :: bt /\ orders lb = pb :: qb
    /\ asks_ b = (ka, la) :: at' /\ orders la = pa :: qa
    /\ (wrap64 (quantity (deref b pb) - trade_quantity t) = 0
        \/ wrap64 (quantity (deref b pa) - trade_quantity t) = 0)
    /\ side_orders (bids_ b')
       = (if wrap64 (quantity (deref b pb) - trade_quantity t) =? 0
          then qb else pb :: qb) ++ side_orders bt
    /\ side_orders (asks_ b')
       = (if wrap64 (quantity (deref b pa) - trade_quantity t) =? 0
          then qa else pa :: qa) ++ side_orders at'
    /\ cells b' !! pb
       = (if wrap64 (quantity (deref b pb) - trade_quantity t) =? 0 then None
          else Some (set_quantity (wrap64 (quantity (deref b pb) - trade_quantity t))
                       (deref b pb)))
    /\ cells b' !! pa
       = (if wrap64 (quantity (deref b pa) - trade_quantity t) =? 0 then None
          else Some (set_quantity (wrap64 (quantity (deref b pa) - trade_quantity t))
                       (deref b pa)))
    /\ (forall q, q <> pb -> q <> pa -> cells b' !! q = cells b !! q)
    /\ (wrap64 (quantity (deref b pb) - trade_quantity t) = 0 ->
        order_lookup_ b' !! order_id (deref b pb) = None)
    /\ (wrap64 (quantity (deref b pa) - trade_quantity t) = 0 ->
        order_lookup_ b' !! order_id (deref b pa) = None).
Proof.
  intros Hb Hstep.
  destruct (match_step_Some b b' t Hb Hstep)
    as (kb & lb & bt & ka & la & at' & pb & qb & pa & qa & ob & oa &
        Hbids & Hasks & Hlb & Hla & Hcb & Hca & Hpb & Hsb & Hpa & Hsa & Hle & -> & ->).
  assert (pb <> pa) as Hne by (intros ->; congruence).
  exists kb, lb, bt, ka, la, at', pb, qb, pa, qa.
  rewrite (deref_cells b pb ob Hcb), (deref_cells b pa oa Hca). simpl.
  rewrite (after_match_bids b kb lb bt pb ob ka pa oa Hbids).
  rewrite (after_match_asks b kb pb ob ka la at' pa oa Hasks).
  rewrite !side_orders_after_fill, Hlb, Hla.
  destruct (after_match_slots b kb pb ob ka pa oa Hcb Hca Hne)
    as (H1 & H2 & H3 & H4 & H5).
  split; [done|]. split; [done|]. split; [done|]. split; [done|].
  split; [apply min_fills_one|].
  split; [by destruct (wrap64 (quantity ob - _) =? 0)|].
  split; [by destruct (wrap64 (quantity oa - _) =? 0)|].
  done.
Qed.

Lemma match_step_outcome_witness :
  book_inv ex_crossed
  /\ match_step ex_crossed
     = Some ((default (ex_crossed, mkTradeEvent 0 0 0 0) (match_step ex_crossed)).1,
             mkTradeEvent 1 7 50 990)
  /\ exists pb pa,
       wrap64 (quantity (deref ex_crossed pb) - trade_quantity (mkTradeEvent 1 7 50 990)) = 0
       \/ wrap64 (quantity (deref ex_crossed pa) - trade_quantity (mkTradeEvent 1 7 50 990)) = 0.
Proof.
  assert (match_step ex_crossed
          = Some ((default (ex_crossed, mkTradeEvent 0 0 0 0) (match_step ex_crossed)).1,
                  mkTradeEvent 1 7 50 990)) as Hstep.
  { assert ((snd <$> match_step ex_crossed) = Some (mkTradeEvent 1 7 50 990)) as H
      by (vm_compute; reflexivity).
    destruct (match_step ex_crossed) as [[b1 t1]|]; [|discriminate H].
    simpl in *. congruence. }
  split; [exact ex_crossed_inv|]. split; [exact Hstep|].
  destruct (match_step_outcome ex_crossed _ _ ex_crossed_inv Hstep)
    as (kb & lb & bt & ka & la & at' & pb & qb & pa & qa & _ & _ & _ & _ & H & _).
  exists pb, pa. exact H.
Defined.

End fills.

(** ** Unique identifiers make the locator complete *)

Section unique_ids.
Import SideMap Inv.
Implicit Types (b : OrderBook) (sd : bool) (k : Z) (l : PriceLevelData)
         (p q : nat) (o : Order) (m : SideMap.t).

Local Abbreviation cells b := (MemoryPool.cells (order_pool_ b)).

Lemma list_erase_self p ps : NoDup ps -> p ∉ list_erase p ps.
Proof.
  induction ps as [|x ps IH]; simpl; [intros _ ?%elem_of_nil; done|].
  intros [Hx Hnd]%NoDup_cons. destruct (Nat.eqb_spec x p) as [->|Hne]; [done|].
  apply not_elem_of_cons. split; [congruence | by apply IH].
Qed.

Lemma deref_store_other b b' p o' q :
  order_pool_ b' = MemoryPool.store p o' (order_pool_ b) -> q <> p ->
  deref b' q = deref b q.
Proof.
  intros Hpool Hne. unfold deref, MemoryPool.deref. rewrite Hpool. simpl.
  by rewrite lookup_total_insert_ne.
Qed.

Lemma deref_store_same b b' p o' :
  order_pool_ b' = MemoryPool.store p o' (order_pool_ b) -> deref b' p = o'.
Proof.
  intros Hpool. unfold deref, MemoryPool.deref. rewrite Hpool. simpl.
  by rewrite lookup_total_insert_eq.
Qed.

Lemma indexed_requantify b b' sd k p o o' f :
  indexed b -> cells b !! p = Some o -> order_id o' = order_id o ->
  (forall l, orders (f l) = orders l) ->
  order_pool_ b' = MemoryPool.store p o' (order_pool_ b) ->
  side sd b' = modify k f (side sd b) ->
  side (negb sd) b' = side (negb sd) b ->
  order_lookup_ b' = order_lookup_ b ->
  indexed b'.
Proof.
  intros Hidx Hc Hid Hf Hpool Hsd Hopp Hlk sd' k' l' q Hfind Hq.
  assert (exists l'', find k' (side sd' b) = Some l'' /\ q ∈ orders l'')
    as (l'' & Hfind' & Hq').
  { destruct (decide (sd' = sd)) as [->|Hne].
    - rewrite Hsd, find_modify in Hfind.
      destruct (decide (k' = k)) as [->|Hk]; [|eauto].
      destruct (find k (side sd b)) as [l0|]; [|done].
      injection Hfind as <-. rewrite Hf in Hq. eauto.
    - opposite_side sd' sd. rewrite Hopp in Hfind. eauto. }
  rewrite Hlk. rewrite <- (Hidx sd' k' l'' q Hfind' Hq'). f_equal.
  destruct (decide (q = p)) as [->|Hne].
  - rewrite (deref_store_same b b' p o' Hpool), (deref_cells b p o Hc). done.
  - by rewrite (deref_store_other b b' p o' q Hpool).
Qed.

Lemma indexed_remove b b' sd k l0 p f :
  book_inv b -> indexed b ->
  find k (side sd b) = Some l0 -> p ∈ orders l0 ->
  orders (f l0) = list_erase p (orders l0) ->
  order_pool_ b' = MemoryPool.deallocate p (order_pool_ b) ->
  side sd b' = erase_if_empty k (modify k f (side sd b)) ->
  side (negb sd) b' = side (negb sd) b ->
  order_lookup_ b' = delete (order_id (deref b p)) (order_lookup_ b) ->
  indexed b'.
Proof.
  intros Hb Hidx Hf0 Hp Ho Hpool Hsd Hopp Hlk sd' k' l' q Hfind Hq.
  pose proof (inv_side sd b Hb) as Hok.
  destruct (levels_ok_owner sd _ _ _ _ _ Hok Hf0 Hp) as (op & Hcp & Hpp & Hsp).
  assert (exists l'', find k' (side sd' b) = Some l'' /\ q ∈ orders l'' /\ q <> p)
    as (l'' & Hfind' & Hq' & Hne).
  { destruct (decide (sd' = sd)) as [->|Hsd'].
    - rewrite Hsd in Hfind.
      rewrite (find_erase_if_empty sd) in Hfind by (by apply sorted_modify, Hok).
      destruct (decide (k' = k)) as [->|Hk].
      + rewrite find_modify, decide_True, Hf0 in Hfind by done. simpl in Hfind.
        destruct (orders (f l0)) eqn:Hfl; [done|]. injection Hfind as <-.
        rewrite Hfl, Ho in Hq. exists l0.
        split; [done|]. split; [by apply elem_list_erase in Hq|].
        intros ->. revert Hq. apply list_erase_self.
        apply (level_nodup _ _ _ _ (proj2 Hok _ _ Hf0)).
      + rewrite find_modify, decide_False in Hfind by done.
        exists l'. split; [done|]. split; [done|]. intros ->.
        destruct (levels_ok_owner sd _ _ _ _ _ Hok Hfind Hq) as (oq & Hcq & Hpq & _).
        congruence.
    - exists l'. opposite_side sd' sd. rewrite Hopp in Hfind.
      split; [done|]. split; [done|]. intros ->.
      destruct (levels_ok_owner (negb sd) _ _ _ _ _ (inv_side (negb sd) b Hb) Hfind Hq)
        as (oq & Hcq & _ & Hsq).
      destruct sd; congruence. }
  assert (deref b' q = deref b q) as ->.
  { unfold deref, MemoryPool.deref. rewrite Hpool. simpl.
    by rewrite lookup_total_delete_ne. }
  pose proof (Hidx sd' k' l'' q Hfind' Hq') as Hlq.
  pose proof (Hidx sd k l0 p Hf0 Hp) as Hlp.
  rewrite Hlk, lookup_delete_ne; [done|].
  intros Heq. rewrite Heq in Hlp. congruence.
Qed.

Lemma indexed_insert b b' p o pool1 :
  book_inv b -> indexed b ->
  cells b !! p = None ->
  MemoryPool.cells pool1 = <[p := Order_default]> (cells b) ->
  order_pool_ b' = MemoryPool.store p o pool1 ->
  side (is_buy o) b' =
    modify (price o) (push_order p (quantity o))
      (find_or_emplace (is_buy o) (price o) (side (is_buy o) b)) ->
  side (negb (is_buy o)) b' = side (negb (is_buy o)) b ->
  order_lookup_ b' =
    <[order_id o := mkOrderLocation p (is_buy o) (price o)]> (order_lookup_ b) ->
  order_lookup_ b !! order_id o = None ->
  indexed b'.
Proof.
  intros Hb Hidx Hfresh Hcells Hpool Hsd Hopp Hlk Hnew sd' k' l' q Hfind Hq.
  assert (forall q', deref b' q' = if decide (q' = p) then o else deref b q') as Hderef.
  { intros q'. unfold deref, MemoryPool.deref. rewrite Hpool. simpl. rewrite Hcells.
    case_decide as Hq'; [subst; by rewrite lookup_total_insert_eq|].
    by rewrite !lookup_total_insert_ne. }
  assert ((q = p /\ sd' = is_buy o /\ k' = price o)
          \/ exists l'', find k' (side sd' b) = Some l'' /\ q ∈ orders l'')
    as [(-> & -> & ->)|(l'' & Hfind' & Hq')].
  { destruct (decide (sd' = is_buy o)) as [->|Hsd'].
    - rewrite Hsd in Hfind.
      destruct (decide (k' = price o)) as [->|Hk].
      + rewrite find_modify, decide_True in Hfind by done.
        rewrite (find_find_or_emplace (is_buy o)), decide_True in Hfind by done.
        simpl in Hfind.
        injection Hfind as <-. simpl in Hq.
        apply elem_of_app in Hq as [Hq|Hq]; [|apply list_elem_of_singleton in Hq; by left].
        right. destruct (find (price o) (side (is_buy o) b)) as [l0|]; [eauto|].
        by apply elem_of_nil in Hq.
      + rewrite find_modify, decide_False in Hfind by done.
        rewrite (find_find_or_emplace (is_buy o)), decide_False in Hfind by done.
        eauto.
    - opposite_side sd' (is_buy o). rewrite Hopp in Hfind. eauto. }
  - rewrite Hderef, decide_True by done. by rewrite Hlk, lookup_insert_eq.
  - destruct (levels_ok_owner sd' _ _ _ _ _ (inv_side sd' b Hb) Hfind' Hq')
      as (oq & Hcq & _).
    rewrite Hderef, decide_False by congruence.
    pose proof (Hidx sd' k' l'' q Hfind' Hq') as Hlq.
    rewrite Hlk, lookup_insert_ne; [done|]. intros Heq. congruence.
Qed.

Lemma indexed_same b b' :
  indexed b -> bids_ b' = bids_ b -> asks_ b' = asks_ b ->
  order_pool_ b' = order_pool_ b -> order_lookup_ b' = order_lookup_ b ->
  indexed b'.
Proof.
  intros Hidx Hb Ha Hp Hl sd k l p Hf Hin.
  unfold deref. rewrite Hp, Hl. apply (Hidx sd k l p); [|done].
  destruct sd; simpl in *; congruence.
Qed.

Lemma fill_indexed sd k l p o t b :
  indexed b -> cells b !! p = Some o -> indexed (fill sd k p t b).
Proof.
  intros Hidx Hc.
  apply (indexed_requantify b _ sd k p o
           (set_quantity (wrap64 (quantity o - t)) o) (sub_total t)); try done.
  - unfold fill, store_quantity. rewrite (deref_cells b p o Hc). by destruct sd.
  - unfold fill. by destruct sd.
  - unfold fill. by destruct sd.
  - unfold fill. by destruct sd.
Qed.

Lemma remove_filled_indexed sd k l p rest b :
  book_inv b -> indexed b ->
  find k (side sd b) = Some l -> orders l = p :: rest ->
  indexed (remove_filled sd k p b).
Proof.
  intros Hb Hidx Hf Hl.
  destruct (remove_filled_fields sd k p b) as (H1 & H2 & H3 & H4 & _).
  apply (indexed_remove b _ sd k l p pop_front); try done.
  - rewrite Hl. left.
  - simpl. by rewrite Hl, list_erase_head.
Qed.

Lemma match_step_indexed b b' t :
  book_inv b -> indexed b -> match_step b = Some (b', t) -> indexed b'.
Proof.
  intros Hb Hidx Hstep.
  destruct (match_step_Some b b' t Hb Hstep)
    as (kb & lb & bt & ka & la & at' & pb & qb & pa & qa & ob & oa &
        Hbids & Hasks & Hlb & Hla & Hcb & Hca & Hpb & Hsb & Hpa & Hsa & Hle & -> & _).
  clear Hstep. assert (pb <> pa) as Hne by (intros ->; congruence).
  unfold after_match.
  set (tq := Z.min (quantity ob) (quantity oa)).
  set (b1 := set_matched _ b).
  assert (book_inv b1) as Hb1 by (apply set_matched_inv, counter_ok_wrap64; done).
  assert (indexed b1) as Hi1 by by apply (indexed_same b).
  set (b2 := fill true kb pb tq b1).
  assert (book_inv b2) as Hb2.
  { apply (fill_inv true kb lb pb ob); try done.
    - by apply (side_head_find true b kb lb bt).
    - rewrite Hlb. left. }
  assert (indexed b2) as Hi2 by by apply (fill_indexed true kb lb pb ob).
  assert (cells b2 !! pa = Some oa) as Hca2.
  { unfold b2, fill, store_quantity. simpl. by rewrite lookup_insert_ne. }
  set (b5 := fill false ka pa tq b2).
  assert (book_inv b5) as Hb5.
  { apply (fill_inv false ka la pa oa); try done.
    - apply (side_head_find false b2 ka la at'). unfold b2, fill. simpl. done.
    - rewrite Hla. left. }
  assert (indexed b5) as Hi5 by by apply (fill_indexed false ka la pa oa).
  assert (cells b5 !! pb = Some (set_quantity (wrap64 (quantity ob - tq)) ob)) as Hcb5.
  { unfold b5, b2, fill, store_quantity, deref, MemoryPool.deref. simpl.
    rewrite lookup_insert_ne by done.
    by rewrite lookup_insert_eq, (lookup_total_correct _ _ _ Hcb). }
  set (b6 := if wrap64 (quantity ob - tq) =? 0 then _ else b5).
  assert (book_inv b6 /\ indexed b6 /\ asks_ b6 = (ka, sub_total tq la) :: at')
    as (Hb6 & Hi6 & Hasks6).
  { assert (asks_ b5 = (ka, sub_total tq la) :: at') as Hasks5.
    { unfold b5, b2, fill. simpl. rewrite Hasks. simpl. by rewrite Z.eqb_refl. }
    assert (find kb (side true b5) = Some (sub_total tq lb)) as Hf5.
    { unfold b5, b2, fill. simpl. rewrite Hbids. simpl. rewrite Z.eqb_refl.
      simpl. by rewrite Z.eqb_refl. }
    unfold b6. destruct (Z.eqb_spec (wrap64 (quantity ob - tq)) 0) as [Hz|Hnz].
    - split; [|split].
      + by apply (remove_filled_inv true kb (sub_total tq lb) pb qb
                    (set_quantity (wrap64 (quantity ob - tq)) ob)).
      + by apply (remove_filled_indexed true kb (sub_total tq lb) pb qb).
      + done.
    - done. }
  destruct (Z.eqb_spec (wrap64 (quantity oa - tq)) 0) as [Hz|Hnz]; [|done].
  apply (remove_filled_indexed false ka (sub_total tq la) pa qa); try done.
  by apply (side_head_find false b6 ka _ at').
Qed.

Lemma match_loop_indexed fuel b :
  book_inv b -> indexed b -> indexed (match_loop fuel b).1.
Proof.
  revert b. induction fuel as [|fuel IH]; intros b Hb Hidx; simpl; [done|].
  destruct (match_step b) as [[b' t]|] eqn:Hstep; [|done].
  specialize (IH b' (match_step_inv b b' t Hb Hstep)
                (match_step_indexed b b' t Hb Hidx Hstep)).
  by destruct (match_loop fuel b').
Qed.

Lemma add_order_indexed order b :
  book_inv b -> indexed b -> order_lookup_ b !! order_id order = None ->
  indexed (add_order order b).1.
Proof.
  intros Hb Hidx Hnew. rewrite add_order_inserted.
  apply match_loop_indexed; [by apply inserted_inv|].
  destruct (inserted_fields order b) as (H1 & H2 & H3 & H4 & _).
  destruct (MemoryPool.allocate (order_pool_ b)) as [p pool1] eqn:Hal.
  destruct (allocate_spec _ _ _ (inv_pool b Hb) Hal) as (Hfresh & Hc1 & Hp1).
  simpl in *.
  by apply (indexed_insert b _ p order pool1).
Qed.

Lemma cancel_order_indexed id b :
  book_inv b -> indexed b -> indexed (cancel_order id b).2.
Proof.
  intros Hb Hidx. destruct (order_lookup_ b !! id) as [loc|] eqn:Hl.
  2:{ unfold cancel_order. by rewrite Hl. }
  destruct (inv_lookup_side b id loc Hb Hl) as (l & o & Hf & Hin & Hc & Hid & Hp & Hs).
  destruct (cancel_order_fields id loc b l Hl Hf)
    as (b' & -> & H1 & H2 & H3 & H4 & _). simpl.
  apply (indexed_remove b b' (is_bid loc) (loc_price loc) l (loc_order loc)
           (unlink_order (loc_order loc) (quantity (deref b (loc_order loc)))));
    try done.
  by rewrite (deref_cells b _ o Hc), Hid.
Qed.

Lemma cancel_order_forgets_id id b : order_lookup_ (cancel_order id b).2 !! id = None.
Proof.
  unfold cancel_order. destruct (order_lookup_ b !! id) as [loc|] eqn:Hl; [|done].
  simpl. apply lookup_delete_eq.
Qed.

Lemma amended_indexed id loc new_quantity b :
  book_inv b -> indexed b -> order_lookup_ b !! id = Some loc ->
  indexed (amended loc new_quantity b).
Proof.
  intros Hb Hidx Hl.
  destruct (inv_lookup_side b id loc Hb Hl) as (l & o & Hf & Hin & Hc & Hid & Hp & Hs).
  apply (indexed_requantify b _ (is_bid loc) (loc_price loc) (loc_order loc) o
           (set_quantity new_quantity o) (amend_total (quantity o) new_quantity));
    try done.
  - unfold amended, store_quantity. rewrite (deref_cells b _ o Hc).
    by destruct (is_bid loc).
  - unfold amended. rewrite (deref_cells b _ o Hc). by destruct (is_bid loc).
  - unfold amended. by destruct (is_bid loc).
  - unfold amended. by destruct (is_bid loc).
Qed.

Lemma amend_order_indexed id new_price new_quantity b :
  book_inv b -> indexed b ->
  indexed (amend_order id new_price new_quantity b).1.2.
Proof.
  intros Hb Hidx. unfold amend_order.
  destruct (order_lookup_ b !! id) as [loc|] eqn:Hl; [|done].
  destruct (inv_lookup_side b id loc Hb Hl) as (l & o & Hf & Hin & Hc & Hid & Hp & Hs).
  rewrite (deref_cells b _ o Hc).
  destruct (negb (new_price =? price o)).
  - pose proof (cancel_order_inv id b Hb) as Hb1.
    pose proof (cancel_order_indexed id b Hb Hidx) as Hi1.
    pose proof (cancel_order_forgets_id id b) as Hnew.
    destruct (cancel_order id b) as [r b1]. simpl in Hb1, Hi1, Hnew.
    set (new_order := mkOrder _ _ _ _ _).
    assert (order_lookup_ b1 !! order_id new_order = None) as Hnew'
      by (simpl; by rewrite Hid).
    pose proof (add_order_indexed new_order b1 Hb1 Hi1 Hnew') as Hi2.
    by destruct (add_order new_order b1).
  - destruct (negb (new_quantity =? quantity o)); [|done].
    pose proof (match_loop_indexed (live_orders (amended loc new_quantity b)) _
                  (amended_inv id loc new_quantity b Hb Hl)
                  (amended_indexed id loc new_quantity b Hb Hidx Hl)) as Hi3.
    fold (match_orders (amended loc new_quantity b)) in Hi3.
    unfold amended in Hi3. rewrite (deref_cells b _ o Hc) in Hi3.
    by destruct (match_orders _).
Qed.

Lemma reachable_fresh_reachable b : reachable_fresh b -> reachable b.
Proof. induction 1; [constructor | by constructor]. Qed.

Lemma reachable_fresh_indexed b : reachable_fresh b -> indexed b.
Proof.
  induction 1 as [|op b Hr Hidx Hfresh]; [by intros sd k l p ?; destruct sd|].
  destruct (reachable_inv b (reachable_fresh_reachable b Hr)) as [Hb _].
  destruct op as [order|id|id np nq|]; simpl in *.
  - apply add_order_indexed; try done. by apply bool_decide_eq_true in Hfresh.
  - by apply cancel_order_indexed.
  - pose proof (amend_order_indexed id np nq b Hb Hidx) as H.
    by destruct (amend_order id np nq b) as [[r b'] ts].
  - by intros sd k l p ?; destruct sd.
Qed.

Lemma reachable_fresh_run ops b :
  reachable_fresh b -> fresh_run ops b = true -> reachable_fresh (run ops b).1.
Proof.
  revert b. induction ops as [|op ops IH]; intros b Hb Hfr; simpl in *; [done|].
  apply andb_true_iff in Hfr as [Hf1 Hf2].
  pose proof (reachable_fresh_step op b Hb Hf1) as Hb1.
  destruct (step op b) as [b1 ts1]. specialize (IH b1 Hb1 Hf2).
  by destruct (run ops b1).
Qed.

Lemma NoDup_map_on {A B} (f : A -> B) (xs : list A) :
  NoDup xs -> (forall x y, x ∈ xs -> y ∈ xs -> f x = f y -> x = y) ->
  NoDup (map f xs).
Proof.
  induction 1 as [|x xs Hx Hnd IH]; intros Hinj; simpl; [constructor|].
  constructor.
  - intros (y & Hfy & Hy)%list_elem_of_In%in_map_iff. apply list_elem_of_In in Hy.
    assert (x = y) as -> by (apply Hinj; [left | by right | done]). done.
  - apply IH. intros y z Hy Hz. apply Hinj; by right.
Qed.

(** X18. As long as the client never adds an order under an identifier
    that is still in the locator, the locator is complete: every queued
    order is designated by the entry of its own identifier, with its slot,
    side and price, so it can be cancelled, and no two queued orders share
    an identifier. *)
Theorem unique_ids_locator_complete (b : OrderBook) :
  reachable_fresh b ->
  (forall sd k l p,
     find k (side sd b) = Some l -> p ∈ orders l ->
     order_lookup_ b !! order_id (deref b p) = Some (mkOrderLocation p sd k)
     /\ (cancel_order (order_id (deref b p)) b).1 = true)
  /\ NoDup (resting_ids b true ++ resting_ids b false).
Proof.
  intros Hr. pose proof (reachable_fresh_indexed b Hr) as Hidx.
  destruct (reachable_inv b (reachable_fresh_reachable b Hr)) as [Hb _].
  split.
  - intros sd k l p Hf Hp. pose proof (Hidx sd k l p Hf Hp) as Hl.
    split; [done|]. unfold cancel_order. by rewrite Hl.
  - unfold resting_ids. simpl. rewrite <- map_app.
    apply NoDup_map_on; [by apply queued_NoDup|].
    intros p q [sd Hp]%elem_queued [sd' Hq]%elem_queued Heq.
    apply (side_orders_find sd) in Hp as (k & l & Hf & Hp); [|apply (inv_side sd b Hb)].
    apply (side_orders_find sd') in Hq as (k' & l' & Hf' & Hq);
      [|apply (inv_side sd' b Hb)].
    pose proof (Hidx sd k l p Hf Hp) as H1.
    pose proof (Hidx sd' k' l' q Hf' Hq) as H2.
    rewrite Heq in H1. congruence.
Qed.

Lemma unique_ids_locator_complete_witness :
  reachable_fresh ex_two_sided
  /\ NoDup (resting_ids ex_two_sided true ++ resting_ids ex_two_sided false).
Proof.
  assert (reachable_fresh ex_two_sided) as Hr.
  { apply reachable_fresh_run; [apply reachable_fresh_new|]. vm_compute. reflexivity. }
  split; [exact Hr|].
  exact (proj2 (unique_ids_locator_complete ex_two_sided Hr)).
Defined.

End unique_ids.

(** ** Matching conserves quantity *)

Section volume.
Import SideMap Inv.
Implicit Types (b : OrderBook) (sd : bool) (k : Z) (l : PriceLevelData)
         (p q : nat) (o : Order) (m : SideMap.t).

Local Abbreviation cells b := (MemoryPool.cells (order_pool_ b)).

Lemma sum_quantity_perm cs (ps ps' : list nat) :
  ps ≡ₚ ps' -> sum_quantity cs ps = sum_quantity cs ps'.
Proof. induction 1; simpl; lia. Qed.

Lemma side_orders_cons k l m : side_orders ((k, l) :: m) = orders l ++ side_orders m.
Proof. done. Qed.

Lemma side_orders_modify_push k p qty l m :
  find k m = Some l ->
  side_orders (modify k (push_order p qty) m) ≡ₚ p :: side_orders m.
Proof.
  induction m as [|[k' l'] m IH]; simpl; [done|].
  destruct (k' =? k); intros Hf.
  - rewrite !side_orders_cons. simpl. rewrite <- app_assoc. simpl.
    by rewrite <- Permutation_middle.
  - rewrite !side_orders_cons, (IH Hf). by rewrite <- Permutation_middle.
Qed.

Lemma side_orders_emplace_new sd k m :
  side_orders (emplace sd k (PriceLevelData_new k) m) = side_orders m.
Proof.
  induction m as [|[k' l'] m IH]; simpl; [done|].
  destruct (before sd k k'); [done|]. destruct (before sd k' k); [|done].
  by rewrite !side_orders_cons, IH.
Qed.

Lemma side_orders_find_or_emplace sd k m :
  side_orders (find_or_emplace sd k m) = side_orders m.
Proof.
  unfold find_or_emplace. destruct (find k m); [done|apply side_orders_emplace_new].
Qed.

Lemma queued_inserted order b :
  queued (inserted order b) ≡ₚ (MemoryPool.allocate (order_pool_ b)).1 :: queued b.
Proof.
  destruct (inserted_fields order b) as (_ & Hsd & Hopp & _). simpl in *.
  set (p := (MemoryPool.allocate (order_pool_ b)).1) in *.
  assert (side_orders (side (is_buy order) (inserted order b))
          ≡ₚ p :: side_orders (side (is_buy order) b)) as Hperm.
  { rewrite Hsd.
    rewrite (side_orders_modify_push _ _ _
               (default (PriceLevelData_new (price order))
                  (find (price order) (side (is_buy order) b)))).
    - by rewrite side_orders_find_or_emplace.
    - by rewrite (find_find_or_emplace (is_buy order)), decide_True. }
  unfold queued. destruct (is_buy order); simpl in *.
  - by rewrite Hperm, Hopp.
  - rewrite Hperm, Hopp. by rewrite <- Permutation_middle.
Qed.

Lemma inserted_volume order b :
  book_inv b ->
  resting_volume (inserted order b) = resting_volume b + quantity order.
Proof.
  intros Hb. unfold resting_volume.
  destruct (inserted_cells order b Hb) as [Hfresh Hcells].
  set (p := (MemoryPool.allocate (order_pool_ b)).1) in *.
  rewrite (sum_quantity_perm _ _ _ (queued_inserted order b)). fold p. simpl.
  rewrite Hcells, lookup_total_insert_eq.
  rewrite (sum_quantity_agree (cells b)); [lia|].
  intros q Hq. rewrite lookup_insert_ne; [done|]. intros ->.
  apply (queued_live b _ Hb) in Hq. rewrite Hfresh in Hq. by destruct Hq.
Qed.

Lemma inserted_quantities_ok order b :
  book_inv b -> quantities_ok b -> 0 <= quantity order < 2 ^ 64 ->
  quantities_ok (inserted order b).
Proof.
  intros Hb Hq Ho p o. destruct (inserted_cells order b Hb) as [_ ->].
  rewrite lookup_insert. case_decide; [by intros [= <-]|apply Hq].
Qed.

Lemma match_step_volume b b' t :
  book_inv b -> quantities_ok b -> match_step b = Some (b', t) ->
  quantities_ok b'
  /\ resting_volume b' = resting_volume b - 2 * trade_quantity t
  /\ 0 <= trade_quantity t.
Proof.
  intros Hb Hqok Hstep.
  pose proof (queued_NoDup b Hb) as Hnd.
  destruct (match_step_Some b b' t Hb Hstep)
    as (kb & lb & bt & ka & la & at' & pb & qb & pa & qa & ob & oa &
        Hbids & Hasks & Hlb & Hla & Hcb & Hca & Hpb & Hsb & Hpa & Hsa & Hle & -> & ->).
  assert (pb <> pa) as Hne by (intros ->; congruence).
  destruct (after_match_slots b kb pb ob ka pa oa Hcb Hca Hne)
    as (H1 & H2 & H3 & _). simpl.
  pose proof (Hqok pb ob Hcb) as Hrb. pose proof (Hqok pa oa Hca) as Hra.
  set (tq := Z.min (quantity ob) (quantity oa)) in *.
  assert (0 <= tq <= quantity ob /\ tq <= quantity oa) as Htq by (unfold tq; lia).
  assert (wrap64 (quantity ob - tq) = quantity ob - tq) as Hwb
    by (apply wrap64_small; lia).
  assert (wrap64 (quantity oa - tq) = quantity oa - tq) as Hwa
    by (apply wrap64_small; lia).
  rewrite Hwb in H1. rewrite Hwa in H2.
  set (b' := after_match b kb pb ob ka pa oa) in *.
  split; [|split; [|lia]].
  - intros q o Hq. destruct (decide (q = pb)) as [->|Hqb].
    { rewrite H1 in Hq. destruct (quantity ob - tq =? 0); [done|].
      injection Hq as <-. simpl. lia. }
    destruct (decide (q = pa)) as [->|Hqa].
    { rewrite H2 in Hq. destruct (quantity oa - tq =? 0); [done|].
      injection Hq as <-. simpl. lia. }
    rewrite H3 in Hq by done. by apply (Hqok q).
  - unfold resting_volume, queued in *. fold b'.
    unfold b' at 2 3.
    rewrite (after_match_bids b kb lb bt pb ob ka pa oa Hbids).
    rewrite (after_match_asks b kb pb ob ka la at' pa oa Hasks).
    rewrite !side_orders_after_fill. fold tq. rewrite Hwb, Hwa.
    rewrite Hbids, Hasks, !side_orders_cons, Hlb, Hla in *. simpl in Hnd. simpl.
    apply NoDup_cons in Hnd as [Hpb_notin Hnd].
    rewrite <- app_assoc in Hnd, Hpb_notin.
    apply not_elem_of_app in Hpb_notin as [Hpb1 Hpb2].
    apply NoDup_app in Hnd as (_ & Hdisj & Hnd).
    apply not_elem_of_app in Hpb2 as [Hpb2 Hpb3].
    apply not_elem_of_cons in Hpb3 as [_ Hpb3].
    apply not_elem_of_app in Hpb3 as [Hpb3 Hpb4].
    apply NoDup_app in Hnd as (_ & Hdisj2 & Hnd).
    apply NoDup_cons in Hnd as [Hpa_notin _].
    apply not_elem_of_app in Hpa_notin as [Hpa3 Hpa4].
    assert (pa ∉ qb) as Hpa1.
    { intros Hin. apply (Hdisj pa Hin). apply elem_of_app. right. left. }
    assert (pa ∉ side_orders bt) as Hpa2.
    { intros Hin. apply (Hdisj2 pa Hin). left. }
    rewrite !sum_quantity_app.
    assert (forall ps, pb ∉ ps -> pa ∉ ps ->
              sum_quantity (cells b') ps = sum_quantity (cells b) ps) as Hrest.
    { intros ps Hb1 Ha1. apply sum_quantity_agree. intros q Hq. apply H3.
      - intros ->. done.
      - intros ->. done. }
    rewrite (lookup_total_correct _ _ _ Hcb). simpl.
    rewrite !sum_quantity_app, (lookup_total_correct _ _ _ Hca).
    destruct (Z.eqb_spec (quantity ob - tq) 0) as [Hzb|Hzb];
      destruct (Z.eqb_spec (quantity oa - tq) 0) as [Hza|Hza]; simpl;
      rewrite ?sum_quantity_app, ?lookup_total_alt, ?H1, ?H2, !Hrest by done;
      simpl; lia.
Qed.

Lemma match_loop_volume fuel b :
  book_inv b -> quantities_ok b ->
  quantities_ok (match_loop fuel b).1
  /\ resting_volume (match_loop fuel b).1
     = resting_volume b - 2 * traded_volume (match_loop fuel b).2
  /\ Forall (fun t => 0 <= trade_quantity t) (match_loop fuel b).2.
Proof.
  revert b. induction fuel as [|fuel IH]; intros b Hb Hq; simpl.
  { split; [done|]. split; [lia|constructor]. }
  destruct (match_step b) as [[b' t]|] eqn:Hstep; simpl.
  2:{ split; [done|]. split; [lia|constructor]. }
  destruct (match_step_volume b b' t Hb Hq Hstep) as (Hq' & Hv & Ht).
  destruct (IH b' (match_step_inv b b' t Hb Hstep) Hq') as (Hq'' & Hv' & Hts).
  destruct (match_loop fuel b') as [b'' ts]. simpl in *.
  split; [done|]. split; [lia|by constructor].
Qed.

Lemma add_order_volume order b :
  book_inv b -> quantities_ok b -> 0 <= quantity order < 2 ^ 64 ->
  quantities_ok (add_order order b).1
  /\ resting_volume (add_order order b).1 + 2 * traded_volume (add_order order b).2
     = resting_volume b + quantity order
  /\ Forall (fun t => 0 <= trade_quantity t) (add_order order b).2.
Proof.
  intros Hb Hq Ho. rewrite add_order_inserted. unfold match_orders.
  destruct (match_loop_volume (live_orders (inserted order b)) (inserted order b)
              (inserted_inv order b Hb) (inserted_quantities_ok order b Hb Hq Ho))
    as (Hq' & Hv & Hts).
  split; [done|]. split; [|done]. rewrite Hv, (inserted_volume order b Hb). lia.
Qed.

Lemma cancel_order_quantities_ok id b :
  quantities_ok b -> quantities_ok (cancel_order id b).2.
Proof.
  intros Hq. unfold cancel_order. destruct (order_lookup_ b !! id) as [loc|]; [|done].
  simpl. unfold remove_order_from_book.
  destruct (find (loc_price loc) (side (is_bid loc) b)) as [l|]; [|done].
  intros p o. destruct (is_bid loc); simpl; rewrite lookup_delete;
    (case_decide; [done|apply Hq]).
Qed.

Lemma amended_quantities_ok loc new_quantity b :
  quantities_ok b -> 0 <= new_quantity < 2 ^ 64 ->
  quantities_ok (amended loc new_quantity b).
Proof.
  intros Hq Hn p o.
  destruct (amended_fields loc new_quantity b) as (_ & _ & -> & _).
  rewrite lookup_insert. case_decide; [by intros [= <-]|apply Hq].
Qed.

Lemma amend_order_quantities_ok id new_price new_quantity b :
  book_inv b -> quantities_ok b -> 0 <= new_quantity < 2 ^ 64 ->
  quantities_ok (amend_order id new_price new_quantity b).1.2.
Proof.
  intros Hb Hq Hn. unfold amend_order.
  destruct (order_lookup_ b !! id) as [loc|] eqn:Hl; [|done].
  destruct (negb (new_price =? price (deref b (loc_order loc)))).
  - pose proof (cancel_order_inv id b Hb) as Hb1.
    pose proof (cancel_order_quantities_ok id b Hq) as Hq1.
    destruct (cancel_order id b) as [r b1]. simpl in Hb1, Hq1.
    set (new_order := mkOrder _ _ _ _ _).
    destruct (add_order_volume new_order b1 Hb1 Hq1 Hn) as (Hq2 & _).
    by destruct (add_order new_order b1).
  - destruct (negb (new_quantity =? quantity (deref b (loc_order loc)))); [|done].
    fold (amended loc new_quantity b).
    destruct (match_loop_volume (live_orders (amended loc new_quantity b)) _
                (amended_inv id loc new_quantity b Hb Hl)
                (amended_quantities_ok loc new_quantity b Hq Hn)) as (Hq3 & _).
    fold (match_orders (amended loc new_quantity b)) in Hq3.
    by destruct (match_orders (amended loc new_quantity b)).
Qed.

Lemma deallocate_all_sub mp ps p o :
  MemoryPool.cells (fold_left (fun mp p => MemoryPool.deallocate p mp) ps mp) !! p = Some o ->
  MemoryPool.cells mp !! p = Some o.
Proof.
  revert mp. induction ps as [|x ps IH]; intros mp; simpl; [done|].
  intros H%IH. simpl in H. rewrite lookup_delete in H. by case_decide.
Qed.

Lemma clear_quantities_ok b : quantities_ok b -> quantities_ok (clear b).
Proof.
  intros Hq p o H. unfold clear in H. simpl in H.
  apply deallocate_all_sub, deallocate_all_sub in H. by apply (Hq p).
Qed.

Lemma quantity_ok_op_add order :
  quantity_ok_op (OpAdd order) = true -> 0 <= quantity order < 2 ^ 64.
Proof. simpl. intros [?%Z.leb_le ?%Z.ltb_lt]%andb_true_iff. lia. Qed.

Lemma step_quantities_ok op b :
  book_inv b -> quantities_ok b -> quantity_ok_op op = true ->
  quantities_ok (step op b).1.
Proof.
  intros Hb Hq Hop. destruct op as [order|id|id np nq|]; simpl.
  - by apply add_order_volume, quantity_ok_op_add.
  - by apply cancel_order_quantities_ok.
  - simpl in Hop. apply andb_true_iff in Hop as [?%Z.leb_le ?%Z.ltb_lt].
    pose proof (amend_order_quantities_ok id np nq b Hb Hq) as H'.
    destruct (amend_order id np nq b) as [[r b'] ts]. apply H'. lia.
  - by apply clear_quantities_ok.
Qed.

Lemma run_quantities_ok ops b :
  reachable b -> quantities_ok b -> forallb quantity_ok_op ops = true ->
  quantities_ok (run ops b).1.
Proof.
  revert b. induction ops as [|op ops IH]; intros b Hr Hq Hops; simpl in *; [done|].
  apply andb_true_iff in Hops as [Hop Hops].
  pose proof (step_quantities_ok op b (proj1 (reachable_inv b Hr)) Hq Hop) as Hq1.
  pose proof (reachable_step op b Hr) as Hr1.
  destruct (step op b) as [b1 ts1]. specialize (IH b1 Hr1 Hq1 Hops).
  by destruct (run ops b1).
Qed.

Lemma ex_two_sided_quantities_ok : quantities_ok ex_two_sided.
Proof.
  apply run_quantities_ok; [apply reachable_new | | by vm_compute].
  intros p o H. change (cells OrderBook_new) with (∅ : gmap nat Order) in H.
  by rewrite lookup_empty in H.
Qed.

(** X19. Matching neither creates nor loses quantity.  When an order is
    added to a book whose quantities are [uint64_t] values, the quantity
    resting afterwards plus twice the traded quantity (each trade takes
    its quantity from a buy and from a sell order) is the quantity
    resting before plus the quantity of the new order.  No trade has a
    negative quantity, and all quantities stay in range. *)
Theorem add_order_conserves_volume (order : Order) (b : OrderBook) :
  reachable b ->
  quantities_ok b ->
  0 <= quantity order < 2 ^ 64 ->
  quantities_ok (add_order order b).1
  /\ resting_volume (add_order order b).1 + 2 * traded_volume (add_order order b).2
     = resting_volume b + quantity order
  /\ Forall (fun t => 0 <= trade_quantity t) (add_order order b).2.
Proof.
  intros Hr Hq Ho. apply add_order_volume; try done. by apply reachable_inv.
Qed.

Lemma add_order_conserves_volume_witness :
  reachable ex_two_sided
  /\ quantities_ok ex_two_sided
  /\ 0 <= quantity (mkOrder 7 false 990 60 0) < 2 ^ 64
  /\ quantities_ok (add_order (mkOrder 7 false 990 60 0) ex_two_sided).1.
Proof.
  assert (0 <= quantity (mkOrder 7 false 990 60 0) < 2 ^ 64) as Ho by (simpl; lia).
  split; [exact ex_two_sided_reachable|].
  split; [exact ex_two_sided_quantities_ok|]. split; [exact Ho|].
  exact (proj1 (add_order_conserves_volume (mkOrder 7 false 990 60 0) ex_two_sided
                  ex_two_sided_reachable ex_two_sided_quantities_ok Ho)).
Defined.

End volume.
